(** * ndarray: a shallow embedding of [ndarray.c] and its specification

    The C library keeps an N-dimensional array as a header (rank, shape,
    byte strides, dtype tag) and one raw byte buffer that every operation
    reads and writes through casts ([(double* )data], [(float* )data]).
    The embedding follows that layout:

    - unsigned integers are [Z] with their wrap-around written out;
    - a buffer is a list of bytes, each either written or still
      indeterminate (fresh from [malloc]);
    - an access outside an allocated block is undefined behaviour in C and
      is the outcome [Fault] here; a [NULL] result is the value [None];
    - [double] and [float] values are their IEEE-754 bit patterns, and the
      arithmetic on them is the one of [SpecFloat] at binary64/binary32. *)

From Stdlib Require Import ZArith Lia Ascii Bool.
From Stdlib Require Import Strings.Byte.
From Stdlib Require Import Floats.SpecFloat.
From stdpp Require Import base tactics option list strings.

Local Open Scope Z_scope.

(** ** Machine integers *)

Module Mach.

Definition two64 : Z := 18446744073709551616.
Definition two32 : Z := 4294967296.

(** [uint64_t] / [size_t] arithmetic wraps modulo 2^64. *)
Definition wrap64 (x : Z) : Z := x mod two64.
(** [uint32_t] arithmetic wraps modulo 2^32. *)
Definition wrap32 (x : Z) : Z := x mod two32.
(** Conversion of a [uint32_t] value to [int] (two's complement). *)
Definition to_int32 (x : Z) : Z :=
  if x <? 2147483648 then x else x - two32.

End Mach.
Import Mach.

(** ** Outcomes and loops *)

(** The outcome of running a piece of C: a value, or undefined behaviour
    caused by an access outside an allocated block (or a division by 0). *)
Inductive res (A : Type) : Type :=
  | Ok (a : A)
  | Fault.
Arguments Ok {A} a.
Arguments Fault {A}.

(** A procedure that does not fault either returns or runs for ever. *)
Inductive termination (A : Type) : Type :=
  | Returns (a : A)
  | Forever.
Arguments Returns {A} a.
Arguments Forever {A}.

Definition bind {A B : Type} (m : res A) (k : A -> res B) : res B :=
  match m with
  | Ok a => k a
  | Fault => Fault
  end.

Notation "'do' x <- m ; k" := (bind m (fun x => k))
  (at level 10, x pattern, m at level 100, k at level 200,
   format "'[v' 'do'  x  <-  m ; '/' k ']'").

(** [for (i = start; i < start + n; i++) s = body(i, s);] *)
Fixpoint for_up {St : Type} (n : nat) (i : Z) (body : Z -> St -> res St)
    (s : St) : res St :=
  match n with
  | O => Ok s
  | S n' => do s' <- body i s; for_up n' (i + 1) body s'
  end.

(** [for (i = n - 1; i >= 0; i--) s = body(i, s);] *)
Fixpoint for_down {St : Type} (n : nat) (body : Z -> St -> res St) (s : St)
  : res St :=
  match n with
  | O => Ok s
  | S n' => do s' <- body (Z.of_nat n') s; for_down n' body s'
  end.

(** A checking loop that leaves the function at the first failed check:
    [for (i = start; i < start + n; i++) if (!check(i)) return NULL;] *)
Fixpoint all_up (n : nat) (i : Z) (check : Z -> res bool) : res bool :=
  match n with
  | O => Ok true
  | S n' => do c <- check i; if c then all_up n' (i + 1) check else Ok false
  end.

(** ** Index vectors ([uint64_t*]) *)

(** Reading cell [i] of a vector of [uint64_t]. *)
Definition rd (v : list Z) (i : Z) : res Z :=
  if i <? 0 then Fault
  else match v !! Z.to_nat i with
       | Some x => Ok x
       | None => Fault
       end.

(** Writing cell [i] of a vector of [uint64_t]. *)
Definition wr (v : list Z) (i : Z) (x : Z) : res (list Z) :=
  if (0 <=? i) && (i <? Z.of_nat (length v))
  then Ok (<[Z.to_nat i := x]> v)
  else Fault.

(** ** Byte buffers *)

(** A byte of a [malloc]ed block: indeterminate until written. *)
Inductive memval : Type :=
  | Undef
  | Byte (b : byte).

Definition byte_of_Z (x : Z) : byte :=
  match Byte.of_N (Z.to_N (x mod 256)) with
  | Some b => b
  | None => "000"%byte
  end.

Definition Z_of_byte (b : byte) : Z := Z.of_N (Byte.to_N b).

(** Little-endian bytes of the [n]-byte unsigned integer [x]. *)
Fixpoint bytes_of_int (n : nat) (x : Z) : list byte :=
  match n with
  | O => []
  | S n' => byte_of_Z x :: bytes_of_int n' (x / 256)
  end.

Fixpoint int_of_bytes (l : list byte) : Z :=
  match l with
  | [] => 0
  | b :: l' => Z_of_byte b + 256 * int_of_bytes l'
  end.

(** The bytes of a cell, when all of them have been written. *)
Fixpoint defined_bytes (l : list memval) : option (list byte) :=
  match l with
  | [] => Some []
  | Undef :: _ => None
  | Byte b :: l' =>
      match defined_bytes l' with
      | Some bs => Some (b :: bs)
      | None => None
      end
  end.

(** A scalar held in a C variable: [None] is an indeterminate value (read
    from bytes that were never written), [Some x] the bit pattern [x]. *)
Definition scalar : Type := option Z.

Definition encode (n : nat) (v : scalar) : list memval :=
  match v with
  | Some x => map Byte (bytes_of_int n x)
  | None => replicate n Undef
  end.

Definition decode (l : list memval) : scalar :=
  match defined_bytes l with
  | Some bs => Some (int_of_bytes bs)
  | None => None
  end.

(** [*(T* )(p + ofs)] for an [n]-byte scalar type [T]. *)
Definition load (n : nat) (m : list memval) (ofs : Z) : res scalar :=
  if (0 <=? ofs) && (ofs + Z.of_nat n <=? Z.of_nat (length m))
  then Ok (decode (take n (drop (Z.to_nat ofs) m)))
  else Fault.

(** [*(T* )(p + ofs) = v] for an [n]-byte scalar type [T]. *)
Definition store (n : nat) (m : list memval) (ofs : Z) (v : scalar)
  : res (list memval) :=
  if (0 <=? ofs) && (ofs + Z.of_nat n <=? Z.of_nat (length m))
  then Ok (take (Z.to_nat ofs) m ++ encode n v
             ++ drop (Z.to_nat ofs + n) m)
  else Fault.

(** [((T* )p)[i]]: the byte offset is [i * sizeof(T)]. *)
Definition load_at (n : nat) (m : list memval) (i : Z) : res scalar :=
  load n m (i * Z.of_nat n).

Definition store_at (n : nat) (m : list memval) (i : Z) (v : scalar)
  : res (list memval) :=
  store n m (i * Z.of_nat n) v.

(** ** IEEE-754 scalars

    A [double] or [float] object is its bit pattern.  The arithmetic is
    the round-to-nearest-even arithmetic of [SpecFloat].  [SpecFloat] has
    a single NaN, whereas a NaN object has a sign and a payload that C
    leaves to the platform: an operation whose result is a NaN takes its
    bit pattern from a [nan_policy], which sees the operation and the bit
    patterns of its operands and may answer with any NaN pattern. *)

Module IEEE.

Section Format.
(** [mw] mantissa bits stored, [ew] exponent bits stored. *)
Variables mw ew : Z.

Definition prec : Z := mw + 1.
Definition emax : Z := 2 ^ (ew - 1).
Definition emin' : Z := 3 - emax - prec.

Definition sf_of_bits (x : Z) : spec_float :=
  let s := Z.testbit x (mw + ew) in
  let e := (x / 2 ^ mw) mod 2 ^ ew in
  let m := x mod 2 ^ mw in
  if e =? 0 then
    if m =? 0 then S754_zero s else S754_finite s (Z.to_pos m) emin'
  else if e =? 2 ^ ew - 1 then
    if m =? 0 then S754_infinity s else S754_nan
  else S754_finite s (Z.to_pos (m + 2 ^ mw)) (e + emin' - 1).

Definition sign_bit (s : bool) : Z := if s then 2 ^ (mw + ew) else 0.

(** The bit pattern of a value.  The operations below hand it no NaN:
    its NaN case only makes it total. *)
Definition bits_of_sf (f : spec_float) : Z :=
  match f with
  | S754_zero s => sign_bit s
  | S754_infinity s => sign_bit s + (2 ^ ew - 1) * 2 ^ mw
  | S754_nan => (2 ^ ew - 1) * 2 ^ mw + 2 ^ (mw - 1)
  | S754_finite s m e =>
      if Z.pos m <? 2 ^ mw then sign_bit s + Z.pos m
      else sign_bit s + (e - emin' + 1) * 2 ^ mw + (Z.pos m - 2 ^ mw)
  end.

(** The NaN pattern a code [c] stands for: the low [mw] bits of [c] are
    the mantissa (the quiet bit alone when they are all 0) and the next
    bit is the sign.  Every NaN pattern is the pattern of some code. *)
Definition nan_pattern (c : Z) : Z :=
  let m := c mod 2 ^ mw in
  sign_bit (Z.odd (c / 2 ^ mw)) + (2 ^ ew - 1) * 2 ^ mw
  + (if m =? 0 then 2 ^ (mw - 1) else m).

(** Conversion of a value of another format to this one. *)
Definition round_to (f : spec_float) : spec_float :=
  match f with
  | S754_finite s m e => binary_round prec emax s m e
  | _ => f
  end.

Definition is_nan (x : Z) : bool :=
  match sf_of_bits x with
  | S754_nan => true
  | _ => false
  end.
End Format.

(** A [double] object has 64 bits and a [float] object 32. *)
Definition sf64 : Z -> spec_float := sf_of_bits 52 11.
Definition bits64 (f : spec_float) : Z := wrap64 (bits_of_sf 52 11 f).
Definition nan64 (c : Z) : Z := wrap64 (nan_pattern 52 11 c).
Definition sf32 : Z -> spec_float := sf_of_bits 23 8.
Definition bits32 (f : spec_float) : Z := wrap32 (bits_of_sf 23 8 f).
Definition nan32 (c : Z) : Z := wrap32 (nan_pattern 23 8 c).

(** The format of a result, and the operations that can deliver a NaN. *)
Inductive format : Type := Binary32 | Binary64.
Inductive operation : Type := Add | Sub | Mul | Div | Convert.

(** The code of the NaN a platform delivers for an operation on the
    operands given (as bit patterns, in the order of the C expression). *)
Class nan_policy : Type :=
  nan_choice : format -> operation -> list Z -> Z.

Section Operations.
Context {fp : nan_policy}.

Definition result64 (op : operation) (xs : list Z) (r : spec_float) : Z :=
  match r with
  | S754_nan => nan64 (nan_choice Binary64 op xs)
  | _ => bits64 r
  end.

Definition result32 (op : operation) (xs : list Z) (r : spec_float) : Z :=
  match r with
  | S754_nan => nan32 (nan_choice Binary32 op xs)
  | _ => bits32 r
  end.

Definition double_add (x y : Z) : Z :=
  result64 Add [x; y] (SFadd 53 1024 (sf64 x) (sf64 y)).
Definition double_sub (x y : Z) : Z :=
  result64 Sub [x; y] (SFsub 53 1024 (sf64 x) (sf64 y)).
Definition double_mul (x y : Z) : Z :=
  result64 Mul [x; y] (SFmul 53 1024 (sf64 x) (sf64 y)).
Definition double_div (x y : Z) : Z :=
  result64 Div [x; y] (SFdiv 53 1024 (sf64 x) (sf64 y)).
Definition float_add (x y : Z) : Z :=
  result32 Add [x; y] (SFadd 24 128 (sf32 x) (sf32 y)).
Definition float_sub (x y : Z) : Z :=
  result32 Sub [x; y] (SFsub 24 128 (sf32 x) (sf32 y)).
Definition float_mul (x y : Z) : Z :=
  result32 Mul [x; y] (SFmul 24 128 (sf32 x) (sf32 y)).
(** [(double)f] and [(float)d]. *)
Definition double_of_float (x : Z) : Z :=
  result64 Convert [x] (round_to 52 11 (sf32 x)).
Definition float_of_double (x : Z) : Z :=
  result32 Convert [x] (round_to 23 8 (sf64 x)).
End Operations.

(** [x < y] and [x == y] on [double]s. *)
Definition double_lt (x y : Z) : bool := SFltb (sf64 x) (sf64 y).
Definition double_eq (x y : Z) : bool := SFeqb (sf64 x) (sf64 y).

(** The bit pattern of the literal [0.0]. *)
Definition zero : Z := 0.

(** One policy, that of the SSE2 instructions with the operands in the
    order of the C expression: the first NaN operand, made quiet (on a
    conversion its payload is shifted to the width of the result), and
    the negative quiet NaN when no operand is a NaN.  [from] and [ew]
    describe the format of the operands, [to] the one of the result. *)
Definition quieted (from ew to x : Z) : Z :=
  let s := (x / 2 ^ (from + ew)) mod 2 in
  let m := x mod 2 ^ from in
  let m' := if from <? to then m * 2 ^ (to - from) else m / 2 ^ (from - to) in
  s * 2 ^ to + Z.lor m' (2 ^ (to - 1)).

Definition sse : nan_policy :=
  fun fmt op xs =>
    let to := match fmt with Binary64 => 52 | Binary32 => 23 end in
    let '(from, ew) :=
      match op, fmt with
      | Convert, Binary64 => (23, 8)
      | Convert, Binary32 => (52, 11)
      | _, Binary64 => (52, 11)
      | _, Binary32 => (23, 8)
      end in
    match List.filter (is_nan from ew) xs with
    | x :: _ => quieted from ew to x
    | [] => 2 ^ to
    end.

End IEEE.

Section Platform.
(** Everything below holds for every NaN policy. *)
Context {fp : IEEE.nan_policy}.

(** Arithmetic on C variables: an indeterminate operand gives an
    indeterminate result. *)
Definition lift1 (f : Z -> Z) (a : scalar) : scalar :=
  match a with
  | Some x => Some (f x)
  | None => None
  end.

Definition lift2 (f : Z -> Z -> Z) (a b : scalar) : scalar :=
  match a, b with
  | Some x, Some y => Some (f x y)
  | _, _ => None
  end.

(** ** The array container *)

(** [(size_t)dtype] for the (signed) [char] tag. *)
Definition size_t_of_char (c : ascii) : Z :=
  let n := Z.of_N (N_of_ascii c) in
  if n <? 128 then n else wrap64 (n - 256).

Definition calculate_type_size (dtype : ascii) : Z :=
  if Ascii.eqb dtype "d"%char then 8
  else if Ascii.eqb dtype "f"%char then 4
  else if Ascii.eqb dtype "i"%char then 8
  else if size_t_of_char dtype <? 8 then size_t_of_char dtype else 1.

Definition calculate_size (dims : list Z) (nd : Z) : res Z :=
  for_up (Z.to_nat nd) 0
    (fun i size => do d <- rd dims i; Ok (wrap64 (size * d))) 1.

(** [ndarray_t].  [data], [dimensions] and [strides] are the blocks the
    three pointers of the struct own. *)
Record ndarray : Type := mk_ndarray {
  data : list memval;
  dimensions : list Z;
  strides : list Z;
  nd : Z;
  dtype : ascii
}.

(** An assignment through [array->data] changes the buffer only. *)
Definition with_data (a : ndarray) (m : list memval) : ndarray :=
  {| data := m; dimensions := dimensions a; strides := strides a;
     nd := nd a; dtype := dtype a |}.

(** [array->dimensions[i]] *)
Definition dim (a : ndarray) (i : Z) : res Z := rd (dimensions a) i.

(** [malloc(n * sizeof(uint64_t))]: a fresh vector of [n] cells.  Its
    cells are shown as 0 until written; no function below reads a cell of
    a fresh vector before writing it, as long as the rank fits [int]. *)
Definition fresh_vector (n : Z) : list Z := replicate (Z.to_nat n) 0.

(** [malloc(n)]: [n] indeterminate bytes. *)
Definition malloc (n : Z) : list memval := replicate (Z.to_nat n) Undef.

(** [memcpy] of [n] cells out of the caller's vector. *)
Definition copy_cells (src : list Z) (n : Z) : res (list Z) :=
  if Z.of_nat (length src) <? n then Fault else Ok (take (Z.to_nat n) src).

(** The allocations are taken to succeed, so the [NULL] result of a
    failed [calloc] does not arise; the code checks no other allocation.
    What is proved about the contents of a buffer below is proved of
    arrays whose buffer is there in full ([buffer_fits]). *)
Definition ndarray_create (dims : list Z) (nd : Z) (dtype : ascii)
  : res (option ndarray) :=
  do dimensions <- copy_cells dims nd;
  do strides1 <- wr (fresh_vector nd) (wrap32 (nd - 1))
                    (calculate_type_size dtype);
  do strides2 <- for_down (Z.to_nat (to_int32 (wrap32 (nd - 2)) + 1))
                   (fun i st =>
                      do s <- rd st (i + 1);
                      do d <- rd dimensions (i + 1);
                      wr st i (wrap64 (s * d)))
                   strides1;
  do size <- calculate_size dims nd;
  let type_size := calculate_type_size dtype in
  Ok (Some {| data := malloc (wrap64 (size * type_size));
              dimensions := dimensions;
              strides := strides2;
              nd := nd;
              dtype := dtype |}).

(** ** Indexing *)

(** The offset loop shared by [ndarray_get_point] and every
    [ndarray_set_point*]. *)
Definition point_offset (a : ndarray) (idx : list Z) : res Z :=
  for_up (Z.to_nat (nd a)) 0
    (fun i offset =>
       do s <- rd (strides a) i;
       do x <- rd idx i;
       let pos := wrap64 (s * x) in
       Ok (wrap64 (offset + pos)))
    0.

(** The pointer returned is [data + offset]; it is given by [offset]. *)
Definition ndarray_get_point (a : ndarray) (idx : list Z) : res Z :=
  point_offset a idx.

Definition set_scalar (n : nat) (a : ndarray) (idx : list Z) (v : Z)
  : res (ndarray * Z) :=
  do offset <- point_offset a idx;
  do m <- store n (data a) offset (Some v);
  Ok (with_data a m, 0).

Definition ndarray_set_point_d := set_scalar 8.
Definition ndarray_set_point_f := set_scalar 4.
Definition ndarray_set_point_u64 := set_scalar 8.
Definition ndarray_set_point_u32 := set_scalar 4.

(** [memcpy(dst, data_point, calculate_type_size(dtype))], the source
    object given by its bytes. *)
Definition ndarray_set_point (a : ndarray) (idx : list Z)
    (data_point : list memval) : res (ndarray * Z) :=
  do offset <- point_offset a idx;
  let n := Z.to_nat (calculate_type_size (dtype a)) in
  if (length data_point <? n)%nat then Fault
  else if (0 <=? offset) && (offset + Z.of_nat n <=? Z.of_nat (length (data a)))
  then Ok (with_data a (take (Z.to_nat offset) (data a)
                          ++ take n data_point
                          ++ drop (Z.to_nat offset + n) (data a)), 0)
  else Fault.

Definition ndarray_ndim (a : ndarray) : Z := nd a.
Definition ndarray_shape (a : ndarray) : list Z := dimensions a.
Definition ndarray_dtype (a : ndarray) : ascii := dtype a.

Definition ndarray_size (a : ndarray) : res Z :=
  for_up (Z.to_nat (nd a)) 0
    (fun i size => do d <- dim a i; Ok (wrap64 (size * d))) 1.

(** [((T* )r->data)[i] = v] *)
Definition store_elem (n : nat) (r : ndarray) (i : Z) (v : scalar)
  : res ndarray :=
  do m <- store_at n (data r) i v; Ok (with_data r m).

(** ** Operations *)

Definition is_d (a : ndarray) : bool := Ascii.eqb (dtype a) "d"%char.
Definition is_f (a : ndarray) : bool := Ascii.eqb (dtype a) "f"%char.

(** [if (!result) result = ndarray_create(a->dimensions, a->nd, a->dtype);] *)
Definition result_or_create (result : option ndarray) (a : ndarray)
  : res (option ndarray) :=
  match result with
  | Some r => Ok (Some r)
  | None => ndarray_create (dimensions a) (nd a) (dtype a)
  end.

Definition ndarray_transpose (a : ndarray) : res (option ndarray) :=
  if negb (nd a =? 2) then Ok None
  else
    do d1 <- dim a 1;
    do d0 <- dim a 0;
    do t <- ndarray_create [d1; d0] 2 (dtype a);
    match t with
    | None => Ok None
    | Some transposed =>
        do r <- for_up (Z.to_nat d0) 0
                  (fun i t1 =>
                     for_up (Z.to_nat d1) 0
                       (fun j t2 =>
                          if is_d a then
                            do v <- load_at 8 (data a) (wrap64 (i * d1 + j));
                            store_elem 8 t2 (wrap64 (j * d0 + i)) v
                          else if is_f a then
                            do v <- load_at 4 (data a) (wrap64 (i * d1 + j));
                            store_elem 4 t2 (wrap64 (j * d0 + i)) v
                          else Ok t2)
                       t1)
                  transposed;
        Ok (Some r)
    end.

(** The shape check of [ndarray_add], [ndarray_subtract] and
    [ndarray_compare]. *)
Definition same_shape (a b : ndarray) : res bool :=
  all_up (Z.to_nat (nd a)) 0
    (fun i => do x <- dim a i; do y <- dim b i; Ok (x =? y)).

(** [ndarray_add] and [ndarray_subtract] are the same text up to the
    operator; [opd] is the operator on [double], [opf] on [float]. *)
Definition elementwise (opd opf : Z -> Z -> Z)
    (result : option ndarray) (a b : ndarray) : res (option ndarray) :=
  if negb (nd a =? nd b) || negb (Ascii.eqb (dtype a) (dtype b)) then Ok None
  else
    do same <- same_shape a b;
    if negb same then Ok None
    else
      do result <- result_or_create result a;
      match result with
      | None => Ok None
      | Some r0 =>
          do d0 <- dim a 0;
          do d1 <- dim a 1;
          do r <- for_up (Z.to_nat (wrap64 (d0 * d1))) 0
                    (fun i r =>
                       if is_d a then
                         do x <- load_at 8 (data a) i;
                         do y <- load_at 8 (data b) i;
                         store_elem 8 r i (lift2 opd x y)
                       else if is_f a then
                         do x <- load_at 4 (data a) i;
                         do y <- load_at 4 (data b) i;
                         store_elem 4 r i (lift2 opf x y)
                       else Ok r)
                    r0;
          Ok (Some r)
      end.

Definition ndarray_add := elementwise IEEE.double_add IEEE.float_add.
Definition ndarray_subtract := elementwise IEEE.double_sub IEEE.float_sub.

(** Where the [result] argument of [ndarray_dot] points: nowhere, to an
    array that is neither operand, or to an operand.  In the last case
    the loop overwrites the operand while it still reads it, so the reads
    of that operand go to the output as it stands. *)
Inductive target : Type :=
  | Null
  | Other (r : ndarray)
  | First     (* result == a *)
  | Second    (* result == b *)
  | Both.     (* result == a == b *)

(** The array [result] points to on entry. *)
Definition supplied (t : target) (a b : ndarray) : option ndarray :=
  match t with
  | Null => None
  | Other r => Some r
  | First | Both => Some a
  | Second => Some b
  end.

(** The argument of a call whose output is no operand. *)
Definition unaliased (result : option ndarray) : target :=
  match result with
  | None => Null
  | Some r => Other r
  end.

(** [a->data] and [b->data] as a read finds them when the output is [r]. *)
Definition first_data (t : target) (a r : ndarray) : list memval :=
  match t with
  | First | Both => data r
  | _ => data a
  end.

Definition second_data (t : target) (b r : ndarray) : list memval :=
  match t with
  | Second | Both => data r
  | _ => data b
  end.

Definition ndarray_dot (t : target) (a b : ndarray)
  : res (option ndarray) :=
  if negb (nd a =? 2) then Ok None
  else if negb (nd b =? 2) then Ok None
  else if negb (Ascii.eqb (dtype a) (dtype b)) then Ok None
  else
    do a1 <- dim a 1;
    do b0 <- dim b 0;
    if negb (a1 =? b0) then Ok None
    else
      do result <- result_or_create (supplied t a b) a;
      match result with
      | None => Ok None
      | Some r0 =>
          do a0 <- dim a 0;
          do r <- for_up (Z.to_nat a0) 0
                    (fun i r1 =>
                       do b1 <- dim b 1;
                       for_up (Z.to_nat b1) 0
                         (fun j r2 =>
                            do sum <- for_up (Z.to_nat a1) 0
                                        (fun k (sum : scalar) =>
                                           if is_d a then
                                             do x <- load_at 8 (first_data t a r2) (wrap64 (i * a1 + k));
                                             do y <- load_at 8 (second_data t b r2) (wrap64 (k * b1 + j));
                                             Ok (lift2 IEEE.double_add sum
                                                   (lift2 IEEE.double_mul x y))
                                           else if is_f a then
                                             do x <- load_at 4 (first_data t a r2) (wrap64 (i * a1 + k));
                                             do y <- load_at 4 (second_data t b r2) (wrap64 (k * b1 + j));
                                             Ok (lift2 IEEE.double_add sum
                                                   (lift1 IEEE.double_of_float
                                                      (lift2 IEEE.float_mul x y)))
                                           else Ok sum)
                                        (Some IEEE.zero);
                            if is_d a then
                              store_elem 8 r2 (wrap64 (i * b1 + j)) sum
                            else if is_f a then
                              store_elem 4 r2 (wrap64 (i * b1 + j))
                                (lift1 IEEE.float_of_double sum)
                            else Ok r2)
                         r1)
                    r0;
          Ok (Some r)
      end.

(** One operand of [ndarray_broadcast_add] at cell [(i, j)], as a
    [double]: the element when the cell is inside the operand, else 0.0. *)
Definition broadcast_operand (x : ndarray) (i j : Z) : res scalar :=
  do x0 <- dim x 0;
  if negb (i <? x0) then Ok (Some IEEE.zero)
  else
    do x1 <- dim x 1;
    if negb (j <? x1) then Ok (Some IEEE.zero)
    else if is_d x then load_at 8 (data x) (wrap64 (i * x1 + j))
    else
      do v <- load_at 4 (data x) (wrap64 (i * x1 + j));
      Ok (lift1 IEEE.double_of_float v).

Definition ndarray_broadcast_add (result : option ndarray) (a b : ndarray)
  : res (option ndarray) :=
  if negb (nd a =? 2) then Ok None
  else if negb (nd b =? 2) then Ok None
  else if negb (Ascii.eqb (dtype a) (dtype b)) then Ok None
  else
    do a0 <- dim a 0;
    do b0 <- dim b 0;
    let rows := if b0 <? a0 then a0 else b0 in
    do a1 <- dim a 1;
    do b1 <- dim b 1;
    let cols := if b1 <? a1 then a1 else b1 in
    do result <- result_or_create result a;
    match result with
    | None => Ok None
    | Some r0 =>
        do r <- for_up (Z.to_nat rows) 0
                  (fun i r1 =>
                     for_up (Z.to_nat cols) 0
                       (fun j r2 =>
                          do val_a <- broadcast_operand a i j;
                          do val_b <- broadcast_operand b i j;
                          if is_d a then
                            store_elem 8 r2 (wrap64 (i * cols + j))
                              (lift2 IEEE.double_add val_a val_b)
                          else if is_f a then
                            store_elem 4 r2 (wrap64 (i * cols + j))
                              (lift1 IEEE.float_of_double
                                 (lift2 IEEE.double_add val_a val_b))
                          else Ok r2)
                       r1)
                  r0;
        Ok (Some r)
    end.

(** [ndarray_subsample].  [rand i] is the value the [i]-th call of
    [rand()] returns after [srand(time(NULL))]. *)
Definition ndarray_subsample (rand : Z -> Z) (a : ndarray) (n_samples : Z)
  : res (option ndarray) :=
  do d0 <- dim a 0;
  if d0 <? n_samples then Ok None
  else
    do new_dims1 <- wr (fresh_vector (nd a)) 0 n_samples;
    do new_dims <- for_up (Z.to_nat (nd a - 1)) 1
                     (fun i v => do d <- dim a i; wr v i d)
                     new_dims1;
    do s <- ndarray_create new_dims (nd a) (dtype a);
    match s with
    | None => Ok None
    | Some subsampled =>
        (* malloc(array->dimensions[0] * sizeof(uint64_t)) *)
        do indices1 <- for_up (Z.to_nat d0) 0
                         (fun i v => wr v i i)
                         (fresh_vector (wrap64 (d0 * 8) / 8));
        do indices <- for_up (Z.to_nat d0) 0
                        (fun i v =>
                           let j := wrap64 (rand i) mod d0 in
                           do temp <- rd v i;
                           do vj <- rd v j;
                           do v1 <- wr v i vj;
                           wr v1 j temp)
                        indices1;
        do r <- for_up (Z.to_nat n_samples) 0
                  (fun i s1 =>
                     do d1 <- dim a 1;
                     for_up (Z.to_nat d1) 0
                       (fun j s2 =>
                          if is_d a then
                            do k <- rd indices i;
                            do v <- load_at 8 (data a) (wrap64 (k * d1 + j));
                            store_elem 8 s2 (wrap64 (i * d1 + j)) v
                          else if is_f a then
                            do k <- rd indices i;
                            do v <- load_at 4 (data a) (wrap64 (k * d1 + j));
                            store_elem 4 s2 (wrap64 (i * d1 + j)) v
                          else Ok s2)
                       s1)
                  subsampled;
        Ok (Some r)
    end.

(** The decomposition loop of [ndarray_concat]:
    [indices[i] = remainder / strides[i]; remainder %= strides[i];] *)
Definition decompose (result : ndarray) (indices : list Z) (linear_idx : Z)
  : res (list Z * Z) :=
  for_up (Z.to_nat (nd result)) 0
    (fun i '(ind, remainder) =>
       do s <- rd (strides result) i;
       if s =? 0 then Fault
       else
         do ind' <- wr ind i (remainder / s);
         Ok (ind', remainder mod s))
    (indices, linear_idx).

(** The source index loop of [ndarray_concat]. *)
Definition source_index (src : ndarray) (axis src_axis : Z) (indices : list Z)
  : res Z :=
  for_up (Z.to_nat (nd src)) 0
    (fun i src_idx =>
       do s <- rd (strides src) i;
       if i =? axis then Ok (wrap64 (src_idx + src_axis * s))
       else do x <- rd indices i; Ok (wrap64 (src_idx + x * s)))
    0.

(** [ndarray_concat].  The two operands are given as arrays, so the
    [NULL] check on them is passed. *)
Definition ndarray_concat (a b : ndarray) (axis : Z) : res (option ndarray) :=
  if negb (nd a =? nd b) then Ok None
  else if nd a <=? axis then Ok None
  else if negb (Ascii.eqb (dtype a) (dtype b)) then Ok None
  else
    do compatible <- all_up (Z.to_nat (nd a)) 0
                       (fun i =>
                          if i =? axis then Ok true
                          else do x <- dim a i; do y <- dim b i; Ok (x =? y));
    if negb compatible then Ok None
    else
      do new_dims <- for_up (Z.to_nat (nd a)) 0
                       (fun i v =>
                          do x <- dim a i;
                          if i =? axis
                          then do y <- dim b i; wr v i (wrap64 (x + y))
                          else wr v i x)
                       (fresh_vector (nd a));
      do r <- ndarray_create new_dims (nd a) (dtype a);
      match r with
      | None => Ok None
      | Some result0 =>
          do total_elements <- ndarray_size result0;
          let type_size := calculate_type_size (dtype result0) in
          (* malloc(result->nd * type_size), used as a vector of uint64_t *)
          let indices0 := fresh_vector (wrap64 (nd result0 * type_size) / 8) in
          do st <- for_up (Z.to_nat total_elements) 0
                     (fun linear_idx '(indices, result) =>
                        do (indices, _) <- decompose result indices linear_idx;
                        do axis_idx <- rd indices axis;
                        do a_axis <- dim a axis;
                        let '(src, src_axis) :=
                          if axis_idx <? a_axis then (a, axis_idx)
                          else (b, wrap64 (axis_idx - a_axis)) in
                        do src_idx <- source_index src axis src_axis indices;
                        if is_d a then
                          do v <- load_at 8 (data src) src_idx;
                          do result' <- store_elem 8 result linear_idx v;
                          Ok (indices, result')
                        else
                          do v <- load_at 4 (data src) src_idx;
                          do result' <- store_elem 4 result linear_idx v;
                          Ok (indices, result'))
                     (indices0, result0);
          Ok (Some (snd st))
      end.

(** One operand of [ndarray_compare], as a [double]. *)
Definition compare_operand (x : ndarray) (i : Z) : res scalar :=
  if is_d x then load_at 8 (data x) i
  else do v <- load_at 4 (data x) i; Ok (lift1 IEEE.double_of_float v).

(** The [int] a comparison yields. *)
Definition truth (test : Z -> Z -> bool) (x y : scalar) : scalar :=
  lift2 (fun u v => if test u v then 1 else 0) x y.

(** [ndarray_compare].  The loop state is [None] once the [default] case
    has freed the output and returned [NULL]. *)
Definition ndarray_compare (result : option ndarray) (a b : ndarray)
    (op : ascii) : res (option ndarray) :=
  if negb (nd a =? nd b) || negb (Ascii.eqb (dtype a) (dtype b)) then Ok None
  else
    do same <- same_shape a b;
    if negb same then Ok None
    else
      do result <- result_or_create result a;
      match result with
      | None => Ok None
      | Some r0 =>
          do d0 <- dim a 0;
          do d1 <- dim a 1;
          for_up (Z.to_nat (wrap64 (d0 * d1))) 0
            (fun i (st : option ndarray) =>
               match st with
               | None => Ok None
               | Some r =>
                   do val_a <- compare_operand a i;
                   do val_b <- compare_operand b i;
                   if Ascii.eqb op ">"%char then
                     do r' <- store_elem 4 r i
                                (truth (fun u v => IEEE.double_lt v u) val_a val_b);
                     Ok (Some r')
                   else if Ascii.eqb op "<"%char then
                     do r' <- store_elem 4 r i
                                (truth IEEE.double_lt val_a val_b);
                     Ok (Some r')
                   else if Ascii.eqb op "="%char then
                     do r' <- store_elem 4 r i
                                (truth IEEE.double_eq val_a val_b);
                     Ok (Some r')
                   else Ok None
               end)
            (Some r0)
      end.

(** * Specification vocabulary *)

(** What a cell of [n] bytes holds after [v] was stored into it. *)
Definition fit (n : nat) (v : scalar) : scalar :=
  lift1 (fun x => x mod 256 ^ Z.of_nat n) v.

(** The number of elements of a shape, as a mathematical integer. *)
Definition prod (l : list Z) : Z := foldr Z.mul 1 l.

(** The row-major byte stride of axis [i]: the element size times the
    extents of the axes after [i], as [uint64_t] arithmetic leaves it. *)
Definition row_major (ts : Z) (dims : list Z) (i : nat) : Z :=
  wrap64 (ts * prod (drop (S i) dims)).

(** The ranks for which the [int] counter of the stride loop holds
    [nd - 2]. *)
Definition rank_fits_int (n : Z) : Prop := 1 <= n <= 2147483648.

(** Everything of an array but the contents of its buffer. *)
Definition header (a : ndarray) : list Z * list Z * Z * ascii * nat :=
  (dimensions a, strides a, nd a, dtype a, length (data a)).

(** The stride invariant of the specification, in the arithmetic of the
    code: the last stride is the element size, and each other stride is
    the next stride times the next extent as a [uint64_t] product. *)
Definition stride_invariant (a : ndarray) : Prop :=
  rd (strides a) (nd a - 1) = Ok (calculate_type_size (dtype a)) /\
  forall i, 0 <= i < nd a - 1 ->
    exists s d,
      rd (strides a) (i + 1) = Ok s /\
      rd (dimensions a) (i + 1) = Ok d /\
      rd (strides a) i = Ok (wrap64 (s * d)).

(** The header [ndarray_create] builds. *)
Definition row_major_layout (a : ndarray) : Prop :=
  rank_fits_int (nd a) /\
  length (dimensions a) = Z.to_nat (nd a) /\
  length (strides a) = Z.to_nat (nd a) /\
  (forall i, (i < Z.to_nat (nd a))%nat ->
     strides a !! i
     = Some (row_major (calculate_type_size (dtype a)) (dimensions a) i)) /\
  length (data a)
  = Z.to_nat (wrap64 (wrap64 (prod (dimensions a))
                      * calculate_type_size (dtype a))).

(** The values of type [uint64_t]. *)
Definition uint64 (x : Z) : Prop := 0 <= x < two64.

(** The arrays a program can hold: those [ndarray_create] returned, and
    those any later operation of the library returned or updated.  A
    caller-supplied output array is itself a live array; extents and
    sample counts are [uint64_t] values. *)
Inductive live : ndarray -> Prop :=
  | live_create dims n dt a :
      rank_fits_int n ->
      Forall uint64 dims ->
      ndarray_create dims n dt = Ok (Some a) ->
      live a
  | live_set_scalar n a idx v a' z :
      live a ->
      set_scalar n a idx v = Ok (a', z) ->
      live a'
  | live_set_point a idx p a' z :
      live a ->
      ndarray_set_point a idx p = Ok (a', z) ->
      live a'
  | live_fill a m :
      (* writes through [array->data], as the CSV loader and the random
         generators do after [ndarray_create] *)
      live a ->
      length m = length (data a) ->
      live (with_data a m)
  | live_transpose a r :
      live a ->
      ndarray_transpose a = Ok (Some r) ->
      live r
  | live_add result a b r :
      (forall r0, result = Some r0 -> live r0) -> live a -> live b ->
      ndarray_add result a b = Ok (Some r) ->
      live r
  | live_subtract result a b r :
      (forall r0, result = Some r0 -> live r0) -> live a -> live b ->
      ndarray_subtract result a b = Ok (Some r) ->
      live r
  | live_dot t a b r :
      (forall r0, t = Other r0 -> live r0) -> live a -> live b ->
      (t = Both -> b = a) ->
      ndarray_dot t a b = Ok (Some r) ->
      live r
  | live_broadcast_add result a b r :
      (forall r0, result = Some r0 -> live r0) -> live a -> live b ->
      ndarray_broadcast_add result a b = Ok (Some r) ->
      live r
  | live_compare result a b op r :
      (forall r0, result = Some r0 -> live r0) -> live a -> live b ->
      ndarray_compare result a b op = Ok (Some r) ->
      live r
  | live_subsample rand a n r :
      live a ->
      uint64 n ->
      ndarray_subsample rand a n = Ok (Some r) ->
      live r
  | live_concat a b axis r :
      live a -> live b ->
      ndarray_concat a b axis = Ok (Some r) ->
      live r.

(** [sum over i of idx[i] * strides[i]], as a mathematical integer. *)
Fixpoint offset_sum (strides idx : list Z) : Z :=
  match strides, idx with
  | s :: ss, x :: xs => s * x + offset_sum ss xs
  | _, _ => 0
  end.

(** [idx] has one entry per axis and [0 <= idx[i] < shape[i]] on each. *)
Fixpoint all_below (dims idx : list Z) : bool :=
  match dims, idx with
  | [], [] => true
  | d :: ds, x :: xs => (0 <=? x) && (x <? d) && all_below ds xs
  | _, _ => false
  end.

Definition in_range (a : ndarray) (idx : list Z) : bool :=
  all_below (dimensions a) idx.

(** The row-major strides without wrap-around. *)
Fixpoint exact_strides (ts : Z) (dims : list Z) : list Z :=
  match dims with
  | [] => []
  | _ :: ds => ts * prod ds :: exact_strides ts ds
  end.

(** An array whose buffer is as long as its shape says (the product not
    having wrapped) has exactly the row-major strides. *)
Definition buffer_fits (a : ndarray) : Prop :=
  Z.of_nat (length (data a))
  = prod (dimensions a) * calculate_type_size (dtype a).

(** The array [ndarray_create] returns for shape [2^61, 2] and dtype
    ['d']: the byte count 2^65 wraps to 0, so the buffer is empty. *)
Definition wrapped_2p61x2 : ndarray :=
  {| data := malloc 0; dimensions := [2305843009213693952; 2];
     strides := [16; 8]; nd := 2; dtype := "d"%char |}.

(** The array [ndarray_create] returns for shape [2, 3] and dtype ['d']. *)
Definition fresh_2x3 : ndarray :=
  {| data := malloc 48; dimensions := [2; 3]; strides := [24; 8];
     nd := 2; dtype := "d"%char |}.

(** Likewise for the shapes [3, 4] and [2, 2]. *)
Definition fresh_3x4 : ndarray :=
  {| data := malloc 96; dimensions := [3; 4]; strides := [32; 8];
     nd := 2; dtype := "d"%char |}.
Definition fresh_2x2 : ndarray :=
  {| data := malloc 32; dimensions := [2; 2]; strides := [16; 8];
     nd := 2; dtype := "d"%char |}.

(** The contents of cell [i] of a buffer of [n]-byte cells. *)
Definition elem (n : nat) (m : list memval) (i : Z) : scalar :=
  decode (take n (drop (Z.to_nat (i * Z.of_nat n)) m)).

(** The [double] nearest to the integer [n], as its bit pattern. *)
Definition double_of_int (n : Z) : Z :=
  IEEE.bits64 (binary_normalize 53 1024 n 0 false).

(** A buffer of [double]s holding the integers [l]. *)
Definition doubles (l : list Z) : list memval :=
  flat_map (fun n => encode 8 (Some (double_of_int n))) l.

(** A buffer of [uint64_t]s. *)
Definition words (l : list Z) : list memval :=
  flat_map (fun n => encode 8 (Some n)) l.

(** [[1, 2]], 1x2, and [[3], [4]], 2x1. *)
Definition row_1_2 : ndarray :=
  {| data := doubles [1; 2]; dimensions := [1; 2]; strides := [16; 8];
     nd := 2; dtype := "d"%char |}.
Definition col_3_4 : ndarray :=
  {| data := doubles [3; 4]; dimensions := [2; 1]; strides := [8; 8];
     nd := 2; dtype := "d"%char |}.

(** [[5]], 1x1. *)
Definition one_5 : ndarray :=
  {| data := doubles [5]; dimensions := [1; 1]; strides := [8; 8];
     nd := 2; dtype := "d"%char |}.

(** The vectors [1, 2] and [3], rank 1. *)
Definition vec_1_2 : ndarray :=
  {| data := doubles [1; 2]; dimensions := [2]; strides := [8];
     nd := 1; dtype := "d"%char |}.
Definition vec_3 : ndarray :=
  {| data := doubles [3]; dimensions := [1]; strides := [8];
     nd := 1; dtype := "d"%char |}.

(** [[[1, 2]]] and [[[10, 20]]], rank 3 of shape 1x1x2. *)
Definition cube_1_2 : ndarray :=
  {| data := doubles [1; 2]; dimensions := [1; 1; 2]; strides := [16; 16; 8];
     nd := 3; dtype := "d"%char |}.
Definition cube_10_20 : ndarray :=
  {| data := doubles [10; 20]; dimensions := [1; 1; 2]; strides := [16; 16; 8];
     nd := 3; dtype := "d"%char |}.

(** [[7]] and [[2]], 1x1 of the unsigned 64-bit dtype. *)
Definition u64_7 : ndarray :=
  {| data := words [7]; dimensions := [1; 1]; strides := [8; 8];
     nd := 2; dtype := "i"%char |}.


(** Filling a fresh array through the typed setter. *)
Fixpoint fill_d (a : ndarray) (l : list (list Z * Z)) : res ndarray :=
  match l with
  | [] => Ok a
  | (idx, n) :: l' =>
      do r <- ndarray_set_point_d a idx (double_of_int n);
      fill_d (fst r) l'
  end.

(** The state of a nested loop that writes [val i j] into cell [pos i j]
    of [n]-byte cells for [i < rows], [j < cols], once the cells before
    [(i, j)] in row order are written. *)
Definition filled_before (n : nat) (rows cols : Z) (pos : Z -> Z -> Z)
    (val : Z -> Z -> scalar) (r0 : ndarray) (i j : Z) (r : ndarray) : Prop :=
  header r = header r0 /\
  forall i' j', 0 <= i' < rows -> 0 <= j' < cols ->
    i' < i \/ (i' = i /\ j' < j) ->
    load_at n (data r) (pos i' j') = Ok (fit n (val i' j')).

(** The index vector of [ndarray_subsample] holds every row index below
    [d0] exactly once. *)
Definition row_indices (d0 : Z) (v : list Z) : Prop :=
  length v = Z.to_nat d0 /\ NoDup v /\ Forall (fun k => 0 <= k < d0) v.

(** The position an exchange of cells [i] and [j] takes cell [p] from. *)
Definition exchanged (i j p : nat) : nat :=
  if decide (p = j) then i else if decide (p = i) then j else p.

(** The value of a scalar variable after [n] rounds of [s = step k s]
    for [k] from [k0] upwards. *)
Fixpoint accumulate (step : Z -> scalar -> scalar) (n : nat) (k0 : Z)
    (s : scalar) : scalar :=
  match n with
  | O => s
  | S n' => accumulate step n' (k0 + 1) (step k0 s)
  end.

(** Cell [(i, j)] of the product of the [m x inner] matrix [a] and the
    [inner x cols] matrix [b], as [ndarray_dot] computes it: the products
    are added one by one to a [double] that starts at 0.0; for floats
    each product is a [float] product, and the sum is narrowed at the
    end. *)
Definition dot_cell (a b : ndarray) (inner cols i j : Z) : scalar :=
  if is_d a then
    accumulate
      (fun k sum =>
         lift2 IEEE.double_add sum
           (lift2 IEEE.double_mul (elem 8 (data a) (i * inner + k))
              (elem 8 (data b) (k * cols + j))))
      (Z.to_nat inner) 0 (Some IEEE.zero)
  else
    lift1 IEEE.float_of_double
      (accumulate
         (fun k sum =>
            lift2 IEEE.double_add sum
              (lift1 IEEE.double_of_float
                 (lift2 IEEE.float_mul (elem 4 (data a) (i * inner + k))
                    (elem 4 (data b) (k * cols + j)))))
         (Z.to_nat inner) 0 (Some IEEE.zero)).

(** One operand of [ndarray_broadcast_add] at cell [(i, j)], for a
    matrix [x] of shape [x0 x x1]: its element as a [double] inside its
    extent, 0.0 outside. *)
Definition operand_value (x : ndarray) (x0 x1 i j : Z) : scalar :=
  if (i <? x0) && (j <? x1) then
    if is_d x then elem 8 (data x) (i * x1 + j)
    else lift1 IEEE.double_of_float (elem 4 (data x) (i * x1 + j))
  else Some IEEE.zero.

(** Cell [(i, j)] of the zero-padded sum, as [ndarray_broadcast_add]
    computes it: added as [double]s, narrowed for floats. *)
Definition broadcast_cell (a b : ndarray) (a0 a1 b0 b1 i j : Z) : scalar :=
  let sum := lift2 IEEE.double_add (operand_value a a0 a1 i j)
               (operand_value b b0 b1 i j) in
  if is_d a then sum else lift1 IEEE.float_of_double sum.

(** [[1, 2, 3], [4, 5, 6]] and [[7, 8, 9], [10, 11, 12]], 2x3. *)
Definition m23_1_6 : ndarray :=
  {| data := doubles [1; 2; 3; 4; 5; 6]; dimensions := [2; 3];
     strides := [24; 8]; nd := 2; dtype := "d"%char |}.
Definition m23_7_12 : ndarray :=
  {| data := doubles [7; 8; 9; 10; 11; 12]; dimensions := [2; 3];
     strides := [24; 8]; nd := 2; dtype := "d"%char |}.

(** [[1, 2], [3, 4]] and [[5, 6], [7, 8]], 2x2. *)
Definition m22_1_4 : ndarray :=
  {| data := doubles [1; 2; 3; 4]; dimensions := [2; 2];
     strides := [16; 8]; nd := 2; dtype := "d"%char |}.
Definition m22_5_8 : ndarray :=
  {| data := doubles [5; 6; 7; 8]; dimensions := [2; 2];
     strides := [16; 8]; nd := 2; dtype := "d"%char |}.

(** [[1, 2, 3]], 1x3. *)
Definition m13_1_3 : ndarray :=
  {| data := doubles [1; 2; 3]; dimensions := [1; 3];
     strides := [24; 8]; nd := 2; dtype := "d"%char |}.

(** A sequence of random numbers. *)
Definition sample_rand (i : Z) : Z := 7 * i + 3.

(** The row-major position of the element at [idx] in an array of shape
    [dims]. *)
Fixpoint flat_index (dims idx : list Z) : Z :=
  match dims, idx with
  | _ :: ds, x :: xs => x * prod ds + flat_index ds xs
  | _, _ => 0
  end.

(** The bytes of the element [ndarray_get_point] addresses at [idx]. *)
Definition element_bytes (a : ndarray) (idx : list Z) : res (list memval) :=
  do p <- ndarray_get_point a idx;
  Ok (take (Z.to_nat (calculate_type_size (dtype a)))
        (drop (Z.to_nat p) (data a))).

(** The test [ndarray_compare] applies for the operator [op]. *)
Definition comparison (op : ascii) : option (Z -> Z -> bool) :=
  if Ascii.eqb op ">"%char then Some (fun u v => IEEE.double_lt v u)
  else if Ascii.eqb op "<"%char then Some IEEE.double_lt
  else if Ascii.eqb op "="%char then Some IEEE.double_eq
  else None.

(** Element [i] of an operand of [ndarray_compare], as a [double]. *)
Definition operand_as_double (x : ndarray) (i : Z) : scalar :=
  if is_d x then elem 8 (data x) i
  else lift1 IEEE.double_of_float (elem 4 (data x) i).

(** The array [ndarray_create] returns for shape [1, 2] and dtype ['f'],
    and the one for shape [0, 2] and dtype ['d']. *)
Definition fresh_f_1x2 : ndarray :=
  {| data := malloc 8; dimensions := [1; 2]; strides := [8; 4];
     nd := 2; dtype := "f"%char |}.
Definition empty_0x2 : ndarray :=
  {| data := []; dimensions := [0; 2]; strides := [16; 8];
     nd := 2; dtype := "d"%char |}.

(** * The generators, the loader and the test program

    [ndarray_random_noise], [ndarray_random_normal] and
    [ndarray_from_csv] create a matrix and fill it through [array->data];
    [test.c] prints arrays element by element.  What they take from the
    C library is a parameter of the model: the values [rand()] returns
    after [srand(time(NULL))], the constant [RAND_MAX], the functions
    [sqrt], [log] and [cos] of [libm] (on bit patterns of [double]s), and
    the conversions [fscanf] performs on the file.  What they write to
    the standard streams is a list of events.  [double] expressions are
    evaluated operation by operation, each rounded to [double]. *)

(** ** Output *)

(** An argument of a [printf] call. *)
Inductive arg : Type :=
  | Double (v : scalar)
  | ULL (v : Z)
  | Str (s : string).

(** A call of [printf] with its format and arguments, or of [perror]. *)
Inductive event : Type :=
  | Printf (format : string) (args : list arg)
  | Perror (s : string).

(** ** Arithmetic of the generators *)

(** The constant [M_PI] of [math.h] as a [double]. *)
Definition M_PI : Z := 4614256656552045848.

Section Generators.
(** [RAND_MAX], and the value of the [k]-th call of [rand()]. *)
Variable RAND_MAX : Z.
Variable rand : Z -> Z.
(** [sqrt], [log] and [cos]. *)
Variables sqrt log cos : Z -> Z.

(** [(double)rand() / RAND_MAX] for the [k]-th call of [rand()]. *)
Definition uniform (k : Z) : Z :=
  IEEE.double_div (double_of_int (rand k)) (double_of_int RAND_MAX).

(** [(double)rand() / RAND_MAX * noise_std * 2 - noise_std] *)
Definition noise (k : Z) (noise_std : Z) : Z :=
  IEEE.double_sub
    (IEEE.double_mul (IEEE.double_mul (uniform k) noise_std) (double_of_int 2))
    noise_std.

Definition ndarray_random_noise (n_samples n_features mean noise_std : Z)
    (dtype : ascii) : res (option ndarray) :=
  do r <- ndarray_create [n_samples; n_features] 2 dtype;
  match r with
  | None => Ok None
  | Some array =>
      do filled <- for_up (Z.to_nat (wrap64 (n_samples * n_features))) 0
                     (fun i arr =>
                        let noise := noise i noise_std in
                        if Ascii.eqb dtype "d"%char then
                          store_elem 8 arr i
                            (Some (IEEE.double_add mean noise))
                        else if Ascii.eqb dtype "f"%char then
                          store_elem 4 arr i
                            (Some (IEEE.float_of_double
                                     (IEEE.double_add mean noise)))
                        else Ok arr)
                     array;
      Ok (Some filled)
  end.

(** [sqrt(-2.0 * log(u1)) * cos(2.0 * M_PI * u2)], the Box-Muller
    transform of the draws [u1] and [u2]. *)
Definition box_muller (u1 u2 : Z) : Z :=
  IEEE.double_mul
    (sqrt (IEEE.double_mul (double_of_int (-2)) (log u1)))
    (cos (IEEE.double_mul (IEEE.double_mul (double_of_int 2) M_PI) u2)).

(** [mean + std * z] for element [i], which takes the draws [2 i] and
    [2 i + 1]. *)
Definition normal_value (mean std : Z) (i : Z) : Z :=
  IEEE.double_add mean
    (IEEE.double_mul std
       (box_muller (uniform (2 * i)) (uniform (2 * i + 1)))).

(** [ndarray_random_normal], with the events it appends to [stdout]:
    every double it stores is printed with ["%.3f "]. *)
Definition ndarray_random_normal (n_samples n_features mean std : Z)
    (dtype : ascii) (out : list event) : res (option ndarray * list event) :=
  do r <- ndarray_create [n_samples; n_features] 2 dtype;
  match r with
  | None => Ok (None, out)
  | Some array =>
      do st <- for_up (Z.to_nat (wrap64 (n_samples * n_features))) 0
                 (fun i '(arr, out) =>
                    let value := normal_value mean std i in
                    if Ascii.eqb dtype "d"%char then
                      do arr' <- store_elem 8 arr i (Some value);
                      do v <- load_at 8 (data arr') i;
                      Ok (arr', out ++ [Printf "%.3f " [Double v]])
                    else if Ascii.eqb dtype "f"%char then
                      do arr' <- store_elem 4 arr i
                                   (Some (IEEE.float_of_double value));
                      Ok (arr', out)
                    else Ok (arr, out))
                 (array, out);
      Ok (Some (fst st), snd st)
  end.

End Generators.

(** The value of a variable after the rounds [i, i + 1, ..., i + n - 1]
    of a loop that updates it by [g]. *)
Fixpoint advance {A : Type} (g : Z -> A -> A) (n : nat) (i : Z) (a : A) : A :=
  match n with
  | O => a
  | S n' => advance g n' (i + 1) (g i a)
  end.

(** ** The loader *)

(** [(T* )r->data + i] for an [n]-byte type [T]: a pointer to cell [i] of
    the buffer, or one past its end. *)
Definition elem_ptr (n : nat) (r : ndarray) (i : Z) : res Z :=
  if (0 <=? i) && (i * Z.of_nat n <=? Z.of_nat (length (data r)))
  then Ok i else Fault.

Section Loader.
(** The state of an open [FILE*]. *)
Variable stream : Type.
(** [fscanf(file, "%llu,%llu", &n_samples, &n_features)]: the values
    assigned to the two variables, if any, and the stream afterwards. *)
Variable scan_shape : stream -> (option Z * option Z) * stream.
(** [fscanf(file, "%lf", p)] and [fscanf(file, "%f", p)]: the value
    assigned to [*p], if any, and the stream afterwards. *)
Variable scan_double : stream -> option Z * stream.
Variable scan_float : stream -> option Z * stream.
(** What [n_samples] and [n_features] hold when [fscanf] assigns nothing
    to them (they are not initialised). *)
Variables junk_samples junk_features : Z.

(** [fscanf(file, format, (T* )array->data + i * n_features + j)] *)
Definition scan_element (n : nat) (scan : stream -> option Z * stream)
    (n_features i j : Z) (arr : ndarray) (f : stream)
  : res (ndarray * stream) :=
  do p0 <- elem_ptr n arr (wrap64 (i * n_features));
  do p <- elem_ptr n arr (p0 + j);
  let '(v, f') := scan f in
  match v with
  | Some x => do arr' <- store_elem n arr p (Some x); Ok (arr', f')
  | None => Ok (arr, f')
  end.

(** [ndarray_from_csv]; [file] is what [fopen(filename, "r")] returns.
    The second component is what the call writes to [stderr]. *)
Definition ndarray_from_csv (file : option stream) (dtype : ascii)
  : res (option ndarray * list event) :=
  match file with
  | None => Ok (None, [Perror "Failed to open file"])
  | Some f =>
      let '((s, t), f1) := scan_shape f in
      let n_samples := default junk_samples s in
      let n_features := default junk_features t in
      do r <- ndarray_create [n_samples; n_features] 2 dtype;
      match r with
      | None => Ok (None, [])
      | Some array =>
          do st <- for_up (Z.to_nat n_samples) 0
                     (fun i st1 =>
                        for_up (Z.to_nat n_features) 0
                          (fun j '(arr, f) =>
                             if Ascii.eqb dtype "d"%char then
                               scan_element 8 scan_double n_features i j arr f
                             else if Ascii.eqb dtype "f"%char then
                               scan_element 4 scan_float n_features i j arr f
                             else Ok (arr, f))
                          st1)
                     (array, f1);
          Ok (Some (fst st), [])
      end
  end.

End Loader.

(** The [k]-th value one of the two element conversions assigns, when
    the calls start on the stream [f]. *)
Definition scanned {stream : Type} (scan : stream -> option Z * stream)
    (f : stream) (k : Z) : scalar :=
  fst (scan (advance (fun _ s => snd (scan s)) (Z.to_nat k) 0 f)).

(** A file given as the list of the values its conversions assign, the
    shape first. *)
Definition next_value (s : list Z) : option Z * list Z :=
  match s with
  | x :: s' => (Some x, s')
  | [] => (None, [])
  end.
Definition next_shape (s : list Z) : (option Z * option Z) * list Z :=
  match s with
  | x :: y :: s' => ((Some x, Some y), s')
  | [x] => ((Some x, None), [])
  | [] => ((None, None), [])
  end.

(** ** The test program ([test.c]) *)

Definition newline : string := String "010"%char EmptyString.

(** The formats of [print_ndarray]: ["[\n    "], ["%.3f "], ["]\n"]. *)
Definition row_open : string := "[" +:+ newline +:+ "    ".
Definition row_close : string := "]" +:+ newline.

(** The number of rounds a loop [for (uint32_t i = 0; i < bound; i++)]
    with a [uint64_t] bound makes before its counter wraps around. *)
Definition rounds_u32 (bound : Z) : Z :=
  if bound <? two32 then bound else two32.

(** [print_ndarray].  The two counters are [uint32_t] and the extents
    [uint64_t]: a loop whose extent is 2^32 or more does not end.  The
    array is not written, so every pass over the counter's values acts
    as the first one. *)
Definition print_ndarray (arr : ndarray) (out : list event)
  : res (termination (list event)) :=
  do d0 <- dim arr 0;
  do st <- for_up (Z.to_nat (rounds_u32 d0)) 0
             (fun i (st : termination (list event)) =>
                match st with
                | Forever => Ok Forever
                | Returns out =>
                    let out := out ++ [Printf row_open []] in
                    do d1 <- dim arr 1;
                    do out <- for_up (Z.to_nat (rounds_u32 d1)) 0
                                (fun j out =>
                                   do p <- ndarray_get_point arr [i; j];
                                   do v <- load 8 (data arr) p;
                                   Ok (out ++ [Printf "%.3f " [Double v]]))
                                out;
                    if d1 <? two32
                    then Ok (Returns (out ++ [Printf row_close []]))
                    else Ok Forever
                end)
             (Returns out);
  match st with
  | Forever => Ok Forever
  | Returns out =>
      if d0 <? two32
      then Ok (Returns (out ++ [Printf row_close []]))
      else Ok Forever
  end.

(** The bit pattern of the [double] nearest to 88888.12345. *)
Definition point_88888 : Z := 4680844758542103819.

Section TestProgram.
Variable RAND_MAX : Z.
(** The values of [rand()] after the [srand] of [ndarray_random_normal],
    and after the one of [ndarray_subsample]. *)
Variables rand_normal rand_subsample : Z -> Z.
Variables sqrt log cos : Z -> Z.

(** Dereferencing the result of a library call that returned [NULL]. *)
Definition deref {A : Type} (r : option A) : res A :=
  match r with
  | Some a => Ok a
  | None => Fault
  end.

(** [main] of [test.c]: the value returned and what is printed.  The
    calls of [ndarray_free] at the end change nothing that is
    observed. *)
Definition main : res (termination (Z * list event)) :=
  do r <- ndarray_create [2; 3] 2 "d"%char;
  do arr <- deref r;
  let out := [Printf "Created array with shape: [" []] in
  do out <- for_up (Z.to_nat (nd arr)) 0
              (fun i out =>
                 do d <- dim arr i;
                 Ok (out ++ [Printf "%llu%s"
                               [ULL d;
                                Str (if i <? wrap32 (nd arr - 1)
                                     then ", " else "")]]))
              out;
  let out := out ++ [Printf row_close []] in
  do (r, out) <- ndarray_random_normal RAND_MAX rand_normal sqrt log cos
                   3 4 (double_of_int 2) (double_of_int 1) "d"%char out;
  do rand_arr <- deref r;
  do size <- ndarray_size rand_arr;
  let out := out ++ [Printf ("Random array size: %llu" +:+ newline)
                       [ULL size]] in
  let out := out ++ [Printf ("[" +:+ newline +:+ "  ") []] in
  do p <- ndarray_get_point rand_arr [0; 0];
  do v <- load 8 (data rand_arr) p;
  let out := out ++ [Printf ("====> bf: %.3f " +:+ newline) [Double v]] in
  do (rand_arr, _) <- ndarray_set_point rand_arr [0; 0]
                        (encode 8 (Some point_88888));
  do p <- ndarray_get_point rand_arr [0; 0];
  do v <- load 8 (data rand_arr) p;
  let out := out ++ [Printf ("====> af: %.3f " +:+ newline) [Double v]] in
  do t <- print_ndarray rand_arr out;
  match t with
  | Forever => Ok Forever
  | Returns out =>
      let out := out ++ [Printf ("test transpose:" +:+ newline) []] in
      do r <- ndarray_transpose rand_arr;
      do transposed <- deref r;
      do d0 <- dim transposed 0;
      do d1 <- dim transposed 1;
      let out := out ++ [Printf ("Transposed shape: [%llu, %llu]" +:+ newline)
                           [ULL d0; ULL d1]] in
      do t <- print_ndarray transposed out;
      match t with
      | Forever => Ok Forever
      | Returns out =>
          let out := out ++ [Printf ("test subsample:" +:+ newline) []] in
          do r <- ndarray_subsample rand_subsample transposed 2;
          do subsample <- deref r;
          do t <- print_ndarray subsample out;
          match t with
          | Forever => Ok Forever
          | Returns out => Ok (Returns (0, out))
          end
      end
  end.

End TestProgram.

(** What [print_ndarray] prints for a [rows x cols] matrix whose
    element [(i, j)] is [cell i j]. *)
Definition printed_matrix (rows cols : Z) (cell : Z -> Z -> scalar)
  : list event :=
  flat_map
    (fun i =>
       Printf row_open []
       :: map (fun j => Printf "%.3f " [Double (cell i j)]) (seqZ 0 cols)
       ++ [Printf row_close []])
    (seqZ 0 rows)
  ++ [Printf row_close []].

(** The array [ndarray_create] returns for shape [2^32, 0] and dtype
    ['d']: it has no element. *)
Definition rows_2p32x0 : ndarray :=
  {| data := malloc 0; dimensions := [4294967296; 0]; strides := [0; 8];
     nd := 2; dtype := "d"%char |}.

(** * Reasoning principles *)

(** ** Machine integers *)

Lemma wrap64_range x : 0 <= wrap64 x < two64.
Proof. unfold wrap64, two64. apply Z.mod_pos_bound. lia. Qed.

Lemma wrap64_small x : 0 <= x < two64 -> wrap64 x = x.
Proof. intros H. unfold wrap64. apply Z.mod_small. exact H. Qed.

Lemma wrap64_idem x : wrap64 (wrap64 x) = wrap64 x.
Proof. apply wrap64_small, wrap64_range. Qed.

Lemma wrap64_mul_l x y : wrap64 (wrap64 x * y) = wrap64 (x * y).
Proof. unfold wrap64. apply Z.mul_mod_idemp_l. unfold two64. lia. Qed.

Lemma wrap64_mul_r x y : wrap64 (x * wrap64 y) = wrap64 (x * y).
Proof. unfold wrap64. apply Z.mul_mod_idemp_r. unfold two64. lia. Qed.

Lemma wrap64_add_l x y : wrap64 (wrap64 x + y) = wrap64 (x + y).
Proof. unfold wrap64. apply Z.add_mod_idemp_l. unfold two64. lia. Qed.

Lemma wrap64_add_r x y : wrap64 (x + wrap64 y) = wrap64 (x + y).
Proof. unfold wrap64. apply Z.add_mod_idemp_r. unfold two64. lia. Qed.

(** ** Floating point

    The bit-level arithmetic agrees with the hardware on familiar values:
    1.0, 1.0 + 5.0 = 6.0, the inexact 0.1 + 0.2, 0.1 * 0.2 and 0.1 - 0.2
    (round to nearest even), the narrowing of 0.1 to [float] and its
    widening back, single precision 1.5 * 2.5 = 3.75, and the
    comparisons. *)

Lemma ieee_known_values :
  double_of_int 1 = 4607182418800017408 /\
  IEEE.double_add 4607182418800017408 4617315517961601024
    = 4618441417868443648 /\
  IEEE.double_add 4591870180066957722 4596373779694328218
    = 4599075939470750516 /\
  IEEE.double_mul 4591870180066957722 4596373779694328218
    = 4581421828931458172 /\
  IEEE.double_sub 4591870180066957722 4596373779694328218
    = 13815242216921733530 /\
  IEEE.float_of_double 4591870180066957722 = 1036831949 /\
  IEEE.double_of_float 1036831949 = 4591870180174331904 /\
  IEEE.float_mul 1069547520 1075838976 = 1081081856 /\
  IEEE.double_lt 4607182418800017408 4617315517961601024 = true /\
  IEEE.double_lt 4617315517961601024 4607182418800017408 = false /\
  IEEE.double_eq 0 9223372036854775808 = true.
Proof. vm_compute. repeat split; reflexivity. Qed.

(** ** Outcomes and loops *)

Lemma bind_Ok {A B : Type} (m : res A) (k : A -> res B) (b : B) :
  bind m k = Ok b -> exists a, m = Ok a /\ k a = Ok b.
Proof. destruct m as [a|]; simpl; [eauto | discriminate]. Qed.

Ltac inv_bind H :=
  let x := fresh "x" in
  let Hx := fresh "Hx" in
  apply bind_Ok in H; destruct H as (x & Hx & H).

Section Loops.
Context {St : Type}.

(** Hoare rule for an ascending loop whose body cannot fault under the
    invariant: the loop returns, and the invariant holds at the exit. *)
Lemma for_up_total (P : Z -> St -> Prop) (body : Z -> St -> res St) :
  forall (n : nat) (i : Z) (s : St),
    P i s ->
    (forall k t, i <= k < i + Z.of_nat n -> P k t ->
                 exists t', body k t = Ok t' /\ P (k + 1) t') ->
    exists s', for_up n i body s = Ok s' /\ P (i + Z.of_nat n) s'.
Proof.
  induction n as [|n IH]; intros i s Hs Hbody; simpl.
  - exists s. split; [reflexivity|]. replace (i + Z.of_nat 0) with i by lia. exact Hs.
  - destruct (Hbody i s) as (t & Ht & HPt); [lia | exact Hs |].
    rewrite Ht. simpl.
    destruct (IH (i + 1) t HPt) as (s' & Hs' & HP').
    + intros k u Hk Hu. apply Hbody; [lia | exact Hu].
    + exists s'. split; [exact Hs'|].
      replace (i + Z.of_nat (S n)) with (i + 1 + Z.of_nat n) by lia. exact HP'.
Qed.

(** Partial-correctness rule: whatever the loop returns satisfies the
    invariant. *)
Lemma for_up_inv (P : Z -> St -> Prop) (body : Z -> St -> res St) :
  forall (n : nat) (i : Z) (s s' : St),
    P i s ->
    (forall k t t', i <= k < i + Z.of_nat n -> P k t -> body k t = Ok t' ->
                    P (k + 1) t') ->
    for_up n i body s = Ok s' ->
    P (i + Z.of_nat n) s'.
Proof.
  induction n as [|n IH]; intros i s s' Hs Hbody Hrun; simpl in Hrun.
  - injection Hrun as <-. replace (i + Z.of_nat 0) with i by lia. exact Hs.
  - inv_bind Hrun.
    replace (i + Z.of_nat (S n)) with (i + 1 + Z.of_nat n) by lia.
    apply (IH (i + 1) x s').
    + apply (Hbody i s x); [lia | exact Hs | exact Hx].
    + intros k t t' Hk. apply Hbody. lia.
    + exact Hrun.
Qed.

(** A property of the state that every iteration keeps is kept by the
    loop. *)
Lemma for_up_keeps (Q : St -> Prop) (body : Z -> St -> res St) :
  forall (n : nat) (i : Z) (s s' : St),
    Q s ->
    (forall k t t', Q t -> body k t = Ok t' -> Q t') ->
    for_up n i body s = Ok s' ->
    Q s'.
Proof.
  intros n i s s' Hs Hbody Hrun.
  apply (for_up_inv (fun _ => Q) body n i s s'); eauto.
Qed.

Lemma for_up_body_ext (f g : Z -> St -> res St) :
  forall (n : nat) (i : Z) (s : St),
    (forall k t, i <= k < i + Z.of_nat n -> f k t = g k t) ->
    for_up n i f s = for_up n i g s.
Proof.
  induction n as [|n IH]; intros i s H; simpl; [reflexivity|].
  rewrite (H i s) by lia.
  destruct (g i s) as [t|]; simpl; [|reflexivity].
  apply IH. intros k u Hk. apply H. lia.
Qed.

(** A loop whose body does nothing returns its state. *)
Lemma for_up_skip (body : Z -> St -> res St) :
  forall (n : nat) (i : Z) (s : St),
    (forall k t, body k t = Ok t) -> for_up n i body s = Ok s.
Proof.
  induction n as [|n IH]; intros i s H; simpl; [reflexivity|].
  rewrite H. simpl. apply IH, H.
Qed.

(** Hoare rule for the descending loop. *)
Lemma for_down_total (P : Z -> St -> Prop) (body : Z -> St -> res St) :
  forall (n : nat) (s : St),
    P (Z.of_nat n) s ->
    (forall k t, 0 <= k < Z.of_nat n -> P (k + 1) t ->
                 exists t', body k t = Ok t' /\ P k t') ->
    exists s', for_down n body s = Ok s' /\ P 0 s'.
Proof.
  induction n as [|n IH]; intros s Hs Hbody; simpl.
  - exists s. split; [reflexivity | exact Hs].
  - destruct (Hbody (Z.of_nat n) s) as (t & Ht & HPt); [lia | |].
    + replace (Z.of_nat n + 1) with (Z.of_nat (S n)) by lia. exact Hs.
    + rewrite Ht. simpl. apply IH; [exact HPt|].
      intros k u Hk. apply Hbody. lia.
Qed.

End Loops.

Lemma all_up_true (check : Z -> res bool) :
  forall (n : nat) (i : Z),
    (forall k, i <= k < i + Z.of_nat n -> check k = Ok true) ->
    all_up n i check = Ok true.
Proof.
  induction n as [|n IH]; intros i H; simpl; [reflexivity|].
  rewrite H by lia. simpl. apply IH. intros k Hk. apply H. lia.
Qed.

(** ** Index vectors *)

Lemma rd_Ok (v : list Z) (i x : Z) :
  rd v i = Ok x <-> 0 <= i /\ v !! Z.to_nat i = Some x.
Proof.
  unfold rd. destruct (Z.ltb_spec i 0).
  - split; [discriminate | lia].
  - destruct (v !! Z.to_nat i) as [y|]; split.
    + intros [= ->]. auto.
    + intros [_ [= ->]]. reflexivity.
    + discriminate.
    + intros [_ [=]].
Qed.

Lemma rd_lookup (v : list Z) (i : nat) (x : Z) :
  v !! i = Some x -> rd v (Z.of_nat i) = Ok x.
Proof. intros H. apply rd_Ok. rewrite Nat2Z.id. split; [lia | exact H]. Qed.

Lemma wr_Ok (v : list Z) (i x : Z) :
  0 <= i < Z.of_nat (length v) -> wr v i x = Ok (<[Z.to_nat i := x]> v).
Proof.
  intros H. unfold wr.
  destruct (Z.leb_spec 0 i); [|lia].
  destruct (Z.ltb_spec i (Z.of_nat (length v))); [|lia]. reflexivity.
Qed.

Lemma wr_inv (v v' : list Z) (i x : Z) :
  wr v i x = Ok v' ->
  0 <= i < Z.of_nat (length v) /\ v' = <[Z.to_nat i := x]> v.
Proof.
  unfold wr.
  destruct (Z.leb_spec 0 i); simpl; [|discriminate].
  destruct (Z.ltb_spec i (Z.of_nat (length v))); [|discriminate].
  intros [= <-]. split; [lia | reflexivity].
Qed.

(** ** Byte buffers *)

Lemma Z_of_byte_range (b : byte) : 0 <= Z_of_byte b < 256.
Proof.
  unfold Z_of_byte. pose proof (Byte.to_N_bounded b). lia.
Qed.

Lemma Z_of_byte_of_Z (x : Z) : Z_of_byte (byte_of_Z x) = x mod 256.
Proof.
  unfold byte_of_Z, Z_of_byte.
  pose proof (Z.mod_pos_bound x 256 ltac:(lia)) as Hr.
  destruct (Byte.of_N (Z.to_N (x mod 256))) as [b|] eqn:E.
  - apply Byte.to_of_N in E. rewrite E. lia.
  - apply Byte.of_N_None_iff in E. lia.
Qed.

Lemma byte_of_Z_of_byte (b : byte) : byte_of_Z (Z_of_byte b) = b.
Proof.
  unfold byte_of_Z. rewrite Z.mod_small by apply Z_of_byte_range.
  unfold Z_of_byte. rewrite N2Z.id, Byte.of_to_N. reflexivity.
Qed.

Lemma int_of_bytes_of_int (n : nat) :
  forall x, int_of_bytes (bytes_of_int n x) = x mod 256 ^ Z.of_nat n.
Proof.
  induction n as [|n IH]; intros x; simpl bytes_of_int; simpl int_of_bytes.
  - simpl. symmetry. apply Z.mod_1_r.
  - rewrite IH, Z_of_byte_of_Z.
    replace (256 ^ Z.of_nat (S n)) with (256 * 256 ^ Z.of_nat n).
    + symmetry. apply Z.rem_mul_r; lia.
    + rewrite Nat2Z.inj_succ, Z.pow_succ_r by lia. reflexivity.
Qed.

Lemma length_bytes_of_int (n : nat) : forall x, length (bytes_of_int n x) = n.
Proof. induction n as [|n IH]; intros x; simpl; [|rewrite IH]; reflexivity. Qed.

Lemma int_of_bytes_range (l : list byte) :
  0 <= int_of_bytes l < 256 ^ Z.of_nat (length l).
Proof.
  induction l as [|b l IH]; [simpl; lia|].
  simpl int_of_bytes. simpl length.
  rewrite Nat2Z.inj_succ, Z.pow_succ_r by lia.
  pose proof (Z_of_byte_range b). lia.
Qed.

Lemma defined_bytes_Byte (l : list byte) : defined_bytes (map Byte l) = Some l.
Proof. induction l as [|b l IH]; simpl; [|rewrite IH]; reflexivity. Qed.

Lemma defined_bytes_Undef (n : nat) :
  (0 < n)%nat -> defined_bytes (replicate n Undef) = None.
Proof. destruct n; [lia | reflexivity]. Qed.

Lemma length_encode (n : nat) (v : scalar) : length (encode n v) = n.
Proof.
  destruct v as [x|]; simpl.
  - rewrite length_map. apply length_bytes_of_int.
  - apply length_replicate.
Qed.

Lemma decode_encode (n : nat) (v : scalar) :
  (0 < n)%nat -> decode (encode n v) = fit n v.
Proof.
  intros Hn. unfold decode. destruct v as [x|]; simpl.
  - rewrite defined_bytes_Byte, int_of_bytes_of_int. reflexivity.
  - rewrite defined_bytes_Undef by exact Hn. reflexivity.
Qed.

Lemma fit_small (n : nat) (x : Z) :
  0 <= x < 256 ^ Z.of_nat n -> fit n (Some x) = Some x.
Proof. intros H. simpl. rewrite Z.mod_small by exact H. reflexivity. Qed.

Lemma in_bounds_dec (ofs : Z) (n len : nat) :
  (0 <=? ofs) && (ofs + Z.of_nat n <=? Z.of_nat len) = true
  <-> 0 <= ofs /\ ofs + Z.of_nat n <= Z.of_nat len.
Proof. rewrite andb_true_iff, Z.leb_le, Z.leb_le. reflexivity. Qed.

Lemma load_Ok (n : nat) (m : list memval) (ofs : Z) :
  0 <= ofs -> ofs + Z.of_nat n <= Z.of_nat (length m) ->
  load n m ofs = Ok (decode (take n (drop (Z.to_nat ofs) m))).
Proof.
  intros H1 H2. unfold load.
  destruct (_ && _) eqn:E; [reflexivity|].
  apply not_true_iff_false in E. rewrite in_bounds_dec in E. tauto.
Qed.

Lemma load_inv (n : nat) (m : list memval) (ofs : Z) (v : scalar) :
  load n m ofs = Ok v ->
  0 <= ofs /\ ofs + Z.of_nat n <= Z.of_nat (length m).
Proof.
  unfold load. destruct (_ && _) eqn:E; [|discriminate].
  intros _. apply in_bounds_dec. exact E.
Qed.

Lemma store_Ok (n : nat) (m : list memval) (ofs : Z) (v : scalar) :
  0 <= ofs -> ofs + Z.of_nat n <= Z.of_nat (length m) ->
  store n m ofs v
  = Ok (take (Z.to_nat ofs) m ++ encode n v ++ drop (Z.to_nat ofs + n) m).
Proof.
  intros H1 H2. unfold store.
  destruct (_ && _) eqn:E; [reflexivity|].
  apply not_true_iff_false in E. rewrite in_bounds_dec in E. tauto.
Qed.

Lemma store_inv (n : nat) (m m' : list memval) (ofs : Z) (v : scalar) :
  store n m ofs v = Ok m' ->
  0 <= ofs /\ ofs + Z.of_nat n <= Z.of_nat (length m) /\
  m' = take (Z.to_nat ofs) m ++ encode n v ++ drop (Z.to_nat ofs + n) m.
Proof.
  unfold store. destruct (_ && _) eqn:E; [|discriminate].
  apply in_bounds_dec in E. intros [= <-]. tauto.
Qed.

Lemma store_length (n : nat) (m m' : list memval) (ofs : Z) (v : scalar) :
  store n m ofs v = Ok m' -> length m' = length m.
Proof.
  intros H. apply store_inv in H. destruct H as (H1 & H2 & ->).
  rewrite !length_app, length_take, length_encode, length_drop. lia.
Qed.

(** A byte outside the stored cell is unchanged. *)
Lemma store_lookup_other (n : nat) (m m' : list memval) (ofs : Z) (v : scalar)
    (j : nat) :
  store n m ofs v = Ok m' ->
  (j < Z.to_nat ofs \/ Z.to_nat ofs + n <= j)%nat ->
  m' !! j = m !! j.
Proof.
  intros H Hj. apply store_inv in H. destruct H as (H1 & H2 & ->).
  assert (Hlt : length (take (Z.to_nat ofs) m) = Z.to_nat ofs)
    by (rewrite length_take; lia).
  destruct Hj as [Hj|Hj].
  - rewrite lookup_app_l by lia. apply lookup_take_lt. exact Hj.
  - rewrite lookup_app_r by lia. rewrite Hlt.
    rewrite lookup_app_r by (rewrite length_encode; lia).
    rewrite length_encode, lookup_drop. f_equal. lia.
Qed.

Lemma load_store_same (n : nat) (m m' : list memval) (ofs : Z) (v : scalar) :
  (0 < n)%nat ->
  store n m ofs v = Ok m' -> load n m' ofs = Ok (fit n v).
Proof.
  intros Hn H. pose proof (store_length _ _ _ _ _ H) as Hlen.
  apply store_inv in H. destruct H as (H1 & H2 & ->).
  rewrite load_Ok by lia. f_equal.
  rewrite drop_app_length' by (rewrite length_take; lia).
  rewrite take_app_length' by (rewrite length_encode; reflexivity).
  apply decode_encode. exact Hn.
Qed.

Lemma load_store_other (n n' : nat) (m m' : list memval) (ofs ofs' : Z)
    (v : scalar) :
  store n m ofs v = Ok m' ->
  ofs' + Z.of_nat n' <= ofs \/ ofs + Z.of_nat n <= ofs' ->
  load n' m' ofs' = load n' m ofs'.
Proof.
  intros H Hdisj. pose proof (store_length _ _ _ _ _ H) as Hlen.
  pose proof (store_inv _ _ _ _ _ H) as (H1 & H2 & _).
  unfold load. rewrite Hlen.
  destruct (_ && _) eqn:E; [|reflexivity].
  apply in_bounds_dec in E. do 2 f_equal.
  apply list_eq. intros i.
  destruct (decide (i < n')%nat) as [Hi|Hi].
  - rewrite !lookup_take_lt by exact Hi. rewrite !lookup_drop.
    apply (store_lookup_other _ _ _ _ _ _ H). lia.
  - rewrite !lookup_take_ge by lia. reflexivity.
Qed.

(** ** Creation *)

Lemma prod_app (l k : list Z) : prod (l ++ k) = prod l * prod k.
Proof.
  unfold prod. induction l as [|x l IH]; simpl; [ring|].
  rewrite IH. ring.
Qed.

Lemma prod_take_S (l : list Z) (i : nat) (x : Z) :
  l !! i = Some x -> prod (take (S i) l) = prod (take i l) * x.
Proof.
  intros H. rewrite (take_S_r _ _ _ H), prod_app. simpl. ring.
Qed.

Lemma prod_drop (l : list Z) (i : nat) (x : Z) :
  l !! i = Some x -> prod (drop i l) = x * prod (drop (S i) l).
Proof. intros H. rewrite (drop_S _ _ _ H). reflexivity. Qed.

Lemma calculate_type_size_range (c : ascii) : 0 <= calculate_type_size c <= 8.
Proof.
  unfold calculate_type_size.
  repeat (destruct (Ascii.eqb _ _); [lia|]).
  destruct (Z.ltb_spec (size_t_of_char c) 8); [|lia].
  unfold size_t_of_char in *.
  destruct (Z.ltb_spec (Z.of_N (N_of_ascii c)) 128); [lia|].
  pose proof (wrap64_range (Z.of_N (N_of_ascii c) - 256)). lia.
Qed.

Lemma calculate_size_spec (dims : list Z) (n : Z) :
  0 <= n <= Z.of_nat (length dims) ->
  calculate_size dims n = Ok (wrap64 (prod (take (Z.to_nat n) dims))).
Proof.
  intros Hn. unfold calculate_size.
  destruct (for_up_total
              (fun i size => 0 <= i /\ size = wrap64 (prod (take (Z.to_nat i) dims)))
              (fun i size => do d <- rd dims i; Ok (wrap64 (size * d)))
              (Z.to_nat n) 0 1) as (s & Hs & _ & ->).
  - split; [lia | reflexivity].
  - intros k t Hk [Hk0 ->].
    destruct (lookup_lt_is_Some_2 dims (Z.to_nat k)) as [d Hd]; [lia|].
    exists (wrap64 (wrap64 (prod (take (Z.to_nat k) dims)) * d)). split.
    + replace k with (Z.of_nat (Z.to_nat k)) at 1 by lia.
      rewrite (rd_lookup _ _ _ Hd). reflexivity.
    + split; [lia|].
      replace (Z.to_nat (k + 1)) with (S (Z.to_nat k)) by lia.
      rewrite (prod_take_S _ _ _ Hd). apply wrap64_mul_l.
  - rewrite Hs.
    replace (Z.to_nat (0 + Z.of_nat (Z.to_nat n))) with (Z.to_nat n) by lia.
    reflexivity.
Qed.

Lemma stride_loop_count (n : Z) :
  rank_fits_int n ->
  wrap32 (n - 1) = n - 1 /\ to_int32 (wrap32 (n - 2)) + 1 = n - 1.
Proof.
  intros [H1 H2]. unfold wrap32, to_int32, two32. split.
  - apply Z.mod_small. lia.
  - destruct (Z.eq_dec n 1) as [->|Hne]; [reflexivity|].
    rewrite Z.mod_small by lia.
    destruct (Z.ltb_spec (n - 2) 2147483648); lia.
Qed.

(** What [ndarray_create] returns: it cannot fault on a rank that the
    caller's shape vector covers, and the header it builds is the
    row-major one. *)
Lemma ndarray_create_spec (dims : list Z) (n : Z) (dt : ascii) :
  rank_fits_int n -> n <= Z.of_nat (length dims) ->
  exists a,
    ndarray_create dims n dt = Ok (Some a) /\
    dimensions a = take (Z.to_nat n) dims /\
    nd a = n /\ dtype a = dt /\
    length (strides a) = Z.to_nat n /\
    (forall i, (i < Z.to_nat n)%nat ->
               strides a !! i
               = Some (row_major (calculate_type_size dt) (dimensions a) i)) /\
    data a = malloc (wrap64 (wrap64 (prod (dimensions a)) * calculate_type_size dt)).
Proof.
  intros Hfit Hlen.
  destruct (stride_loop_count n Hfit) as [Hw1 Hw2].
  destruct Hfit as [Hn1 Hn2].
  set (ts := calculate_type_size dt).
  set (ds := take (Z.to_nat n) dims).
  assert (Hds : length ds = Z.to_nat n) by (unfold ds; rewrite length_take; lia).
  unfold ndarray_create, copy_cells.
  destruct (Z.ltb_spec (Z.of_nat (length dims)) n) as [?|_]; [lia|].
  simpl bind. fold ds. rewrite Hw1, Hw2.
  rewrite wr_Ok by (unfold fresh_vector; rewrite length_replicate; lia).
  simpl bind.
  set (body := fun (i : Z) (st : list Z) =>
                 do s <- rd st (i + 1); do d <- rd ds (i + 1); wr st i (wrap64 (s * d))).
  destruct (for_down_total
              (fun k st => length st = Z.to_nat n /\
                           forall j, (Z.to_nat k <= j < Z.to_nat n)%nat ->
                                     st !! j = Some (row_major ts ds j))
              body (Z.to_nat (n - 1))
              (<[Z.to_nat (n - 1) := ts]> (fresh_vector n)))
    as (st & Hst & Hlst & Hcells).
  - split.
    + rewrite length_insert. unfold fresh_vector. apply length_replicate.
    + intros j Hj. replace j with (Z.to_nat (n - 1)) by lia.
      rewrite list_lookup_insert_eq
        by (unfold fresh_vector; rewrite length_replicate; lia).
      f_equal. unfold row_major.
      rewrite drop_ge by lia. simpl.
      rewrite Z.mul_1_r. symmetry. apply wrap64_small.
      pose proof (calculate_type_size_range dt). unfold two64. fold ts in H. lia.
  - intros k t Hk [Hlt Hc].
    assert (Hs : t !! S (Z.to_nat k) = Some (row_major ts ds (S (Z.to_nat k))))
      by (apply Hc; lia).
    destruct (lookup_lt_is_Some_2 ds (S (Z.to_nat k))) as [d Hd]; [lia|].
    exists (<[Z.to_nat k := wrap64 (row_major ts ds (S (Z.to_nat k)) * d)]> t).
    split.
    + unfold body.
      replace (k + 1) with (Z.of_nat (S (Z.to_nat k))) by lia.
      rewrite (rd_lookup _ _ _ Hs), (rd_lookup _ _ _ Hd). simpl bind.
      apply wr_Ok. lia.
    + split; [rewrite length_insert; exact Hlt|].
      intros j Hj. destruct (decide (j = Z.to_nat k)) as [->|Hne].
      * rewrite list_lookup_insert_eq by lia. f_equal.
        unfold row_major. rewrite wrap64_mul_l.
        rewrite (prod_drop ds (S (Z.to_nat k)) d Hd). f_equal. ring.
      * rewrite list_lookup_insert_ne by congruence. apply Hc. lia.
  - fold ts. rewrite Hst. simpl bind.
    rewrite calculate_size_spec by lia. simpl bind.
    eexists. split; [reflexivity|]. simpl.
    repeat split; auto.
    intros i Hi. apply Hcells. lia.
Qed.

(** ** The header of an array *)

Lemma row_major_layout_header (a b : ndarray) :
  header a = header b -> row_major_layout a -> row_major_layout b.
Proof.
  unfold header, row_major_layout. intros [= Hd Hs Hn Ht Hl].
  rewrite Hd, Hs, Hn, Ht, Hl. auto.
Qed.

Lemma row_major_stride_invariant (a : ndarray) :
  row_major_layout a -> stride_invariant a.
Proof.
  intros ([Hn1 Hn2] & Hld & Hls & Hcells & _). split.
  - replace (nd a - 1) with (Z.of_nat (Z.to_nat (nd a) - 1)) by lia.
    apply rd_lookup. rewrite Hcells by lia. f_equal.
    unfold row_major. rewrite drop_ge by lia. simpl.
    rewrite Z.mul_1_r. apply wrap64_small.
    pose proof (calculate_type_size_range (dtype a)). unfold two64. lia.
  - intros i Hi.
    destruct (lookup_lt_is_Some_2 (dimensions a) (S (Z.to_nat i))) as [d Hd];
      [lia|].
    exists (row_major (calculate_type_size (dtype a)) (dimensions a)
              (S (Z.to_nat i))), d.
    split; [|split]; apply rd_Ok; (split; [lia|]);
      try replace (Z.to_nat (i + 1)) with (S (Z.to_nat i)) by lia.
    + apply Hcells. lia.
    + exact Hd.
    + rewrite Hcells by lia. f_equal. unfold row_major.
      rewrite wrap64_mul_l, (prod_drop _ _ _ Hd). f_equal. ring.
Qed.

Lemma ndarray_create_layout (dims : list Z) (n : Z) (dt : ascii) (a : ndarray) :
  rank_fits_int n ->
  ndarray_create dims n dt = Ok (Some a) ->
  row_major_layout a /\ nd a = n /\ dtype a = dt /\
  dimensions a = take (Z.to_nat n) dims /\
  data a = malloc (wrap64 (wrap64 (prod (dimensions a)) * calculate_type_size dt)).
Proof.
  intros Hfit Hrun.
  assert (Hlen : n <= Z.of_nat (length dims)).
  { unfold ndarray_create, copy_cells in Hrun.
    destruct (Z.ltb_spec (Z.of_nat (length dims)) n); [discriminate | lia]. }
  destruct (ndarray_create_spec dims n dt Hfit Hlen)
    as (a' & Hrun' & Hd & Hn & Ht & Hls & Hcells & Hdata).
  rewrite Hrun in Hrun'. injection Hrun' as <-.
  repeat split; auto; try (rewrite Hn; destruct Hfit; auto).
  - rewrite Hd, length_take. lia.
  - rewrite Ht. exact Hcells.
  - rewrite Hdata, Ht. apply length_replicate.
Qed.

Lemma with_data_header (a : ndarray) (m : list memval) :
  length m = length (data a) -> header (with_data a m) = header a.
Proof. intros H. unfold header. simpl. rewrite H. reflexivity. Qed.

Lemma store_elem_header (n : nat) (r r' : ndarray) (i : Z) (v : scalar) :
  store_elem n r i v = Ok r' -> header r' = header r.
Proof.
  unfold store_elem, store_at. intros H. inv_bind H. injection H as <-.
  apply with_data_header. apply (store_length _ _ _ _ _ Hx).
Qed.

Lemma set_scalar_header (n : nat) (a a' : ndarray) (idx : list Z) (v z : Z) :
  set_scalar n a idx v = Ok (a', z) -> header a' = header a /\ z = 0.
Proof.
  unfold set_scalar. intros H. do 2 inv_bind H. injection H as <- <-.
  split; [|reflexivity].
  apply with_data_header. apply (store_length _ _ _ _ _ Hx0).
Qed.

Lemma ndarray_set_point_header (a a' : ndarray) (idx : list Z)
    (p : list memval) (z : Z) :
  ndarray_set_point a idx p = Ok (a', z) -> header a' = header a /\ z = 0.
Proof.
  unfold ndarray_set_point. intros H. inv_bind H.
  destruct (Nat.ltb_spec (length p) (Z.to_nat (calculate_type_size (dtype a))));
    [discriminate|].
  destruct (_ && _) eqn:E; [|discriminate].
  apply in_bounds_dec in E.
  injection H as <- <-. split; [|reflexivity].
  apply with_data_header.
  rewrite !length_app, !length_take, length_drop. lia.
Qed.

(** One step of peeling the text of an operation that returned. *)
Ltac peel H :=
  match type of H with
  | bind _ _ = Ok _ => inv_bind H
  | (if ?c then _ else _) = Ok _ => destruct c eqn:?; try discriminate H
  | match ?x with Some _ => _ | None => _ end = Ok _ =>
      destruct x eqn:?; try discriminate H
  | (let '(_, _) := ?p in _) = Ok _ => destruct p eqn:?
  end.

(** Closes "this loop body keeps the header". *)
Ltac keeps_header :=
  let H := fresh "H" in
  let Q := fresh "Q" in
  intros ? ? ? Q H; repeat peel H;
  first [ injection H as <-; exact Q
        | apply store_elem_header in H; congruence ].

Lemma result_or_create_layout (result : option ndarray) (a r : ndarray) :
  (forall r0, result = Some r0 -> row_major_layout r0) ->
  row_major_layout a ->
  result_or_create result a = Ok (Some r) ->
  row_major_layout r.
Proof.
  intros Hres Ha H. destruct result as [r0|]; simpl in H.
  - injection H as <-. apply Hres. reflexivity.
  - apply ndarray_create_layout in H; [tauto | apply Ha].
Qed.

Lemma ndarray_transpose_header (a r : ndarray) :
  ndarray_transpose a = Ok (Some r) ->
  exists d0 d1 t,
    dim a 0 = Ok d0 /\ dim a 1 = Ok d1 /\
    ndarray_create [d1; d0] 2 (dtype a) = Ok (Some t) /\ header r = header t.
Proof.
  unfold ndarray_transpose. intros H. repeat peel H.
  injection H as <-. exists x0, x, n. repeat split; auto.
  revert Hx2. apply (for_up_keeps (fun t => header t = header n)); [reflexivity|].
  intros k t t' Q. apply (for_up_keeps (fun t => header t = header n)); [exact Q|]. keeps_header.
Qed.

Lemma elementwise_header (opd opf : Z -> Z -> Z) (result : option ndarray)
    (a b r : ndarray) :
  elementwise opd opf result a b = Ok (Some r) ->
  exists r0, result_or_create result a = Ok (Some r0) /\ header r = header r0.
Proof.
  unfold elementwise. intros H. repeat peel H.
  injection H as <-. exists n. split; [assumption|].
  revert Hx3. apply (for_up_keeps (fun t => header t = header n)); [reflexivity|]. keeps_header.
Qed.

Lemma ndarray_dot_header (tg : target) (a b r : ndarray) :
  ndarray_dot tg a b = Ok (Some r) ->
  exists r0, result_or_create (supplied tg a b) a = Ok (Some r0) /\
             header r = header r0.
Proof.
  unfold ndarray_dot. intros H. repeat peel H.
  injection H as <-. exists n. split; [assumption|].
  revert Hx3. apply (for_up_keeps (fun t => header t = header n)); [reflexivity|].
  intros k t t' Q Hb. inv_bind Hb. revert Hb.
  apply (for_up_keeps (fun t => header t = header n)); [exact Q|]. keeps_header.
Qed.

Lemma ndarray_broadcast_add_header (result : option ndarray) (a b r : ndarray) :
  ndarray_broadcast_add result a b = Ok (Some r) ->
  exists r0, result_or_create result a = Ok (Some r0) /\ header r = header r0.
Proof.
  unfold ndarray_broadcast_add. intros H. repeat peel H.
  injection H as <-. exists n. split; [assumption|].
  revert Hx4. apply (for_up_keeps (fun t => header t = header n)); [reflexivity|].
  intros k t t' Q. apply (for_up_keeps (fun t => header t = header n)); [exact Q|]. keeps_header.
Qed.

Lemma ndarray_compare_header (result : option ndarray) (a b r : ndarray)
    (op : ascii) :
  ndarray_compare result a b op = Ok (Some r) ->
  exists r0, result_or_create result a = Ok (Some r0) /\ header r = header r0.
Proof.
  unfold ndarray_compare. intros H. repeat peel H.
  exists n. split; [assumption|].
  assert (HQ : forall t, Some r = Some t -> header t = header n);
    [|apply HQ; reflexivity].
  revert H.
  apply (for_up_keeps
           (fun st : option ndarray =>
              forall t, st = Some t -> header t = header n)).
  - intros t [= <-]. reflexivity.
  - intros k [t|] st' Q Hb; [|injection Hb as <-; discriminate].
    repeat peel Hb; injection Hb as <-; try discriminate;
      intros u [= <-];
      match goal with
      | Hs : store_elem _ _ _ _ = Ok _ |- _ =>
          apply store_elem_header in Hs; rewrite Hs; apply Q; reflexivity
      end.
Qed.

Lemma ndarray_subsample_header (rand : Z -> Z) (a r : ndarray) (n : Z) :
  ndarray_subsample rand a n = Ok (Some r) ->
  exists new_dims1 new_dims s,
    wr (fresh_vector (nd a)) 0 n = Ok new_dims1 /\
    for_up (Z.to_nat (nd a - 1)) 1
      (fun i v => do d <- dim a i; wr v i d) new_dims1 = Ok new_dims /\
    ndarray_create new_dims (nd a) (dtype a) = Ok (Some s) /\
    header r = header s.
Proof.
  unfold ndarray_subsample. intros H. repeat peel H.
  injection H as <-. exists x0, x1, n0. do 3 (split; [assumption|]).
  revert Hx5. apply (for_up_keeps (fun t => header t = header n0)); [reflexivity|].
  intros k t t' Q Hb. inv_bind Hb. revert Hb.
  apply (for_up_keeps (fun t => header t = header n0)); [exact Q|]. keeps_header.
Qed.

Lemma ndarray_concat_header (a b r : ndarray) (axis : Z) :
  ndarray_concat a b axis = Ok (Some r) ->
  exists new_dims r0,
    for_up (Z.to_nat (nd a)) 0
      (fun i v =>
         do x <- dim a i;
         if i =? axis
         then do y <- dim b i; wr v i (wrap64 (x + y))
         else wr v i x)
      (fresh_vector (nd a)) = Ok new_dims /\
    ndarray_create new_dims (nd a) (dtype a) = Ok (Some r0) /\
    header r = header r0.
Proof.
  unfold ndarray_concat. intros H. repeat peel H.
  injection H as <-. exists x0, n. do 2 (split; [assumption|]).
  revert Hx3.
  apply (for_up_keeps (fun st : list Z * ndarray => header (snd st) = header n));
    [reflexivity|].
  intros k [ind t] [ind' t'] Q Hb. simpl in Q |- *.
  repeat peel Hb; injection Hb as <- <-;
    match goal with
    | Hs : store_elem _ _ _ _ = Ok _ |- _ =>
        apply store_elem_header in Hs; congruence
    end.
Qed.

(** ** Live arrays *)

Lemma live_row_major (a : ndarray) : live a -> row_major_layout a.
Proof.
  induction 1 as
    [ dims n dt a Hfit _ Hc
    | n a idx v a' z _ IH Hs
    | a idx p a' z _ IH Hs
    | a m _ IH Hm
    | a r _ IH Hr
    | result a b r _ IHres _ IHa _ _ Hr
    | result a b r _ IHres _ IHa _ _ Hr
    | tg a b r _ IHres _ IHa _ IHb _ Hr
    | result a b r _ IHres _ IHa _ _ Hr
    | result a b op r _ IHres _ IHa _ _ Hr
    | rand a n r _ IH _ Hr
    | a b axis r _ IHa _ _ Hr ].
  - apply (ndarray_create_layout _ _ _ _ Hfit Hc).
  - apply set_scalar_header in Hs. destruct Hs as [Hh _].
    apply (row_major_layout_header a); [symmetry; exact Hh | exact IH].
  - apply ndarray_set_point_header in Hs. destruct Hs as [Hh _].
    apply (row_major_layout_header a); [symmetry; exact Hh | exact IH].
  - apply (row_major_layout_header a);
      [symmetry; apply with_data_header; exact Hm | exact IH].
  - apply ndarray_transpose_header in Hr.
    destruct Hr as (d0 & d1 & t & _ & _ & Hc & Hh).
    apply (row_major_layout_header t); [symmetry; exact Hh|].
    assert (Hfit : rank_fits_int 2) by (unfold rank_fits_int; lia).
    apply (ndarray_create_layout _ _ _ _ Hfit Hc).
  - apply elementwise_header in Hr. destruct Hr as (r0 & Hc & Hh).
    apply (row_major_layout_header r0); [symmetry; exact Hh|].
    apply (result_or_create_layout result a r0 IHres IHa Hc).
  - apply elementwise_header in Hr. destruct Hr as (r0 & Hc & Hh).
    apply (row_major_layout_header r0); [symmetry; exact Hh|].
    apply (result_or_create_layout result a r0 IHres IHa Hc).
  - apply ndarray_dot_header in Hr. destruct Hr as (r0 & Hc & Hh).
    apply (row_major_layout_header r0); [symmetry; exact Hh|].
    apply (result_or_create_layout (supplied tg a b) a r0); [|exact IHa|exact Hc].
    intros r1 E. destruct tg; simpl in E; try discriminate;
      injection E as <-; auto.
  - apply ndarray_broadcast_add_header in Hr. destruct Hr as (r0 & Hc & Hh).
    apply (row_major_layout_header r0); [symmetry; exact Hh|].
    apply (result_or_create_layout result a r0 IHres IHa Hc).
  - apply ndarray_compare_header in Hr. destruct Hr as (r0 & Hc & Hh).
    apply (row_major_layout_header r0); [symmetry; exact Hh|].
    apply (result_or_create_layout result a r0 IHres IHa Hc).
  - apply ndarray_subsample_header in Hr.
    destruct Hr as (nds1 & nds & s & _ & _ & Hc & Hh).
    apply (row_major_layout_header s); [symmetry; exact Hh|].
    apply (ndarray_create_layout _ _ _ _ (proj1 IH) Hc).
  - apply ndarray_concat_header in Hr. destruct Hr as (nds & s & _ & Hc & Hh).
    apply (row_major_layout_header s); [symmetry; exact Hh|].
    apply (ndarray_create_layout _ _ _ _ (proj1 IHa) Hc).
Qed.

(** ** Offsets *)

Lemma offset_sum_snoc (ss xs : list Z) (s x : Z) :
  length ss = length xs ->
  offset_sum (ss ++ [s]) (xs ++ [x]) = offset_sum ss xs + s * x.
Proof.
  revert xs. induction ss as [|s0 ss IH]; intros [|x0 xs] Hl;
    simpl in *; try discriminate; [lia|].
  rewrite IH by lia. ring.
Qed.

(** The offset loop never fails and returns the weighted sum modulo
    2^64, whatever the indices are. *)
Lemma point_offset_spec (a : ndarray) (idx : list Z) :
  length (strides a) = Z.to_nat (nd a) ->
  length idx = Z.to_nat (nd a) ->
  point_offset a idx = Ok (wrap64 (offset_sum (strides a) idx)).
Proof.
  intros Hs Hx. unfold point_offset.
  set (n := Z.to_nat (nd a)) in *.
  match goal with
  | |- for_up _ _ ?body _ = _ =>
      destruct (for_up_total
                  (fun i off =>
                     0 <= i /\
                     off = wrap64 (offset_sum (take (Z.to_nat i) (strides a))
                                     (take (Z.to_nat i) idx)))
                  body n 0 0) as (off & Hrun & _ & ->)
  end.
  - split; [lia | reflexivity].
  - intros k t Hk [Hk0 ->].
    destruct (lookup_lt_is_Some_2 (strides a) (Z.to_nat k)) as [s Hsk]; [lia|].
    destruct (lookup_lt_is_Some_2 idx (Z.to_nat k)) as [x Hxk]; [lia|].
    eexists. split.
    + rewrite (proj2 (rd_Ok _ _ _) (conj Hk0 Hsk)).
      rewrite (proj2 (rd_Ok _ _ _) (conj Hk0 Hxk)). reflexivity.
    + split; [lia|].
      replace (Z.to_nat (k + 1)) with (S (Z.to_nat k)) by lia.
      rewrite (take_S_r _ _ _ Hsk), (take_S_r _ _ _ Hxk).
      rewrite offset_sum_snoc by (rewrite !length_take; lia).
      rewrite wrap64_add_r, wrap64_add_l. reflexivity.
  - rewrite Hrun. f_equal.
    replace (Z.to_nat (0 + Z.of_nat n)) with n by lia.
    rewrite !take_ge by lia. reflexivity.
Qed.

Lemma exact_strides_lookup (ts : Z) (dims : list Z) (i : nat) :
  (i < length dims)%nat ->
  exact_strides ts dims !! i = Some (ts * prod (drop (S i) dims)).
Proof.
  revert i. induction dims as [|d ds IH]; intros i Hi; simpl in Hi; [lia|].
  destruct i as [|i]; simpl; [reflexivity|]. apply IH. lia.
Qed.

Lemma length_exact_strides (ts : Z) (dims : list Z) :
  length (exact_strides ts dims) = length dims.
Proof. induction dims as [|d ds IH]; simpl; [|rewrite IH]; reflexivity. Qed.

Lemma all_below_inv (d x : Z) (ds xs : list Z) :
  all_below (d :: ds) (x :: xs) = true ->
  0 <= x < d /\ all_below ds xs = true.
Proof.
  simpl. rewrite !andb_true_iff, Z.leb_le, Z.ltb_lt. tauto.
Qed.

Lemma all_below_length (ds xs : list Z) :
  all_below ds xs = true -> length xs = length ds.
Proof.
  revert xs. induction ds as [|d ds IH]; intros [|x xs] H;
    try discriminate H; [reflexivity|].
  apply all_below_inv in H. simpl. f_equal. apply IH, H.
Qed.

Lemma all_below_prod_pos (ds xs : list Z) :
  all_below ds xs = true -> 1 <= prod ds.
Proof.
  revert xs. induction ds as [|d ds IH]; intros [|x xs] H;
    try discriminate H; [simpl; lia|].
  apply all_below_inv in H. destruct H as [Hx H]. apply IH in H.
  change (prod (d :: ds)) with (d * prod ds). nia.
Qed.

Lemma prod_drop_le (ds xs : list Z) (i : nat) :
  all_below ds xs = true -> 1 <= prod (drop i ds) <= prod ds.
Proof.
  revert xs i. induction ds as [|d ds IH]; intros [|x xs] i H;
    try discriminate.
  - rewrite drop_nil. simpl. lia.
  - pose proof (all_below_prod_pos _ _ H) as Hp.
    apply all_below_inv in H. destruct H as [Hx H].
    destruct i as [|i]; [simpl drop; lia|].
    simpl drop. specialize (IH xs i H).
    change (prod (d :: ds)) with (d * prod ds). nia.
Qed.

(** The offset of an in-range index leaves room for one element before
    the end of the buffer. *)
Lemma offset_sum_bound (ts : Z) (ds xs : list Z) :
  0 <= ts -> all_below ds xs = true ->
  0 <= offset_sum (exact_strides ts ds) xs /\
  offset_sum (exact_strides ts ds) xs + ts <= ts * prod ds.
Proof.
  intros Hts. revert xs. induction ds as [|d ds IH]; intros [|x xs] H;
    try discriminate H; [simpl; lia|].
  pose proof (all_below_prod_pos _ _ H) as Hp.
  apply all_below_inv in H. destruct H as [Hx H].
  pose proof (all_below_prod_pos _ _ H) as Hp'.
  specialize (IH xs H). simpl exact_strides. simpl offset_sum.
  change (prod (d :: ds)) with (d * prod ds). nia.
Qed.

Lemma strides_exact (a : ndarray) (idx : list Z) :
  row_major_layout a -> buffer_fits a -> in_range a idx = true ->
  strides a = exact_strides (calculate_type_size (dtype a)) (dimensions a).
Proof.
  intros (Hfit & Hld & Hls & Hcells & Hdata) Hbuf Hidx.
  pose proof (calculate_type_size_range (dtype a)) as Hts.
  set (ts := calculate_type_size (dtype a)) in *.
  assert (Hsmall : prod (dimensions a) * ts < two64).
  { unfold buffer_fits in Hbuf. fold ts in Hbuf. rewrite <- Hbuf, Hdata.
    pose proof (wrap64_range (wrap64 (prod (dimensions a)) * ts)). lia. }
  apply list_eq. intros i.
  destruct (decide (i < Z.to_nat (nd a))%nat) as [Hi|Hi].
  - rewrite Hcells by exact Hi.
    rewrite exact_strides_lookup by lia. f_equal.
    unfold row_major. apply wrap64_small.
    pose proof (prod_drop_le _ _ (S i) Hidx). nia.
  - rewrite !lookup_ge_None_2; [reflexivity | |]; try lia.
    rewrite length_exact_strides. lia.
Qed.

(** For an in-range index of such an array the offset loop returns the
    plain weighted sum, and the element at that offset is inside the
    buffer. *)
Lemma point_offset_in_range (a : ndarray) (idx : list Z) :
  row_major_layout a -> buffer_fits a -> in_range a idx = true ->
  point_offset a idx = Ok (offset_sum (strides a) idx) /\
  0 <= offset_sum (strides a) idx /\
  offset_sum (strides a) idx + calculate_type_size (dtype a)
  <= Z.of_nat (length (data a)).
Proof.
  intros Hlay Hbuf Hidx.
  pose proof (strides_exact a idx Hlay Hbuf Hidx) as Hex.
  destruct Hlay as (Hfit & Hld & Hls & Hcells & Hdata).
  pose proof (calculate_type_size_range (dtype a)) as Hts.
  pose proof (all_below_length _ _ Hidx) as Hlen.
  destruct (offset_sum_bound (calculate_type_size (dtype a))
              (dimensions a) idx) as [Hlo Hhi]; [lia | exact Hidx |].
  rewrite <- Hex in Hlo, Hhi.
  assert (Hsmall : prod (dimensions a) * calculate_type_size (dtype a) < two64).
  { unfold buffer_fits in Hbuf. rewrite <- Hbuf, Hdata.
    pose proof (wrap64_range (wrap64 (prod (dimensions a))
                              * calculate_type_size (dtype a))). lia. }
  rewrite point_offset_spec by lia.
  rewrite wrap64_small by lia.
  unfold buffer_fits in Hbuf. repeat split; lia.
Qed.

Lemma set_scalar_roundtrip (n : nat) (a : ndarray) (idx : list Z) (v : Z) :
  row_major_layout a -> buffer_fits a -> in_range a idx = true ->
  (0 < n)%nat -> Z.of_nat n <= calculate_type_size (dtype a) ->
  0 <= v < 256 ^ Z.of_nat n ->
  exists a' p,
    set_scalar n a idx v = Ok (a', 0) /\
    ndarray_get_point a' idx = Ok p /\
    p = offset_sum (strides a) idx /\
    load n (data a') p = Ok (Some v).
Proof.
  intros Hlay Hbuf Hidx Hn Hts Hv.
  destruct (point_offset_in_range a idx Hlay Hbuf Hidx) as (Hoff & Hlo & Hhi).
  unfold set_scalar. rewrite Hoff. simpl bind.
  destruct (store n (data a) (offset_sum (strides a) idx) (Some v))
    as [m|] eqn:Hst.
  - simpl bind. exists (with_data a m), (offset_sum (strides a) idx).
    split; [reflexivity|]. split; [exact Hoff|]. split; [reflexivity|].
    simpl data. rewrite (load_store_same n _ _ _ _ Hn Hst).
    rewrite fit_small by exact Hv. reflexivity.
  - rewrite store_Ok in Hst by lia. discriminate.
Qed.

(** ** Elementwise operations on rank-2 arrays *)

Lemma load_at_elem (n : nat) (m : list memval) (i : Z) :
  0 <= i -> (i + 1) * Z.of_nat n <= Z.of_nat (length m) ->
  load_at n m i = Ok (elem n m i).
Proof. intros H1 H2. unfold load_at, elem. apply load_Ok; nia. Qed.

Lemma fit_lift2 (n : nat) (f : Z -> Z -> Z) (x y : scalar) :
  (forall u v, 0 <= f u v < 256 ^ Z.of_nat n) ->
  fit n (lift2 f x y) = lift2 f x y.
Proof.
  intros Hf. destruct x as [u|], y as [v|]; try reflexivity.
  apply fit_small, Hf.
Qed.

Lemma bits64_range (f : spec_float) : 0 <= IEEE.bits64 f < 256 ^ Z.of_nat 8.
Proof. apply wrap64_range. Qed.

Lemma bits32_range (f : spec_float) : 0 <= IEEE.bits32 f < 256 ^ Z.of_nat 4.
Proof. unfold IEEE.bits32, wrap32, two32. apply Z.mod_pos_bound. lia. Qed.

(** A [double] result is a 64-bit pattern and a [float] result a 32-bit
    one, NaN or not. *)
Lemma result64_range (op : IEEE.operation) (xs : list Z) (r : spec_float) :
  0 <= IEEE.result64 op xs r < 256 ^ Z.of_nat 8.
Proof. destruct r; apply wrap64_range. Qed.

Lemma result32_range (op : IEEE.operation) (xs : list Z) (r : spec_float) :
  0 <= IEEE.result32 op xs r < 256 ^ Z.of_nat 4.
Proof.
  destruct r; unfold IEEE.result32, IEEE.bits32, IEEE.nan32, wrap32, two32;
    apply Z.mod_pos_bound; lia.
Qed.

(** The pattern of a code is a NaN, whatever the code. *)
Lemma nan_pattern_is_nan (mw ew c : Z) :
  0 < mw -> 0 < ew ->
  IEEE.sf_of_bits mw ew (IEEE.nan_pattern mw ew c) = S754_nan.
Proof.
  intros Hm He. unfold IEEE.nan_pattern, IEEE.sf_of_bits, IEEE.sign_bit.
  set (m := if c mod 2 ^ mw =? 0 then 2 ^ (mw - 1) else c mod 2 ^ mw).
  assert (Hp : 0 < 2 ^ mw) by (apply Z.pow_pos_nonneg; lia).
  assert (Hq : 1 < 2 ^ ew) by (apply Z.pow_gt_1; lia).
  assert (Hmr : 0 < m < 2 ^ mw).
  { unfold m. destruct (Z.eqb_spec (c mod 2 ^ mw) 0).
    - split; [apply Z.pow_pos_nonneg; lia|].
      apply Z.pow_lt_mono_r; lia.
    - pose proof (Z.mod_pos_bound c (2 ^ mw) Hp). lia. }
  set (s := if Z.odd (c / 2 ^ mw) then 2 ^ (mw + ew) else 0).
  assert (Hs : exists k, s = k * 2 ^ ew * 2 ^ mw).
  { unfold s. destruct (Z.odd _); [exists 1|exists 0]; [|lia].
    rewrite Z.pow_add_r by lia. lia. }
  destruct Hs as (k & Hs).
  replace (s + (2 ^ ew - 1) * 2 ^ mw + m)
    with (m + (k * 2 ^ ew + (2 ^ ew - 1)) * 2 ^ mw) by lia.
  rewrite Z.div_add by lia. rewrite Z.mod_add by lia.
  rewrite (Z.div_small m) by lia. rewrite (Z.mod_small m) by lia.
  rewrite Z.add_0_l.
  replace (k * 2 ^ ew + (2 ^ ew - 1)) with ((2 ^ ew - 1) + k * 2 ^ ew) by lia.
  rewrite Z.mod_add by lia. rewrite Z.mod_small by lia.
  destruct (Z.eqb_spec (2 ^ ew - 1) 0); [lia|].
  rewrite Z.eqb_refl.
  destruct (Z.eqb_spec m 0); [lia|]. reflexivity.
Qed.

Lemma nan64_is_nan (c : Z) : IEEE.sf64 (IEEE.nan64 c) = S754_nan.
Proof.
  unfold IEEE.sf64, IEEE.nan64.
  rewrite <- (nan_pattern_is_nan 52 11 c) by lia. f_equal.
  apply Z.mod_small.
  unfold IEEE.nan_pattern, IEEE.sign_bit, two64.
  pose proof (Z.mod_pos_bound c (2 ^ 52) ltac:(lia)).
  destruct (Z.odd _), (_ =? _); lia.
Qed.

Lemma nan32_is_nan (c : Z) : IEEE.sf32 (IEEE.nan32 c) = S754_nan.
Proof.
  unfold IEEE.sf32, IEEE.nan32.
  rewrite <- (nan_pattern_is_nan 23 8 c) by lia. f_equal.
  apply Z.mod_small.
  unfold IEEE.nan_pattern, IEEE.sign_bit, two32.
  pose proof (Z.mod_pos_bound c (2 ^ 23) ltac:(lia)).
  destruct (Z.odd _), (_ =? _); lia.
Qed.

(** Every NaN pattern is the pattern of a code. *)
Lemma nan64_onto (x : Z) :
  0 <= x < two64 -> IEEE.sf64 x = S754_nan ->
  exists c, IEEE.nan64 c = x.
Proof.
  unfold two64. intros Hx Hnan.
  unfold IEEE.sf64, IEEE.sf_of_bits in Hnan.
  change (2 ^ 11 - 1) with 2047 in Hnan.
  destruct (Z.eqb_spec ((x / 2 ^ 52) mod 2 ^ 11) 0) as [E0|E0].
  { destruct (_ =? _) in Hnan; discriminate. }
  destruct (Z.eqb_spec ((x / 2 ^ 52) mod 2 ^ 11) 2047) as [E1|E1];
    [|discriminate].
  destruct (Z.eqb_spec (x mod 2 ^ 52) 0) as [E2|E2]; [discriminate|].
  clear Hnan E0.
  pose proof (Z.div_mod x (2 ^ 52) ltac:(lia)) as D1.
  pose proof (Z.mod_pos_bound x (2 ^ 52) ltac:(lia)) as B1.
  set (q := x / 2 ^ 52) in *. set (m := x mod 2 ^ 52) in *.
  pose proof (Z.div_mod q (2 ^ 11) ltac:(lia)) as D2.
  set (s := q / 2 ^ 11) in *.
  assert (Hs : 0 <= s <= 1).
  { assert (0 <= q < 2 ^ 12) by lia. unfold s.
    split; [apply Z.div_pos; lia|].
    apply Z.lt_succ_r. apply Z.div_lt_upper_bound; lia. }
  exists (s * 2 ^ 52 + m).
  unfold IEEE.nan64, IEEE.nan_pattern, IEEE.sign_bit.
  replace (s * 2 ^ 52 + m) with (m + s * 2 ^ 52) by lia.
  rewrite Z.mod_add, Z.div_add by lia.
  rewrite (Z.mod_small m), (Z.div_small m) by lia. rewrite Z.add_0_l.
  destruct (Z.eqb_spec m 0) as [|_]; [contradiction|].
  assert (Hcase : s = 0 \/ s = 1) by lia.
  unfold wrap64, two64.
  destruct Hcase as [Es|Es]; rewrite Es; simpl Z.odd; cbv iota;
    rewrite Z.mod_small by lia; lia.
Qed.

(** A live array of rank 2 has a two-entry shape, and its buffer length
    follows from it. *)
Lemma rank2_shape (a : ndarray) :
  row_major_layout a -> nd a = 2 ->
  exists d0 d1, dimensions a = [d0; d1] /\ dim a 0 = Ok d0 /\ dim a 1 = Ok d1.
Proof.
  intros (_ & Hld & _) Hnd. rewrite Hnd in Hld.
  destruct (dimensions a) as [|d0 [|d1 [|? ?]]] eqn:E; try discriminate Hld.
  exists d0, d1. unfold dim. rewrite E. auto.
Qed.

Lemma same_shape_refl (a b : ndarray) :
  row_major_layout a -> dimensions b = dimensions a ->
  same_shape a b = Ok true.
Proof.
  intros (Hfit & Hld & _) Hdims. unfold same_shape.
  apply all_up_true. intros k Hk. unfold dim. rewrite Hdims.
  destruct (lookup_lt_is_Some_2 (dimensions a) (Z.to_nat k)) as [d Hd]; [lia|].
  rewrite (proj2 (rd_Ok _ _ _) (conj (proj1 Hk) Hd)). simpl.
  rewrite Z.eqb_refl. reflexivity.
Qed.

Section Elementwise.
Variables opd opf : Z -> Z -> Z.
Variables a b : ndarray.
Hypothesis Ha : row_major_layout a.
Hypothesis Hb : row_major_layout b.
Hypothesis Hbuf_a : buffer_fits a.
Hypothesis Hbuf_b : buffer_fits b.
Hypothesis Hrank : nd a = 2.
Hypothesis Hdims : dimensions b = dimensions a.
Hypothesis Hdtype : dtype b = dtype a.

Let ts := calculate_type_size (dtype a).

(** The byte size of the buffers did not wrap. *)
Lemma buffer_size_exact :
  wrap64 (wrap64 (prod (dimensions a)) * ts) = prod (dimensions a) * ts.
Proof.
  destruct Ha as (_ & _ & _ & _ & Hdata).
  unfold buffer_fits in Hbuf_a. fold ts in Hdata, Hbuf_a.
  pose proof (wrap64_range (wrap64 (prod (dimensions a)) * ts)). lia.
Qed.

(** The checks pass and the output is allocated, whatever the dtype. *)
Lemma elementwise_prologue :
  exists r0 d0 d1,
    dimensions a = [d0; d1] /\
    ndarray_create (dimensions a) (nd a) (dtype a) = Ok (Some r0) /\
    row_major_layout r0 /\
    dimensions r0 = dimensions a /\ dtype r0 = dtype a /\ nd r0 = nd a /\
    length (data r0) = length (data a) /\
    elementwise opd opf None a b
    = do r <- for_up (Z.to_nat (wrap64 (d0 * d1))) 0
                (fun i r =>
                   if is_d a then
                     do x <- load_at 8 (data a) i;
                     do y <- load_at 8 (data b) i;
                     store_elem 8 r i (lift2 opd x y)
                   else if is_f a then
                     do x <- load_at 4 (data a) i;
                     do y <- load_at 4 (data b) i;
                     store_elem 4 r i (lift2 opf x y)
                   else Ok r)
                r0;
      Ok (Some r).
Proof.
  destruct (rank2_shape a Ha Hrank) as (d0 & d1 & Hshape & Hd0 & Hd1).
  pose proof Ha as (Hfit & Hld & _ & _ & Hdata).
  destruct (ndarray_create_spec (dimensions a) (nd a) (dtype a) Hfit)
    as (r0 & Hc & Hrd & Hrn & Hrt & _ & _ & Hrdata); [lia|].
  rewrite take_ge in Hrd by lia.
  exists r0, d0, d1. split; [exact Hshape|]. split; [exact Hc|].
  split; [apply (ndarray_create_layout _ _ _ _ Hfit Hc)|].
  repeat split; auto.
  - rewrite Hrdata, Hrd. unfold malloc. rewrite length_replicate. lia.
  - assert (Hnb : nd b = nd a).
    { destruct Hb as ([? ?] & Hldb & _). destruct Hfit. rewrite Hdims in Hldb. lia. }
    unfold elementwise. rewrite Hnb, Z.eqb_refl.
    rewrite Hdtype, Ascii.eqb_refl. simpl negb. simpl orb. cbv iota.
    rewrite (same_shape_refl a b Ha Hdims). simpl bind. cbv iota.
    unfold result_or_create. rewrite Hc. simpl bind.
    rewrite Hd0, Hd1. reflexivity.
Qed.

(** For cells of [n] bytes, [n] the element size: the loop of
    [ndarray_add] and [ndarray_subtract] writes [op] of the operands'
    cells into every cell below the bound. *)
Lemma elementwise_loop (n : nat) (op : Z -> Z -> Z) (r0 : ndarray) (count : Z) :
  (0 < n)%nat ->
  0 <= count ->
  count * Z.of_nat n <= Z.of_nat (length (data a)) ->
  length (data b) = length (data a) ->
  length (data r0) = length (data a) ->
  exists r,
    for_up (Z.to_nat count) 0
      (fun i r =>
         do x <- load_at n (data a) i;
         do y <- load_at n (data b) i;
         store_elem n r i (lift2 op x y))
      r0 = Ok r /\
    header r = header r0 /\
    forall i, 0 <= i < count ->
      load_at n (data r) i
      = Ok (fit n (lift2 op (elem n (data a) i) (elem n (data b) i))).
Proof.
  intros Hn Hcount Hlen Hlb Hlr.
  match goal with
  | |- exists r, for_up _ _ ?body _ = _ /\ _ =>
      destruct (for_up_total
                  (fun k r =>
                     header r = header r0 /\
                     forall i, 0 <= i < k ->
                       load_at n (data r) i
                       = Ok (fit n (lift2 op (elem n (data a) i)
                                      (elem n (data b) i))))
                  body (Z.to_nat count) 0 r0) as (r & Hrun & Hh & Hcells)
  end.
  - split; [reflexivity|]. intros i Hi. lia.
  - intros k t Hk [Hh Hcells].
    assert (Hlt : length (data t) = length (data a)).
    { injection Hh as _ _ _ _ Hl. lia. }
    rewrite (load_at_elem n (data a) k) by nia.
    rewrite (load_at_elem n (data b) k) by nia.
    simpl bind. unfold store_elem, store_at.
    destruct (store n (data t) (k * Z.of_nat n)
                (lift2 op (elem n (data a) k) (elem n (data b) k)))
      as [m|] eqn:Hst; [|rewrite store_Ok in Hst by nia; discriminate].
    simpl bind. eexists. split; [reflexivity|]. split.
    + rewrite with_data_header; [exact Hh|].
      apply (store_length _ _ _ _ _ Hst).
    + intros i Hi. simpl data. unfold load_at.
      destruct (Z.eq_dec i k) as [->|Hne].
      * apply (load_store_same _ _ _ _ _ Hn Hst).
      * rewrite (load_store_other _ _ _ _ _ _ _ Hst) by nia.
        apply Hcells. lia.
  - exists r. split; [exact Hrun|]. split; [exact Hh|].
    intros i Hi. apply Hcells. lia.
Qed.

(** [ndarray_add] / [ndarray_subtract] on two live rank-2 arrays of the
    same shape and dtype: they return an output array of that shape and
    dtype for every dtype tag; for ['d'] and ['f'] every one of its
    [shape[0] * shape[1]] elements is [op] of the operands' elements. *)
Lemma elementwise_rank2 :
  exists r,
    elementwise opd opf None a b = Ok (Some r) /\
    dimensions r = dimensions a /\ dtype r = dtype a /\ nd r = nd a /\
    row_major_layout r /\
    (dtype a = "d"%char ->
     forall i, 0 <= i < prod (dimensions a) ->
       load_at 8 (data r) i
       = Ok (fit 8 (lift2 opd (elem 8 (data a) i) (elem 8 (data b) i)))) /\
    (dtype a = "f"%char ->
     forall i, 0 <= i < prod (dimensions a) ->
       load_at 4 (data r) i
       = Ok (fit 4 (lift2 opf (elem 4 (data a) i) (elem 4 (data b) i)))).
Proof.
  destruct elementwise_prologue
    as (r0 & d0 & d1 & Hshape & Hc & Hlay0 & Hrd & Hrt & Hrn & Hrl & Hrun).
  pose proof buffer_size_exact as Hsize.
  assert (Hprod : prod (dimensions a) = d0 * d1)
    by (rewrite Hshape; simpl; ring).
  assert (Hlb : length (data b) = length (data a)).
  { unfold buffer_fits in Hbuf_a, Hbuf_b. rewrite Hdims, Hdtype in Hbuf_b. lia. }
  pose proof (wrap64_range (prod (dimensions a))) as Hwr.
  unfold buffer_fits in Hbuf_a. fold ts in Hbuf_a.
  rewrite Hrun. unfold is_d, is_f.
  destruct (Ascii.eqb_spec (dtype a) "d"%char) as [Hd|Hnd].
  - assert (Hts : ts = 8) by (unfold ts; rewrite Hd; reflexivity).
    assert (Hcnt : wrap64 (d0 * d1) = d0 * d1).
    { rewrite <- Hprod. rewrite Hts in Hsize.
      assert (0 <= prod (dimensions a)) by lia. apply wrap64_small.
      pose proof (wrap64_range (wrap64 (prod (dimensions a)) * 8)). lia. }
    destruct (elementwise_loop 8 opd r0 (d0 * d1)) as (r & Hr & Hh & Hcells);
      try lia.
    rewrite Hcnt, Hr. simpl bind. exists r.
    injection Hh as Hhd Hhs Hhn Hht Hhl.
    split; [reflexivity|]. do 3 (split; [congruence|]).
    split; [apply (row_major_layout_header r0);
            [unfold header; congruence | exact Hlay0]|].
    split; [intros _ i Hi; apply Hcells; lia | intros Hf; congruence].
  - destruct (Ascii.eqb_spec (dtype a) "f"%char) as [Hf|Hnf].
    + assert (Hts : ts = 4) by (unfold ts; rewrite Hf; reflexivity).
      assert (Hcnt : wrap64 (d0 * d1) = d0 * d1).
      { rewrite <- Hprod. rewrite Hts in Hsize.
        assert (0 <= prod (dimensions a)) by lia. apply wrap64_small.
        pose proof (wrap64_range (wrap64 (prod (dimensions a)) * 4)). lia. }
      destruct (elementwise_loop 4 opf r0 (d0 * d1)) as (r & Hr & Hh & Hcells);
        try lia.
      rewrite Hcnt, Hr. simpl bind. exists r.
      injection Hh as Hhd Hhs Hhn Hht Hhl.
      split; [reflexivity|]. do 3 (split; [congruence|]).
      split; [apply (row_major_layout_header r0);
              [unfold header; congruence | exact Hlay0]|].
      split; [intros Hd; congruence | intros _ i Hi; apply Hcells; lia].
    + rewrite for_up_skip by reflexivity. simpl bind. exists r0.
      split; [reflexivity|]. do 3 (split; [congruence|]).
      split; [exact Hlay0|]. split; intros; congruence.
Qed.

End Elementwise.

(** ** Concrete arrays *)

Lemma fill_d_live (l : list (list Z * Z)) :
  forall a a', live a -> fill_d a l = Ok a' -> live a'.
Proof.
  induction l as [|[idx n] l IH]; intros a a' Ha H; simpl in H.
  - injection H as <-. exact Ha.
  - inv_bind H. destruct x as [a1 z]. apply (IH a1 a'); [|exact H].
    apply (live_set_scalar 8 a idx (double_of_int n) a1 z Ha Hx).
Qed.

(** Each array above is what [ndarray_create] and the setters build. *)
Lemma created_and_filled (dims : list Z) (n : Z) (dt : ascii)
    (a0 a : ndarray) (l : list (list Z * Z)) :
  rank_fits_int n ->
  Forall uint64 dims ->
  ndarray_create dims n dt = Ok (Some a0) ->
  fill_d a0 l = Ok a ->
  live a.
Proof.
  intros Hfit Hdims Hc Hf. apply (fill_d_live l a0 a); [|exact Hf].
  apply (live_create dims n dt a0 Hfit Hdims Hc).
Qed.

Lemma live_row_1_2 : live row_1_2.
Proof.
  apply (created_and_filled [1; 2] 2 "d"%char
           {| data := malloc 16; dimensions := [1; 2]; strides := [16; 8];
              nd := 2; dtype := "d"%char |}
           row_1_2 [([0; 0], 1); ([0; 1], 2)]);
    [unfold rank_fits_int; lia
    | repeat constructor; unfold uint64, two64; lia
    | reflexivity | reflexivity].
Qed.

(** ** Loops that fill a matrix cell by cell *)

Section FillCells.
Variable n : nat.
Variables rows cols : Z.
Variable pos : Z -> Z -> Z.
Variable val : Z -> Z -> scalar.
Variable body : Z -> Z -> ndarray -> res ndarray.
Variable r0 : ndarray.
Hypothesis Hn : (0 < n)%nat.
Hypothesis Hbody :
  forall i j r, 0 <= i < rows -> 0 <= j < cols ->
    body i j r = store_elem n r (pos i j) (val i j).
Hypothesis Hpos :
  forall i j, 0 <= i < rows -> 0 <= j < cols ->
    0 <= pos i j /\ (pos i j + 1) * Z.of_nat n <= Z.of_nat (length (data r0)).
Hypothesis Hinj :
  forall i j i' j', 0 <= i < rows -> 0 <= j < cols ->
    0 <= i' < rows -> 0 <= j' < cols ->
    pos i j = pos i' j' -> i = i' /\ j = j'.

Lemma store_elem_Ok (r : ndarray) (p : Z) (v : scalar) :
  0 <= p -> (p + 1) * Z.of_nat n <= Z.of_nat (length (data r)) ->
  exists m, store n (data r) (p * Z.of_nat n) v = Ok m /\
            store_elem n r p v = Ok (with_data r m).
Proof.
  intros H1 H2. unfold store_elem, store_at.
  rewrite store_Ok by nia. eexists. split; reflexivity.
Qed.

Lemma fill_cell_step (i j : Z) (r : ndarray) :
  0 <= i < rows -> 0 <= j < cols ->
  filled_before n rows cols pos val r0 i j r ->
  exists r', body i j r = Ok r' /\
             filled_before n rows cols pos val r0 i (j + 1) r'.
Proof.
  intros Hi Hj [Hh Hcells].
  assert (Hlen : length (data r) = length (data r0))
    by (injection Hh as _ _ _ _ Hl; exact Hl).
  destruct (Hpos i j Hi Hj) as [Hp0 Hp1].
  rewrite Hbody by assumption.
  destruct (store_elem_Ok r (pos i j) (val i j)) as (m & Hst & ->); [lia..|].
  eexists. split; [reflexivity|]. split.
  - rewrite with_data_header; [exact Hh | apply (store_length _ _ _ _ _ Hst)].
  - intros i' j' Hi' Hj' Hord. simpl data. unfold load_at.
    destruct (Z.eq_dec (pos i' j') (pos i j)) as [E|E].
    + destruct (Hinj i' j' i j Hi' Hj' Hi Hj E) as [-> ->].
      apply (load_store_same _ _ _ _ _ Hn Hst).
    + rewrite (load_store_other _ _ _ _ _ _ _ Hst) by nia.
      apply Hcells; [assumption..|].
      destruct Hord as [?|[-> Hlt]]; [left; assumption|].
      right. split; [reflexivity|].
      destruct (Z.eq_dec j' j) as [->|?]; [contradiction|lia].
Qed.

(** The nested loop returns, keeps the header, and leaves [val i j] in
    cell [pos i j] for every [(i, j)]. *)
Lemma fill_cells :
  0 <= rows -> 0 <= cols ->
  exists r,
    for_up (Z.to_nat rows) 0
      (fun i r1 => for_up (Z.to_nat cols) 0 (fun j r2 => body i j r2) r1) r0
    = Ok r /\
    header r = header r0 /\
    forall i j, 0 <= i < rows -> 0 <= j < cols ->
      load_at n (data r) (pos i j) = Ok (fit n (val i j)).
Proof.
  intros Hrows Hcols.
  destruct (for_up_total (fun i r => filled_before n rows cols pos val r0 i 0 r)
              (fun i r1 => for_up (Z.to_nat cols) 0 (fun j r2 => body i j r2) r1)
              (Z.to_nat rows) 0 r0) as (r & Hrun & Hh & Hcells).
  - split; [reflexivity|]. intros; lia.
  - intros i t Hi Hinv.
    destruct (for_up_total (fun j r => filled_before n rows cols pos val r0 i j r)
                (fun j r2 => body i j r2) (Z.to_nat cols) 0 t)
      as (t' & Hrun' & Hh' & Hcells').
    + exact Hinv.
    + intros j u Hj Hu. apply fill_cell_step; [lia | lia | exact Hu].
    + exists t'. split; [exact Hrun'|]. split; [exact Hh'|].
      intros i' j' Hi' Hj' Hord. apply Hcells'; [assumption..|].
      destruct Hord as [?|[_ ?]]; [|lia].
      destruct (Z.eq_dec i' i) as [->|?]; [right; lia | left; lia].
  - exists r. split; [exact Hrun|]. split; [exact Hh|].
    intros i j Hi Hj. apply Hcells; [assumption..|]. left. lia.
Qed.

End FillCells.

(** ** Cells hold values of their width *)

Lemma defined_bytes_length (l : list memval) (bs : list byte) :
  defined_bytes l = Some bs -> length bs = length l.
Proof.
  revert bs. induction l as [|[|b] l IH]; intros bs H; simpl in H.
  - injection H as <-. reflexivity.
  - discriminate.
  - destruct (defined_bytes l) as [bs'|]; [|discriminate].
    injection H as <-. simpl. f_equal. apply IH. reflexivity.
Qed.

Lemma fit_decode (n : nat) (l : list memval) :
  length l = n -> fit n (decode l) = decode l.
Proof.
  intros Hl. unfold decode.
  destruct (defined_bytes l) as [bs|] eqn:E; [|reflexivity].
  apply fit_small. rewrite <- Hl, <- (defined_bytes_length _ _ E).
  apply int_of_bytes_range.
Qed.

Lemma fit_elem (n : nat) (m : list memval) (i : Z) :
  0 <= i -> (i + 1) * Z.of_nat n <= Z.of_nat (length m) ->
  fit n (elem n m i) = elem n m i.
Proof.
  intros H1 H2. apply fit_decode.
  rewrite length_take, length_drop. nia.
Qed.

Lemma row_col_unique (d i j i' j' : Z) :
  0 <= i < d -> 0 <= i' < d ->
  j * d + i = j' * d + i' -> i = i' /\ j = j'.
Proof.
  intros Hi Hi' E.
  assert (j = j') by (destruct (Z.lt_trichotomy j j') as [?|[?|?]]; nia).
  subst j'. lia.
Qed.

(** ** Transposition of double and float matrices *)

(** The element size of the two dtypes the copy loops handle. *)
Lemma handled_dtype_size (a : ndarray) :
  dtype a = "d"%char \/ dtype a = "f"%char ->
  exists n : nat,
    Z.of_nat n = calculate_type_size (dtype a) /\ (0 < n)%nat /\
    ((is_d a = true /\ n = 8%nat) \/
     (is_d a = false /\ is_f a = true /\ n = 4%nat)).
Proof.
  unfold is_d, is_f. intros [E|E]; rewrite E.
  - exists 8%nat. split; [reflexivity|]. split; [lia|]. left. auto.
  - exists 4%nat. split; [reflexivity|]. split; [lia|]. right. auto.
Qed.

Lemma ndarray_transpose_spec (a : ndarray) (n : nat) (d0 d1 : Z) :
  row_major_layout a -> buffer_fits a -> nd a = 2 ->
  dimensions a = [d0; d1] -> 0 <= d0 -> 0 <= d1 ->
  Z.of_nat n = calculate_type_size (dtype a) -> (0 < n)%nat ->
  (is_d a = true /\ n = 8%nat) \/
  (is_d a = false /\ is_f a = true /\ n = 4%nat) ->
  exists r,
    ndarray_transpose a = Ok (Some r) /\
    dimensions r = [d1; d0] /\ dtype r = dtype a /\ nd r = 2 /\
    row_major_layout r /\ buffer_fits r /\
    forall i j, 0 <= i < d0 -> 0 <= j < d1 ->
      load_at n (data r) (j * d0 + i) = Ok (elem n (data a) (i * d1 + j)).
Proof.
  intros Hlay Hbuf Hrank Hshape Hd0 Hd1 Hts Hn Htag.
  pose proof Hlay as (Hfit & Hld & _ & _ & Hdata).
  unfold buffer_fits in Hbuf. rewrite Hshape in Hbuf, Hdata.
  rewrite <- Hts in Hbuf, Hdata.
  change (prod [d0; d1]) with (d0 * (d1 * 1)) in Hbuf, Hdata.
  pose proof (wrap64_range (wrap64 (d0 * (d1 * 1)) * Z.of_nat n)) as Hw.
  assert (Hsmall : d0 * d1 * Z.of_nat n < two64) by lia.
  assert (Hfit2 : rank_fits_int 2) by (unfold rank_fits_int; lia).
  destruct (ndarray_create_spec [d1; d0] 2 (dtype a) Hfit2)
    as (r0 & Hc & Hrd & Hrn & Hrt & _ & _ & Hrdata); [simpl; lia|].
  change (take (Z.to_nat 2) [d1; d0]) with [d1; d0] in Hrd.
  pose proof (ndarray_create_layout _ _ _ _ Hfit2 Hc) as (Hlay0 & _).
  assert (Hlen0 : Z.of_nat (length (data r0)) = d0 * d1 * Z.of_nat n).
  { pose proof Hlay0 as (_ & _ & _ & _ & Hdl).
    rewrite Hdl, Hrd, Hrt, <- Hts.
    change (prod [d1; d0]) with (d1 * (d0 * 1)).
    pose proof (wrap64_range (wrap64 (d1 * (d0 * 1)) * Z.of_nat n)) as Hw'.
    destruct (Z.eq_dec (d0 * d1) 0) as [Hz|Hz].
    - replace (d1 * (d0 * 1)) with 0 by lia. rewrite Hz. reflexivity.
    - assert (0 <= d0 * d1) by nia.
      rewrite (wrap64_small (d1 * (d0 * 1))) by nia.
      rewrite wrap64_small by nia. lia. }
  destruct (fill_cells n d0 d1 (fun i j => j * d0 + i)
              (fun i j => elem n (data a) (i * d1 + j))
              (fun i j t2 =>
                 if is_d a then
                   do v <- load_at 8 (data a) (wrap64 (i * d1 + j));
                   store_elem 8 t2 (wrap64 (j * d0 + i)) v
                 else if is_f a then
                   do v <- load_at 4 (data a) (wrap64 (i * d1 + j));
                   store_elem 4 t2 (wrap64 (j * d0 + i)) v
                 else Ok t2)
              r0 Hn) as (r & Hrun & Hh & Hcells).
  - intros i j t Hi Hj.
    rewrite (wrap64_small (i * d1 + j)) by nia.
    rewrite (wrap64_small (j * d0 + i)) by nia.
    destruct Htag as [[-> ->]|(-> & -> & ->)];
      rewrite load_at_elem by nia; reflexivity.
  - intros i j Hi Hj.
    assert (j * d0 + i + 1 <= d1 * d0) by nia.
    split; [nia|]. rewrite Hlen0. nia.
  - intros i j i' j' Hi Hj Hi' Hj' E.
    apply (row_col_unique d0 i j i' j' Hi Hi' E).
  - exact Hd0.
  - exact Hd1.
  - exists r. injection Hh as Hhd Hhs Hhn Hht Hhl.
    split.
    { unfold ndarray_transpose. rewrite Hrank. simpl negb. cbv iota.
      unfold dim. rewrite Hshape.
      with_strategy opaque [ndarray_create for_up] simpl bind.
      rewrite Hc. simpl bind.
      rewrite Hrun. reflexivity. }
    split; [congruence|]. split; [congruence|]. split; [congruence|].
    split; [apply (row_major_layout_header r0);
            [unfold header; congruence | exact Hlay0]|].
    split.
    { unfold buffer_fits. rewrite Hhd, Hht, Hhl, Hrd, Hrt, <- Hts.
      change (prod [d1; d0]) with (d1 * (d0 * 1)). lia. }
    intros i j Hi Hj. rewrite (Hcells i j Hi Hj). f_equal.
    apply fit_elem; nia.
Qed.

(** ** The extents of a live array are [uint64_t] values *)

Lemma rd_Forall (P : Z -> Prop) (v : list Z) (i x : Z) :
  Forall P v -> rd v i = Ok x -> P x.
Proof.
  intros HP H. apply rd_Ok in H. destruct H as [_ H].
  apply (Forall_lookup_1 P v _ _ HP H).
Qed.

Lemma wr_Forall (P : Z -> Prop) (v v' : list Z) (i x : Z) :
  Forall P v -> P x -> wr v i x = Ok v' -> Forall P v'.
Proof.
  intros HP Hx H. apply wr_inv in H. destruct H as [_ ->].
  apply Forall_insert; assumption.
Qed.

Lemma fresh_vector_uint64 (n : Z) : Forall uint64 (fresh_vector n).
Proof. apply Forall_replicate. unfold uint64, two64. lia. Qed.

Lemma wrap64_uint64 (x : Z) : uint64 (wrap64 x).
Proof. apply wrap64_range. Qed.

Lemma header_dimensions (a b : ndarray) :
  header a = header b -> dimensions a = dimensions b.
Proof. intros [= H _ _ _ _]. exact H. Qed.

Lemma ndarray_create_extents (dims : list Z) (n : Z) (dt : ascii) (a : ndarray) :
  Forall uint64 dims ->
  ndarray_create dims n dt = Ok (Some a) ->
  Forall uint64 (dimensions a).
Proof.
  intros Hd H. unfold ndarray_create, copy_cells in H.
  destruct (Z.ltb_spec (Z.of_nat (length dims)) n); [discriminate|].
  simpl bind in H. repeat peel H. injection H as <-. simpl.
  apply Forall_take. exact Hd.
Qed.

Lemma result_or_create_extents (result : option ndarray) (a r : ndarray) :
  (forall r0, result = Some r0 -> Forall uint64 (dimensions r0)) ->
  Forall uint64 (dimensions a) ->
  result_or_create result a = Ok (Some r) ->
  Forall uint64 (dimensions r).
Proof.
  intros Hres Ha H. destruct result as [r0|]; simpl in H.
  - injection H as <-. apply Hres. reflexivity.
  - apply (ndarray_create_extents _ _ _ _ Ha H).
Qed.

Lemma ndarray_subsample_extents (rand : Z -> Z) (a r : ndarray) (n : Z) :
  Forall uint64 (dimensions a) -> uint64 n ->
  ndarray_subsample rand a n = Ok (Some r) ->
  Forall uint64 (dimensions r).
Proof.
  intros Ha Hn H.
  pose proof (ndarray_subsample_header rand a r n H)
    as (nds1 & nds & s & Hw & Hloop & Hc & Hh).
  rewrite (header_dimensions _ _ Hh).
  apply (ndarray_create_extents nds (nd a) (dtype a) s); [|exact Hc].
  revert Hloop. apply for_up_keeps.
  - apply (wr_Forall _ _ _ _ _ (fresh_vector_uint64 (nd a)) Hn Hw).
  - intros k t t' Ht Hb. inv_bind Hb.
    apply (wr_Forall _ _ _ _ _ Ht (rd_Forall _ _ _ _ Ha Hx) Hb).
Qed.

Lemma ndarray_concat_extents (a b r : ndarray) (axis : Z) :
  Forall uint64 (dimensions a) ->
  ndarray_concat a b axis = Ok (Some r) ->
  Forall uint64 (dimensions r).
Proof.
  intros Ha H.
  pose proof (ndarray_concat_header a b r axis H)
    as (nds & s & Hloop & Hc & Hh).
  rewrite (header_dimensions _ _ Hh).
  apply (ndarray_create_extents nds (nd a) (dtype a) s); [|exact Hc].
  revert Hloop. apply for_up_keeps.
  - apply fresh_vector_uint64.
  - intros k t t' Ht Hb. inv_bind Hb.
    destruct (k =? axis).
    + inv_bind Hb. apply (wr_Forall _ _ _ _ _ Ht (wrap64_uint64 _) Hb).
    + apply (wr_Forall _ _ _ _ _ Ht (rd_Forall _ _ _ _ Ha Hx) Hb).
Qed.

Lemma live_extents (a : ndarray) : live a -> Forall uint64 (dimensions a).
Proof.
  induction 1 as
    [ dims n dt a Hfit Hdims Hc
    | n a idx v a' z _ IH Hs
    | a idx p a' z _ IH Hs
    | a m _ IH Hm
    | a r _ IH Hr
    | result a b r _ IHres _ IHa _ _ Hr
    | result a b r _ IHres _ IHa _ _ Hr
    | tg a b r _ IHres _ IHa _ IHb _ Hr
    | result a b r _ IHres _ IHa _ _ Hr
    | result a b op r _ IHres _ IHa _ _ Hr
    | rand a n r _ IH Hn Hr
    | a b axis r _ IHa _ _ Hr ].
  - apply (ndarray_create_extents _ _ _ _ Hdims Hc).
  - apply set_scalar_header in Hs. destruct Hs as [Hh _].
    rewrite (header_dimensions _ _ Hh). exact IH.
  - apply ndarray_set_point_header in Hs. destruct Hs as [Hh _].
    rewrite (header_dimensions _ _ Hh). exact IH.
  - exact IH.
  - apply ndarray_transpose_header in Hr.
    destruct Hr as (d0 & d1 & t & H0 & H1 & Hc & Hh).
    rewrite (header_dimensions _ _ Hh).
    apply (ndarray_create_extents [d1; d0] 2 (dtype a) t); [|exact Hc].
    constructor; [exact (rd_Forall _ _ _ _ IH H1)|].
    constructor; [exact (rd_Forall _ _ _ _ IH H0) | constructor].
  - apply elementwise_header in Hr. destruct Hr as (r0 & Hc & Hh).
    rewrite (header_dimensions _ _ Hh).
    apply (result_or_create_extents result a r0 IHres IHa Hc).
  - apply elementwise_header in Hr. destruct Hr as (r0 & Hc & Hh).
    rewrite (header_dimensions _ _ Hh).
    apply (result_or_create_extents result a r0 IHres IHa Hc).
  - apply ndarray_dot_header in Hr. destruct Hr as (r0 & Hc & Hh).
    rewrite (header_dimensions _ _ Hh).
    apply (result_or_create_extents (supplied tg a b) a r0); [|exact IHa|exact Hc].
    intros r1 E. destruct tg; simpl in E; try discriminate;
      injection E as <-; auto.
  - apply ndarray_broadcast_add_header in Hr. destruct Hr as (r0 & Hc & Hh).
    rewrite (header_dimensions _ _ Hh).
    apply (result_or_create_extents result a r0 IHres IHa Hc).
  - apply ndarray_compare_header in Hr. destruct Hr as (r0 & Hc & Hh).
    rewrite (header_dimensions _ _ Hh).
    apply (result_or_create_extents result a r0 IHres IHa Hc).
  - apply (ndarray_subsample_extents rand a r n IH Hn Hr).
  - apply (ndarray_concat_extents a b r axis IHa Hr).
Qed.

Lemma is_d_dtype (a b : ndarray) : dtype a = dtype b -> is_d a = is_d b.
Proof. unfold is_d. intros ->. reflexivity. Qed.

Lemma is_f_dtype (a b : ndarray) : dtype a = dtype b -> is_f a = is_f b.
Proof. unfold is_f. intros ->. reflexivity. Qed.

Lemma rank2_extents (a : ndarray) (d0 d1 : Z) :
  Forall uint64 (dimensions a) -> dimensions a = [d0; d1] ->
  0 <= d0 /\ 0 <= d1.
Proof.
  intros H E. rewrite E in H.
  apply Forall_cons in H. destruct H as [[H0 _] H].
  apply Forall_cons in H. destruct H as [[H1 _] _]. auto.
Qed.

(** ** Subsampling of double and float matrices *)

Lemma bind_of_Ok {A B : Type} (m : res A) (a : A) (k : A -> res B) :
  m = Ok a -> bind m k = k a.
Proof. intros ->. reflexivity. Qed.

(** Running one step whose outcome is known. *)
Ltac run H := rewrite (bind_of_Ok _ _ _ H); cbv beta.

(** The first loop writes the identity. *)
Lemma identity_indices (d0 : Z) :
  0 <= d0 ->
  for_up (Z.to_nat d0) 0 (fun i v => wr v i i) (fresh_vector d0)
  = Ok (seqZ 0 d0).
Proof.
  intros Hd0.
  destruct (for_up_total
              (fun i v => length v = Z.to_nat d0 /\
                          forall p, (p < Z.to_nat i)%nat ->
                                    v !! p = Some (Z.of_nat p))
              (fun i v => wr v i i) (Z.to_nat d0) 0 (fresh_vector d0))
    as (v & Hrun & Hlen & Hcells).
  - split; [apply length_replicate|]. intros p Hp. simpl in Hp. lia.
  - intros k t Hk [Hlen Hcells].
    rewrite wr_Ok by lia. eexists. split; [reflexivity|].
    split; [rewrite length_insert; exact Hlen|].
    intros p Hp. destruct (decide (p = Z.to_nat k)) as [->|Hne].
    + rewrite list_lookup_insert_eq by lia. f_equal. lia.
    + rewrite list_lookup_insert_ne by congruence. apply Hcells. lia.
  - rewrite Hrun. f_equal. apply list_eq. intros p.
    destruct (decide (p < Z.to_nat d0)%nat) as [Hp|Hp].
    + rewrite Hcells by lia. rewrite lookup_seqZ_lt by lia. f_equal.
    + rewrite lookup_ge_None_2 by lia.
      rewrite lookup_seqZ_ge by lia. reflexivity.
Qed.

Lemma exchanged_inj (i j p q : nat) :
  exchanged i j p = exchanged i j q -> p = q.
Proof. unfold exchanged. repeat case_decide; congruence. Qed.

Lemma lookup_exchange (v : list Z) (i j p : nat) (x y : Z) :
  v !! i = Some x -> v !! j = Some y ->
  <[j := x]> (<[i := y]> v) !! p = v !! exchanged i j p.
Proof.
  intros Hi Hj. unfold exchanged.
  pose proof (lookup_lt_Some _ _ _ Hi). pose proof (lookup_lt_Some _ _ _ Hj).
  destruct (decide (p = j)) as [->|Hpj].
  - rewrite list_lookup_insert_eq by (rewrite length_insert; lia).
    symmetry. exact Hi.
  - rewrite list_lookup_insert_ne by congruence.
    destruct (decide (p = i)) as [->|Hpi].
    + rewrite list_lookup_insert_eq by lia. symmetry. exact Hj.
    + rewrite list_lookup_insert_ne by congruence. reflexivity.
Qed.

(** One exchange keeps the vector a rearrangement of the row indices. *)
Lemma exchange_row_indices (d0 : Z) (v : list Z) (i j : Z) :
  row_indices d0 v -> 0 <= i < d0 -> 0 <= j < d0 ->
  exists w,
    (do temp <- rd v i;
     do vj <- rd v j;
     do v1 <- wr v i vj;
     wr v1 j temp) = Ok w /\
    row_indices d0 w.
Proof.
  intros (Hlen & Hnd & Hall) Hi Hj.
  destruct (lookup_lt_is_Some_2 v (Z.to_nat i)) as [x Hx]; [lia|].
  destruct (lookup_lt_is_Some_2 v (Z.to_nat j)) as [y Hy]; [lia|].
  rewrite (proj2 (rd_Ok _ _ _) (conj (proj1 Hi) Hx)). simpl bind.
  rewrite (proj2 (rd_Ok _ _ _) (conj (proj1 Hj) Hy)). simpl bind.
  rewrite wr_Ok by lia. simpl bind.
  rewrite wr_Ok by (rewrite length_insert; lia).
  eexists. split; [reflexivity|]. split; [|split].
  - rewrite !length_insert. exact Hlen.
  - apply NoDup_alt. intros p q z Hp Hq.
    rewrite (lookup_exchange v _ _ p x y Hx Hy) in Hp.
    rewrite (lookup_exchange v _ _ q x y Hx Hy) in Hq.
    apply (exchanged_inj (Z.to_nat i) (Z.to_nat j)).
    apply (proj1 (NoDup_alt v) Hnd _ _ z Hp Hq).
  - apply Forall_insert; [apply Forall_insert; [exact Hall|]|].
    + apply (Forall_lookup_1 _ _ _ _ Hall Hy).
    + apply (Forall_lookup_1 _ _ _ _ Hall Hx).
Qed.

(** The shuffle returns a rearrangement of the row indices, whatever the
    random numbers are. *)
Lemma shuffle_row_indices (rand : Z -> Z) (d0 : Z) :
  0 <= d0 ->
  exists v,
    for_up (Z.to_nat d0) 0
      (fun i v =>
         let j := wrap64 (rand i) mod d0 in
         do temp <- rd v i;
         do vj <- rd v j;
         do v1 <- wr v i vj;
         wr v1 j temp)
      (seqZ 0 d0) = Ok v /\
    row_indices d0 v.
Proof.
  intros Hd0.
  match goal with
  | |- exists v, for_up _ _ ?body _ = _ /\ _ =>
      destruct (for_up_total (fun _ v => row_indices d0 v) body
                  (Z.to_nat d0) 0 (seqZ 0 d0)) as (v & Hrun & Hv)
  end.
  - split; [apply length_seqZ|]. split; [apply NoDup_seqZ|].
    apply Forall_forall. intros k Hk. apply elem_of_seqZ in Hk. lia.
  - intros k t Hk Ht. cbv zeta.
    apply (exchange_row_indices d0 t k _ Ht); [lia|].
    apply Z.mod_pos_bound. lia.
  - exists v. split; [exact Hrun | exact Hv].
Qed.

Lemma ndarray_subsample_spec (rand : Z -> Z) (a : ndarray) (n_samples : Z)
    (n : nat) (d0 d1 : Z) :
  row_major_layout a -> buffer_fits a -> nd a = 2 ->
  dimensions a = [d0; d1] -> 0 <= d0 -> 0 <= d1 ->
  Z.of_nat n = calculate_type_size (dtype a) -> (0 < n)%nat ->
  (is_d a = true /\ n = 8%nat) \/
  (is_d a = false /\ is_f a = true /\ n = 4%nat) ->
  0 <= n_samples <= d0 -> d0 < 2 ^ 61 ->
  exists r rows,
    ndarray_subsample rand a n_samples = Ok (Some r) /\
    dimensions r = [n_samples; d1] /\ dtype r = dtype a /\
    length rows = Z.to_nat n_samples /\
    NoDup rows /\ Forall (fun k => 0 <= k < d0) rows /\
    forall i j, 0 <= i < n_samples -> 0 <= j < d1 ->
      exists k, rows !! Z.to_nat i = Some k /\
                load_at n (data r) (i * d1 + j)
                = Ok (elem n (data a) (k * d1 + j)).
Proof.
  intros Hlay Hbuf Hrank Hshape Hd0 Hd1 Hts Hn Htag Hns Hrows.
  pose proof Hlay as (Hfit & Hld & _ & _ & Hdata).
  unfold buffer_fits in Hbuf. rewrite Hshape in Hbuf, Hdata.
  rewrite <- Hts in Hbuf, Hdata.
  change (prod [d0; d1]) with (d0 * (d1 * 1)) in Hbuf, Hdata.
  pose proof (wrap64_range (wrap64 (d0 * (d1 * 1)) * Z.of_nat n)) as Hw.
  assert (Hsmall : d0 * d1 * Z.of_nat n < two64) by lia.
  assert (Hdim0 : dim a 0 = Ok d0) by (unfold dim; rewrite Hshape; reflexivity).
  assert (Hdim1 : dim a 1 = Ok d1) by (unfold dim; rewrite Hshape; reflexivity).
  (* the block of the index vector has [d0] cells *)
  assert (Hblock : wrap64 (d0 * 8) / 8 = d0).
  { rewrite wrap64_small by (unfold two64; lia). apply Z.div_mul. lia. }
  (* the output array *)
  assert (Hfit2 : rank_fits_int 2) by (unfold rank_fits_int; lia).
  destruct (ndarray_create_spec [n_samples; d1] 2 (dtype a) Hfit2)
    as (r0 & Hc & Hrd & Hrn & Hrt & _ & _ & Hrdata); [simpl; lia|].
  change (take (Z.to_nat 2) [n_samples; d1]) with [n_samples; d1] in Hrd.
  assert (Hlen0 : Z.of_nat (length (data r0)) = n_samples * d1 * Z.of_nat n).
  { rewrite Hrdata, Hrd, <- Hts. unfold malloc. rewrite length_replicate.
    change (prod [n_samples; d1]) with (n_samples * (d1 * 1)).
    assert (n_samples * d1 <= d0 * d1) by nia.
    assert (0 <= n_samples * d1) by nia.
    destruct (Z.eq_dec (n_samples * d1) 0) as [Hz|Hz].
    - replace (n_samples * (d1 * 1)) with 0 by lia. rewrite Hz. reflexivity.
    - rewrite (wrap64_small (n_samples * (d1 * 1))) by nia.
      rewrite wrap64_small by nia. lia. }
  (* the index vector *)
  destruct (shuffle_row_indices rand d0 Hd0) as (v & Hshuffle & Hv).
  destruct Hv as (Hvlen & Hvnd & Hvall).
  (* the copy loop *)
  set (val := fun i j : Z =>
                match v !! Z.to_nat i with
                | Some k => elem n (data a) (k * d1 + j)
                | None => None
                end).
  destruct (fill_cells n n_samples d1 (fun i j => i * d1 + j) val
              (fun i j s2 =>
                 if is_d a then
                   do k <- rd v i;
                   do x <- load_at 8 (data a) (wrap64 (k * d1 + j));
                   store_elem 8 s2 (wrap64 (i * d1 + j)) x
                 else if is_f a then
                   do k <- rd v i;
                   do x <- load_at 4 (data a) (wrap64 (k * d1 + j));
                   store_elem 4 s2 (wrap64 (i * d1 + j)) x
                 else Ok s2)
              r0 Hn) as (r & Hrun & Hh & Hcells).
  - intros i j t Hi Hj. unfold val.
    destruct (lookup_lt_is_Some_2 v (Z.to_nat i)) as [k Hk]; [lia|].
    pose proof (Forall_lookup_1 _ _ _ _ Hvall Hk) as Hkr. simpl in Hkr.
    rewrite Hk, (proj2 (rd_Ok _ _ _) (conj (proj1 Hi) Hk)).
    destruct Htag as [[-> ->]|(-> & -> & ->)]; simpl bind;
      rewrite (wrap64_small (k * d1 + j)) by nia;
      rewrite (wrap64_small (i * d1 + j)) by nia;
      rewrite load_at_elem by nia; reflexivity.
  - intros i j Hi Hj.
    assert (i * d1 + j + 1 <= n_samples * d1) by nia.
    split; [nia|]. rewrite Hlen0. nia.
  - intros i j i' j' Hi Hj Hi' Hj' E.
    destruct (row_col_unique d1 j i j' i' Hj Hj' E) as [-> ->]. auto.
  - lia.
  - exact Hd1.
  - exists r, (take (Z.to_nat n_samples) v).
    injection Hh as Hhd Hhs Hhn Hht Hhl.
    split.
    { unfold ndarray_subsample. run Hdim0.
      destruct (Z.ltb_spec d0 n_samples) as [?|_]; [lia|].
      rewrite Hrank.
      assert (Hw1 : wr (fresh_vector 2) 0 n_samples = Ok [n_samples; 0])
        by reflexivity.
      run Hw1.
      assert (Hw2 : for_up (Z.to_nat (2 - 1)) 1
                      (fun i v => do d <- dim a i; wr v i d) [n_samples; 0]
                    = Ok [n_samples; d1])
        by (simpl; rewrite Hdim1; reflexivity).
      run Hw2. run Hc. rewrite Hblock.
      run (identity_indices d0 Hd0). run Hshuffle.
      match goal with
      | |- bind (for_up ?cnt ?i0 ?f r0) _ = _ =>
          rewrite (for_up_body_ext f
                     (fun i r1 =>
                        for_up (Z.to_nat d1) 0
                          (fun j s2 =>
                             if is_d a then
                               do k <- rd v i;
                               do x <- load_at 8 (data a) (wrap64 (k * d1 + j));
                               store_elem 8 s2 (wrap64 (i * d1 + j)) x
                             else if is_f a then
                               do k <- rd v i;
                               do x <- load_at 4 (data a) (wrap64 (k * d1 + j));
                               store_elem 4 s2 (wrap64 (i * d1 + j)) x
                             else Ok s2)
                          r1)
                     cnt i0 r0)
      end.
      - rewrite Hrun. reflexivity.
      - intros k t _. run Hdim1. reflexivity. }
    split; [congruence|]. split; [congruence|].
    split; [rewrite length_take; lia|].
    split; [apply (sublist_NoDup _ v Hvnd (sublist_take v _))|].
    split; [apply Forall_take; exact Hvall|].
    intros i j Hi Hj.
    destruct (lookup_lt_is_Some_2 v (Z.to_nat i)) as [k Hk]; [lia|].
    pose proof (Forall_lookup_1 _ _ _ _ Hvall Hk) as Hkr. simpl in Hkr.
    exists k. split; [rewrite lookup_take_lt by lia; exact Hk|].
    rewrite (Hcells i j Hi Hj). unfold val. rewrite Hk. f_equal.
    apply fit_elem; nia.
Qed.

(** ** The matrix product of double and float matrices *)

(** A loop whose body only computes is the iteration of its step. *)
Lemma for_up_accumulate (step : Z -> scalar -> scalar)
    (body : Z -> scalar -> res scalar) :
  forall (n : nat) (k0 : Z) (s : scalar),
    (forall k t, k0 <= k < k0 + Z.of_nat n -> body k t = Ok (step k t)) ->
    for_up n k0 body s = Ok (accumulate step n k0 s).
Proof.
  induction n as [|n IH]; intros k0 s H; simpl; [reflexivity|].
  rewrite H by lia. simpl bind. apply IH. intros k t Hk. apply H. lia.
Qed.

Lemma fit_lift1 (n : nat) (f : Z -> Z) (x : scalar) :
  (forall u, 0 <= f u < 256 ^ Z.of_nat n) -> fit n (lift1 f x) = lift1 f x.
Proof. intros Hf. destruct x as [u|]; [apply fit_small, Hf | reflexivity]. Qed.

Lemma fit_accumulate (w : nat) (step : Z -> scalar -> scalar) :
  (forall k s, fit w (step k s) = step k s) ->
  forall (n : nat) (k0 : Z) (s : scalar),
    fit w s = s -> fit w (accumulate step n k0 s) = accumulate step n k0 s.
Proof.
  intros Hstep. induction n as [|n IH]; intros k0 s Hs; simpl; [exact Hs|].
  apply IH, Hstep.
Qed.

Lemma fit_dot_cell (a b : ndarray) (n : nat) (inner cols i j : Z) :
  (is_d a = true /\ n = 8%nat) \/
  (is_d a = false /\ is_f a = true /\ n = 4%nat) ->
  fit n (dot_cell a b inner cols i j) = dot_cell a b inner cols i j.
Proof.
  unfold dot_cell. intros [[-> ->]|(-> & _ & ->)].
  - apply fit_accumulate.
    + intros k s. apply fit_lift2. intros u v. apply result64_range.
    + reflexivity.
  - apply fit_lift1. intros u. apply result32_range.
Qed.

Lemma ndarray_dot_spec (result : option ndarray) (a b r0 : ndarray) (n : nat)
    (m inner cols : Z) :
  row_major_layout a -> row_major_layout b ->
  buffer_fits a -> buffer_fits b ->
  nd a = 2 -> nd b = 2 -> dtype b = dtype a ->
  dimensions a = [m; inner] -> dimensions b = [inner; cols] ->
  0 <= m -> 0 <= inner -> 0 <= cols ->
  Z.of_nat n = calculate_type_size (dtype a) -> (0 < n)%nat ->
  (is_d a = true /\ n = 8%nat) \/
  (is_d a = false /\ is_f a = true /\ n = 4%nat) ->
  result_or_create result a = Ok (Some r0) ->
  m * cols * Z.of_nat n <= Z.of_nat (length (data r0)) < two64 ->
  exists r,
    ndarray_dot (unaliased result) a b = Ok (Some r) /\
    header r = header r0 /\
    forall i j, 0 <= i < m -> 0 <= j < cols ->
      load_at n (data r) (i * cols + j) = Ok (dot_cell a b inner cols i j).
Proof.
  intros Hla Hlb Hba Hbb Hra Hrb Hdt Hsa Hsb Hm Hin Hcols Hts Hn Htag Hres Hlen.
  unfold buffer_fits in Hba, Hbb.
  rewrite Hsa, <- Hts in Hba. rewrite Hsb, Hdt, <- Hts in Hbb.
  change (prod [m; inner]) with (m * (inner * 1)) in Hba.
  change (prod [inner; cols]) with (inner * (cols * 1)) in Hbb.
  assert (Ha0 : dim a 0 = Ok m) by (unfold dim; rewrite Hsa; reflexivity).
  assert (Ha1 : dim a 1 = Ok inner) by (unfold dim; rewrite Hsa; reflexivity).
  assert (Hb0 : dim b 0 = Ok inner) by (unfold dim; rewrite Hsb; reflexivity).
  assert (Hb1 : dim b 1 = Ok cols) by (unfold dim; rewrite Hsb; reflexivity).
  assert (Hsmall_a : m * inner * Z.of_nat n < two64).
  { destruct Hla as (_ & _ & _ & _ & Hd).
    pose proof (wrap64_range (wrap64 (prod (dimensions a))
                              * calculate_type_size (dtype a))). lia. }
  assert (Hsmall_b : inner * cols * Z.of_nat n < two64).
  { destruct Hlb as (_ & _ & _ & _ & Hd).
    pose proof (wrap64_range (wrap64 (prod (dimensions b))
                              * calculate_type_size (dtype b))). lia. }
  set (body := fun (i j : Z) (r2 : ndarray) =>
         do sum <- for_up (Z.to_nat inner) 0
                     (fun k (sum : scalar) =>
                        if is_d a then
                          do x <- load_at 8 (data a) (wrap64 (i * inner + k));
                          do y <- load_at 8 (data b) (wrap64 (k * cols + j));
                          Ok (lift2 IEEE.double_add sum
                                (lift2 IEEE.double_mul x y))
                        else if is_f a then
                          do x <- load_at 4 (data a) (wrap64 (i * inner + k));
                          do y <- load_at 4 (data b) (wrap64 (k * cols + j));
                          Ok (lift2 IEEE.double_add sum
                                (lift1 IEEE.double_of_float
                                   (lift2 IEEE.float_mul x y)))
                        else Ok sum)
                     (Some IEEE.zero);
         if is_d a then store_elem 8 r2 (wrap64 (i * cols + j)) sum
         else if is_f a then
           store_elem 4 r2 (wrap64 (i * cols + j))
             (lift1 IEEE.float_of_double sum)
         else Ok r2).
  destruct (fill_cells n m cols (fun i j => i * cols + j)
              (fun i j => dot_cell a b inner cols i j) body r0 Hn)
    as (r & Hrun & Hh & Hcells).
  - intros i j t Hi Hj. unfold body, dot_cell.
    rewrite (wrap64_small (i * cols + j)) by nia.
    destruct Htag as [[Hd ->]|(Hd & Hf & ->)]; rewrite Hd; try rewrite Hf.
    + erewrite for_up_accumulate; [reflexivity|].
      intros k s Hk. cbv beta.
      rewrite (wrap64_small (i * inner + k)) by nia.
      rewrite (wrap64_small (k * cols + j)) by nia.
      rewrite !load_at_elem by nia. reflexivity.
    + erewrite for_up_accumulate; [reflexivity|].
      intros k s Hk. cbv beta.
      rewrite (wrap64_small (i * inner + k)) by nia.
      rewrite (wrap64_small (k * cols + j)) by nia.
      rewrite !load_at_elem by nia. reflexivity.
  - intros i j Hi Hj.
    assert (i * cols + j + 1 <= m * cols) by nia.
    split; nia.
  - intros i j i' j' Hi Hj Hi' Hj' E.
    destruct (row_col_unique cols j i j' i' Hj Hj' E) as [-> ->]. auto.
  - exact Hm.
  - exact Hcols.
  - exists r. split; [|split; [exact Hh|]].
    + destruct result as [out|];
        (unfold ndarray_dot; cbn [unaliased supplied first_data second_data];
         rewrite Hra, Hrb, Hdt, Ascii.eqb_refl;
         simpl negb; cbv iota; run Ha1; run Hb0; rewrite Z.eqb_refl;
         simpl negb; cbv iota; run Hres; run Ha0;
         match goal with
         | |- bind (for_up ?cnt ?i0 ?f r0) _ = _ =>
             rewrite (for_up_body_ext f
                        (fun i r1 =>
                           for_up (Z.to_nat cols) 0
                             (fun j r2 => body i j r2) r1)
                        cnt i0 r0);
               [ rewrite Hrun; reflexivity
               | intros k t _; run Hb1; reflexivity ]
         end).
    + intros i j Hi Hj. rewrite (Hcells i j Hi Hj). f_equal.
      apply (fit_dot_cell a b n inner cols i j Htag).
Qed.

Lemma live_buffer_bound (a : ndarray) :
  row_major_layout a -> Z.of_nat (length (data a)) < two64.
Proof.
  intros (_ & _ & _ & _ & Hd). rewrite Hd.
  pose proof (wrap64_range (wrap64 (prod (dimensions a))
                            * calculate_type_size (dtype a))). lia.
Qed.

(** ** Zero-padded addition of double and float matrices *)

Lemma broadcast_operand_value (x : ndarray) (n : nat) (x0 x1 i j : Z) :
  dimensions x = [x0; x1] -> 0 <= x0 -> 0 <= x1 ->
  Z.of_nat (length (data x)) = x0 * x1 * Z.of_nat n ->
  x0 * x1 * Z.of_nat n < two64 ->
  (is_d x = true /\ n = 8%nat) \/ (is_d x = false /\ n = 4%nat) ->
  0 <= i -> 0 <= j ->
  broadcast_operand x i j = Ok (operand_value x x0 x1 i j).
Proof.
  intros Hs H0 H1 Hlen Hsmall Htag Hi Hj.
  assert (Hd0 : dim x 0 = Ok x0) by (unfold dim; rewrite Hs; reflexivity).
  assert (Hd1 : dim x 1 = Ok x1) by (unfold dim; rewrite Hs; reflexivity).
  unfold broadcast_operand, operand_value. run Hd0.
  destruct (Z.ltb_spec i x0) as [Hlt|Hge]; simpl negb; cbv iota;
    [|reflexivity].
  run Hd1.
  destruct (Z.ltb_spec j x1) as [Hlt'|Hge']; simpl negb; simpl andb; cbv iota;
    [|reflexivity].
  rewrite (wrap64_small (i * x1 + j)) by nia.
  destruct Htag as [[-> ->]|[-> ->]].
  - apply load_at_elem; nia.
  - rewrite load_at_elem by nia. reflexivity.
Qed.

Lemma fit_broadcast_cell (a b : ndarray) (n : nat) (a0 a1 b0 b1 i j : Z) :
  (is_d a = true /\ n = 8%nat) \/
  (is_d a = false /\ is_f a = true /\ n = 4%nat) ->
  fit n (broadcast_cell a b a0 a1 b0 b1 i j) = broadcast_cell a b a0 a1 b0 b1 i j.
Proof.
  unfold broadcast_cell. intros [[-> ->]|(-> & _ & ->)].
  - apply fit_lift2. intros u v. apply result64_range.
  - apply fit_lift1. intros u. apply result32_range.
Qed.

Lemma ndarray_broadcast_add_spec (result : option ndarray) (a b r0 : ndarray)
    (n : nat) (a0 a1 b0 b1 : Z) :
  row_major_layout a -> row_major_layout b ->
  buffer_fits a -> buffer_fits b ->
  nd a = 2 -> nd b = 2 -> dtype b = dtype a ->
  dimensions a = [a0; a1] -> dimensions b = [b0; b1] ->
  0 <= a0 -> 0 <= a1 -> 0 <= b0 -> 0 <= b1 ->
  Z.of_nat n = calculate_type_size (dtype a) -> (0 < n)%nat ->
  (is_d a = true /\ n = 8%nat) \/
  (is_d a = false /\ is_f a = true /\ n = 4%nat) ->
  result_or_create result a = Ok (Some r0) ->
  Z.max a0 b0 * Z.max a1 b1 * Z.of_nat n
  <= Z.of_nat (length (data r0)) < two64 ->
  exists r,
    ndarray_broadcast_add result a b = Ok (Some r) /\
    header r = header r0 /\
    forall i j, 0 <= i < Z.max a0 b0 -> 0 <= j < Z.max a1 b1 ->
      load_at n (data r) (i * Z.max a1 b1 + j)
      = Ok (broadcast_cell a b a0 a1 b0 b1 i j).
Proof.
  intros Hla Hlb Hba Hbb Hra Hrb Hdt Hsa Hsb Ha0 Ha1 Hb0 Hb1 Hts Hn Htag
    Hres Hlen.
  unfold buffer_fits in Hba, Hbb.
  rewrite Hsa, <- Hts in Hba. rewrite Hsb, Hdt, <- Hts in Hbb.
  change (prod [a0; a1]) with (a0 * (a1 * 1)) in Hba.
  change (prod [b0; b1]) with (b0 * (b1 * 1)) in Hbb.
  pose proof (live_buffer_bound a Hla) as Hsmall_a.
  pose proof (live_buffer_bound b Hlb) as Hsmall_b.
  assert (Hda0 : dim a 0 = Ok a0) by (unfold dim; rewrite Hsa; reflexivity).
  assert (Hda1 : dim a 1 = Ok a1) by (unfold dim; rewrite Hsa; reflexivity).
  assert (Hdb0 : dim b 0 = Ok b0) by (unfold dim; rewrite Hsb; reflexivity).
  assert (Hdb1 : dim b 1 = Ok b1) by (unfold dim; rewrite Hsb; reflexivity).
  assert (Htag_a : (is_d a = true /\ n = 8%nat) \/ (is_d a = false /\ n = 4%nat))
    by (destruct Htag as [?|(? & _ & ?)]; auto).
  assert (Htag_b : (is_d b = true /\ n = 8%nat) \/ (is_d b = false /\ n = 4%nat))
    by (rewrite (is_d_dtype b a Hdt); exact Htag_a).
  set (rows := Z.max a0 b0) in *. set (cols := Z.max a1 b1) in *.
  assert (Hrows : (if b0 <? a0 then a0 else b0) = rows)
    by (unfold rows; destruct (Z.ltb_spec b0 a0); lia).
  assert (Hcols : (if b1 <? a1 then a1 else b1) = cols)
    by (unfold cols; destruct (Z.ltb_spec b1 a1); lia).
  set (body := fun (i j : Z) (r2 : ndarray) =>
         do val_a <- broadcast_operand a i j;
         do val_b <- broadcast_operand b i j;
         if is_d a then
           store_elem 8 r2 (wrap64 (i * cols + j))
             (lift2 IEEE.double_add val_a val_b)
         else if is_f a then
           store_elem 4 r2 (wrap64 (i * cols + j))
             (lift1 IEEE.float_of_double (lift2 IEEE.double_add val_a val_b))
         else Ok r2).
  destruct (fill_cells n rows cols (fun i j => i * cols + j)
              (fun i j => broadcast_cell a b a0 a1 b0 b1 i j) body r0 Hn)
    as (r & Hrun & Hh & Hcells).
  - intros i j t Hi Hj. unfold body, broadcast_cell.
    rewrite (broadcast_operand_value a n a0 a1 i j Hsa Ha0 Ha1) by (lia || assumption).
    rewrite (broadcast_operand_value b n b0 b1 i j Hsb Hb0 Hb1) by (lia || assumption).
    simpl bind. rewrite (wrap64_small (i * cols + j)) by nia.
    destruct Htag as [[-> ->]|(-> & -> & ->)]; reflexivity.
  - intros i j Hi Hj.
    assert (i * cols + j + 1 <= rows * cols) by nia.
    split; nia.
  - intros i j i' j' Hi Hj Hi' Hj' E.
    destruct (row_col_unique cols j i j' i' Hj Hj' E) as [-> ->]. auto.
  - lia.
  - lia.
  - exists r. split; [|split; [exact Hh|]].
    + unfold ndarray_broadcast_add. rewrite Hra, Hrb, Hdt, Ascii.eqb_refl.
      simpl negb. cbv iota. run Hda0. run Hdb0. cbv zeta.
      run Hda1. run Hdb1. cbv zeta. run Hres. rewrite Hrows, Hcols.
      unfold body in Hrun. rewrite Hrun. reflexivity.
    + intros i j Hi Hj. rewrite (Hcells i j Hi Hj). f_equal.
      apply (fit_broadcast_cell a b n a0 a1 b0 b1 i j Htag).
Qed.

Ltac live_by dims fresh fills :=
  apply (created_and_filled dims 2 "d"%char fresh _ fills);
  [ unfold rank_fits_int; lia
  | repeat constructor; unfold uint64, two64; lia
  | reflexivity
  | reflexivity ].

Lemma live_m23_1_6 : live m23_1_6.
Proof.
  live_by [2; 3] fresh_2x3
    [([0; 0], 1); ([0; 1], 2); ([0; 2], 3);
     ([1; 0], 4); ([1; 1], 5); ([1; 2], 6)].
Qed.

Lemma live_m22_1_4 : live m22_1_4.
Proof.
  live_by [2; 2]
    {| data := malloc 32; dimensions := [2; 2]; strides := [16; 8];
       nd := 2; dtype := "d"%char |}
    [([0; 0], 1); ([0; 1], 2); ([1; 0], 3); ([1; 1], 4)].
Qed.

Lemma live_m22_5_8 : live m22_5_8.
Proof.
  live_by [2; 2]
    {| data := malloc 32; dimensions := [2; 2]; strides := [16; 8];
       nd := 2; dtype := "d"%char |}
    [([0; 0], 5); ([0; 1], 6); ([1; 0], 7); ([1; 1], 8)].
Qed.

Lemma live_one_5 : live one_5.
Proof.
  live_by [1; 1]
    {| data := malloc 8; dimensions := [1; 1]; strides := [8; 8];
       nd := 2; dtype := "d"%char |}
    [([0; 0], 5)].
Qed.

Lemma live_col_3_4 : live col_3_4.
Proof.
  live_by [2; 1]
    {| data := malloc 16; dimensions := [2; 1]; strides := [8; 8];
       nd := 2; dtype := "d"%char |}
    [([0; 0], 3); ([1; 0], 4)].
Qed.

(** ** Row-major positions *)

Lemma offset_sum_flat (ts : Z) (ds xs : list Z) :
  offset_sum (exact_strides ts ds) xs = flat_index ds xs * ts.
Proof.
  revert xs. induction ds as [|d ds IH]; intros [|x xs]; simpl; try lia.
  rewrite IH. ring.
Qed.

Lemma flat_index_bound (ds xs : list Z) :
  all_below ds xs = true -> 0 <= flat_index ds xs < prod ds.
Proof.
  revert xs. induction ds as [|d ds IH]; intros [|x xs] H;
    try discriminate H; [simpl; unfold prod; simpl; lia|].
  apply all_below_inv in H. destruct H as [Hx H].
  specialize (IH xs H). simpl flat_index.
  change (prod (d :: ds)) with (d * prod ds). nia.
Qed.

Lemma flat_index_inj (ds xs ys : list Z) :
  all_below ds xs = true -> all_below ds ys = true ->
  flat_index ds xs = flat_index ds ys -> xs = ys.
Proof.
  revert xs ys. induction ds as [|d ds IH]; intros [|x xs] [|y ys] Hx Hy E;
    try discriminate Hx; try discriminate Hy; [reflexivity|].
  apply all_below_inv in Hx. destruct Hx as [Hx Hxs].
  apply all_below_inv in Hy. destruct Hy as [Hy Hys].
  pose proof (flat_index_bound _ _ Hxs) as Bx.
  pose proof (flat_index_bound _ _ Hys) as By.
  simpl in E.
  assert (x = y) by nia. subst y.
  f_equal. apply IH; [assumption..|lia].
Qed.

Lemma get_point_flat (a : ndarray) (idx : list Z) :
  row_major_layout a -> buffer_fits a -> in_range a idx = true ->
  ndarray_get_point a idx
  = Ok (flat_index (dimensions a) idx * calculate_type_size (dtype a)).
Proof.
  intros Hlay Hbuf Hidx.
  destruct (point_offset_in_range a idx Hlay Hbuf Hidx) as (Hoff & _ & _).
  unfold ndarray_get_point. rewrite Hoff.
  rewrite (strides_exact a idx Hlay Hbuf Hidx), offset_sum_flat. reflexivity.
Qed.

Lemma splice_lookup_other (m mid : list memval) (p w j : nat) :
  length mid = w -> (p + w <= length m)%nat ->
  (j < p \/ p + w <= j)%nat ->
  (take p m ++ mid ++ drop (p + w) m) !! j = m !! j.
Proof.
  intros Hmid Hin Hj.
  assert (Hlt : length (take p m) = p) by (rewrite length_take; lia).
  destruct Hj as [Hj|Hj].
  - rewrite lookup_app_l by lia. apply lookup_take_lt. exact Hj.
  - rewrite lookup_app_r by lia. rewrite Hlt.
    rewrite lookup_app_r by lia.
    rewrite Hmid, lookup_drop. f_equal. lia.
Qed.

Lemma splice_cell_other (m mid : list memval) (p w q n : nat) :
  length mid = w -> (p + w <= length m)%nat ->
  (q + n <= p \/ p + w <= q)%nat ->
  take n (drop q (take p m ++ mid ++ drop (p + w) m)) = take n (drop q m).
Proof.
  intros Hmid Hin Hq. apply list_eq. intros i.
  destruct (decide (i < n)%nat) as [Hi|Hi].
  - rewrite !lookup_take_lt by exact Hi. rewrite !lookup_drop.
    apply splice_lookup_other; [assumption..|lia].
  - rewrite !lookup_take_ge by lia. reflexivity.
Qed.

(** Two distinct in-range indices address disjoint elements. *)
Lemma distinct_elements_disjoint (a : ndarray) (idx idx' : list Z) :
  row_major_layout a -> buffer_fits a ->
  in_range a idx = true -> in_range a idx' = true -> idx' <> idx ->
  let ts := calculate_type_size (dtype a) in
  exists p p',
    point_offset a idx = Ok p /\ point_offset a idx' = Ok p' /\
    0 <= p /\ p + ts <= Z.of_nat (length (data a)) /\
    0 <= p' /\ p' + ts <= Z.of_nat (length (data a)) /\
    (p' + ts <= p \/ p + ts <= p').
Proof.
  intros Hlay Hbuf Hidx Hidx' Hne ts.
  pose proof (calculate_type_size_range (dtype a)) as Hts. fold ts in Hts.
  destruct (point_offset_in_range a idx Hlay Hbuf Hidx) as (Hoff & Hlo & Hhi).
  destruct (point_offset_in_range a idx' Hlay Hbuf Hidx') as (Hoff' & Hlo' & Hhi').
  fold ts in Hhi, Hhi'.
  exists (offset_sum (strides a) idx), (offset_sum (strides a) idx').
  do 6 (split; [assumption|]).
  rewrite (strides_exact a idx Hlay Hbuf Hidx), !offset_sum_flat. fold ts.
  assert (flat_index (dimensions a) idx' <> flat_index (dimensions a) idx).
  { intros E. apply Hne. apply (flat_index_inj (dimensions a)); assumption. }
  nia.
Qed.

Lemma set_scalar_frame (w : nat) (a : ndarray) (idx idx' : list Z) (v : Z)
    (bs : list memval) :
  row_major_layout a -> buffer_fits a ->
  in_range a idx = true -> in_range a idx' = true -> idx' <> idx ->
  Z.of_nat w <= calculate_type_size (dtype a) ->
  element_bytes a idx' = Ok bs ->
  exists a', set_scalar w a idx v = Ok (a', 0) /\
             element_bytes a' idx' = Ok bs.
Proof.
  intros Hlay Hbuf Hidx Hidx' Hne Hw Hbs.
  destruct (distinct_elements_disjoint a idx idx' Hlay Hbuf Hidx Hidx' Hne)
    as (p & p' & Hp & Hp' & Hp0 & Hp1 & Hq0 & Hq1 & Hdisj).
  unfold set_scalar. rewrite Hp. simpl bind.
  rewrite store_Ok by lia. simpl bind.
  eexists. split; [reflexivity|].
  unfold element_bytes, ndarray_get_point in *.
  change (point_offset (with_data a ?m) idx') with (point_offset a idx').
  rewrite Hp' in *. simpl bind in *. simpl dtype. simpl data.
  rewrite <- Hbs. f_equal.
  apply splice_cell_other; [apply (length_encode w (Some v)) | lia | lia].
Qed.

(** ** Operand checks *)

(** The checking loop over two vectors of [n] cells answers whether they
    are equal. *)
Lemma all_up_equal (u v : list Z) :
  forall (n : nat) (i : Z),
    0 <= i ->
    length u = (Z.to_nat i + n)%nat -> length v = (Z.to_nat i + n)%nat ->
    all_up n i (fun k => do x <- rd u k; do y <- rd v k; Ok (x =? y))
    = Ok (bool_decide (drop (Z.to_nat i) u = drop (Z.to_nat i) v)).
Proof.
  induction n as [|n IH]; intros i Hi Hu Hv.
  - simpl. rewrite !drop_ge by lia. reflexivity.
  - destruct (lookup_lt_is_Some_2 u (Z.to_nat i)) as [x Hx]; [lia|].
    destruct (lookup_lt_is_Some_2 v (Z.to_nat i)) as [y Hy]; [lia|].
    rewrite (drop_S _ _ _ Hx), (drop_S _ _ _ Hy).
    simpl all_up.
    rewrite (proj2 (rd_Ok u i x)) by (split; [lia | exact Hx]).
    rewrite (proj2 (rd_Ok v i y)) by (split; [lia | exact Hy]).
    simpl bind.
    destruct (Z.eqb_spec x y) as [->|Hne].
    + rewrite IH by lia.
      replace (Z.to_nat (i + 1)) with (S (Z.to_nat i)) by lia.
      f_equal. apply bool_decide_ext. split; [congruence|].
      intros E. injection E as E. exact E.
    + rewrite bool_decide_eq_false_2; [reflexivity|]. congruence.
Qed.

Lemma same_shape_spec (a b : ndarray) :
  row_major_layout a -> row_major_layout b -> nd a = nd b ->
  same_shape a b = Ok (bool_decide (dimensions a = dimensions b)).
Proof.
  intros (Hfa & Hla & _) (Hfb & Hlb & _) Hnd.
  unfold same_shape, dim.
  rewrite (all_up_equal (dimensions a) (dimensions b)) by (simpl; lia).
  reflexivity.
Qed.

(** ** Comparison *)

Lemma compare_operand_value (x : ndarray) (n : nat) (i : Z) :
  (is_d x = true /\ n = 8%nat) \/ (is_d x = false /\ n = 4%nat) ->
  0 <= i -> (i + 1) * Z.of_nat n <= Z.of_nat (length (data x)) ->
  compare_operand x i = Ok (operand_as_double x i).
Proof.
  intros [[Hd ->]|[Hd ->]] Hi Hlen; unfold compare_operand, operand_as_double;
    rewrite Hd, load_at_elem by assumption; reflexivity.
Qed.

Lemma fit_truth (test : Z -> Z -> bool) (x y : scalar) :
  fit 4 (truth test x y) = truth test x y.
Proof.
  unfold truth. apply fit_lift2. intros u v.
  destruct (test u v); simpl; lia.
Qed.

Lemma compare_body (a b r : ndarray) (op : ascii) (i : Z) :
  (fun (i : Z) (st : option ndarray) =>
     match st with
     | None => Ok None
     | Some r =>
         do val_a <- compare_operand a i;
         do val_b <- compare_operand b i;
         if Ascii.eqb op ">"%char then
           do r' <- store_elem 4 r i
                      (truth (fun u v => IEEE.double_lt v u) val_a val_b);
           Ok (Some r')
         else if Ascii.eqb op "<"%char then
           do r' <- store_elem 4 r i (truth IEEE.double_lt val_a val_b);
           Ok (Some r')
         else if Ascii.eqb op "="%char then
           do r' <- store_elem 4 r i (truth IEEE.double_eq val_a val_b);
           Ok (Some r')
         else Ok None
     end) i (Some r)
  = do val_a <- compare_operand a i;
    do val_b <- compare_operand b i;
    match comparison op with
    | Some test =>
        do r' <- store_elem 4 r i (truth test val_a val_b); Ok (Some r')
    | None => Ok None
    end.
Proof.
  cbv beta iota. unfold comparison.
  destruct (compare_operand a i) as [va|]; [|reflexivity].
  destruct (compare_operand b i) as [vb|]; [|reflexivity].
  simpl bind.
  destruct (Ascii.eqb op ">"%char); [reflexivity|].
  destruct (Ascii.eqb op "<"%char); [reflexivity|].
  destruct (Ascii.eqb op "="%char); reflexivity.
Qed.

(** The loop of [ndarray_compare] over [count] elements, for one of the
    three operators: cell [i] of the output, read as an [int], is the
    truth value of the test on the operands' elements [i]. *)
Lemma ndarray_compare_loop (a b r0 : ndarray) (n : nat) (count : Z)
    (op : ascii) (test : Z -> Z -> bool) :
  (is_d a = true /\ n = 8%nat) \/ (is_d a = false /\ n = 4%nat) ->
  is_d b = is_d a ->
  0 <= count ->
  count * Z.of_nat n <= Z.of_nat (length (data a)) ->
  length (data b) = length (data a) ->
  count * 4 <= Z.of_nat (length (data r0)) ->
  comparison op = Some test ->
  exists r,
    for_up (Z.to_nat count) 0
      (fun (i : Z) (st : option ndarray) =>
         match st with
         | None => Ok None
         | Some r =>
             do val_a <- compare_operand a i;
             do val_b <- compare_operand b i;
             if Ascii.eqb op ">"%char then
               do r' <- store_elem 4 r i
                          (truth (fun u v => IEEE.double_lt v u) val_a val_b);
               Ok (Some r')
             else if Ascii.eqb op "<"%char then
               do r' <- store_elem 4 r i (truth IEEE.double_lt val_a val_b);
               Ok (Some r')
             else if Ascii.eqb op "="%char then
               do r' <- store_elem 4 r i (truth IEEE.double_eq val_a val_b);
               Ok (Some r')
             else Ok None
         end)
      (Some r0) = Ok (Some r) /\
    header r = header r0 /\
    forall i, 0 <= i < count ->
      load_at 4 (data r) i
      = Ok (truth test (operand_as_double a i) (operand_as_double b i)).
Proof.
  intros Htag Hdb Hc Hla Hlb Hlr Hop.
  assert (Htagb : (is_d b = true /\ n = 8%nat) \/ (is_d b = false /\ n = 4%nat))
    by (rewrite Hdb; exact Htag).
  match goal with
  | |- exists r, for_up _ _ ?body _ = _ /\ _ =>
      destruct (for_up_total
                  (fun i (st : option ndarray) =>
                     exists r, st = Some r /\ header r = header r0 /\
                       forall k, 0 <= k < i ->
                         load_at 4 (data r) k
                         = Ok (truth test (operand_as_double a k)
                                 (operand_as_double b k)))
                  body (Z.to_nat count) 0 (Some r0))
        as (st & Hrun & r & -> & Hh & Hcells)
  end.
  - exists r0. split; [reflexivity|]. split; [reflexivity|]. intros k Hk. lia.
  - intros k st Hk (r & -> & Hh & Hcells).
    rewrite compare_body.
    rewrite (compare_operand_value a n k Htag) by nia.
    rewrite (compare_operand_value b n k Htagb) by (try rewrite Hlb; nia).
    simpl bind. rewrite Hop.
    assert (Hlen : length (data r) = length (data r0))
      by (injection Hh as _ _ _ _ Hl; exact Hl).
    destruct (store_elem_Ok 4 ltac:(lia) r k
                (truth test (operand_as_double a k) (operand_as_double b k)))
      as (m & Hst & Hse); [lia | rewrite Hlen; lia |].
    rewrite Hse. simpl bind. eexists. split; [reflexivity|].
    exists (with_data r m). split; [reflexivity|]. split.
    + rewrite <- Hh. apply with_data_header. apply (store_length _ _ _ _ _ Hst).
    + intros k' Hk'. simpl data. unfold load_at.
      destruct (decide (k' = k)) as [->|Hne].
      * rewrite (load_store_same 4 _ _ _ _ ltac:(lia) Hst).
        rewrite fit_truth. reflexivity.
      * rewrite (load_store_other 4 4 _ _ _ _ _ Hst) by lia.
        apply Hcells. lia.
  - exists r. split; [exact Hrun|]. split; [exact Hh|].
    intros i Hi. apply Hcells. lia.
Qed.

Lemma for_up_fixed {St : Type} (body : Z -> St -> res St) (s : St) :
  (forall k, body k s = Ok s) ->
  forall (n : nat) (i : Z), for_up n i body s = Ok s.
Proof.
  intros H. induction n as [|n IH]; intros i; [reflexivity|].
  simpl. rewrite H. simpl. apply IH.
Qed.

(** With any other operator the first element makes the loop free the
    output and return [NULL]. *)
Lemma ndarray_compare_loop_unknown (a b r0 : ndarray) (n : nat) (count : Z)
    (op : ascii) (body : Z -> option ndarray -> res (option ndarray)) :
  (is_d a = true /\ n = 8%nat) \/ (is_d a = false /\ n = 4%nat) ->
  is_d b = is_d a ->
  0 < count ->
  count * Z.of_nat n <= Z.of_nat (length (data a)) ->
  length (data b) = length (data a) ->
  comparison op = None ->
  body = (fun (i : Z) (st : option ndarray) =>
         match st with
         | None => Ok None
         | Some r =>
             do val_a <- compare_operand a i;
             do val_b <- compare_operand b i;
             if Ascii.eqb op ">"%char then
               do r' <- store_elem 4 r i
                          (truth (fun u v => IEEE.double_lt v u) val_a val_b);
               Ok (Some r')
             else if Ascii.eqb op "<"%char then
               do r' <- store_elem 4 r i (truth IEEE.double_lt val_a val_b);
               Ok (Some r')
             else if Ascii.eqb op "="%char then
               do r' <- store_elem 4 r i (truth IEEE.double_eq val_a val_b);
               Ok (Some r')
             else Ok None
         end) ->
  for_up (Z.to_nat count) 0 body (Some r0) = Ok None.
Proof.
  intros Htag Hdb Hc Hla Hlb Hop ->.
  assert (Htagb : (is_d b = true /\ n = 8%nat) \/ (is_d b = false /\ n = 4%nat))
    by (rewrite Hdb; exact Htag).
  destruct (Z.to_nat count) as [|c] eqn:E; [lia|].
  cbn [for_up]. rewrite compare_body.
  rewrite (compare_operand_value a n 0 Htag) by nia.
  rewrite (compare_operand_value b n 0 Htagb) by (try rewrite Hlb; nia).
  simpl bind. rewrite Hop.
  apply for_up_fixed. reflexivity.
Qed.

Lemma ndarray_compare_prologue (result : option ndarray) (a b r0 : ndarray)
    (op : ascii) (d0 d1 : Z) :
  row_major_layout a -> row_major_layout b ->
  nd a = 2 -> dimensions b = dimensions a -> dtype b = dtype a ->
  dimensions a = [d0; d1] ->
  result_or_create result a = Ok (Some r0) ->
  ndarray_compare result a b op
  = for_up (Z.to_nat (wrap64 (d0 * d1))) 0
      (fun (i : Z) (st : option ndarray) =>
         match st with
         | None => Ok None
         | Some r =>
             do val_a <- compare_operand a i;
             do val_b <- compare_operand b i;
             if Ascii.eqb op ">"%char then
               do r' <- store_elem 4 r i
                          (truth (fun u v => IEEE.double_lt v u) val_a val_b);
               Ok (Some r')
             else if Ascii.eqb op "<"%char then
               do r' <- store_elem 4 r i (truth IEEE.double_lt val_a val_b);
               Ok (Some r')
             else if Ascii.eqb op "="%char then
               do r' <- store_elem 4 r i (truth IEEE.double_eq val_a val_b);
               Ok (Some r')
             else Ok None
         end)
      (Some r0).
Proof.
  intros Ha Hb Hrank Hdims Hdtype Hshape Hres.
  assert (Hnb : nd b = nd a).
  { destruct Ha as ([? ?] & Hlda & _). destruct Hb as ([? ?] & Hldb & _).
    rewrite Hdims in Hldb. lia. }
  unfold ndarray_compare. rewrite Hnb, Z.eqb_refl.
  rewrite Hdtype, Ascii.eqb_refl. simpl negb. simpl orb. cbv iota.
  rewrite (same_shape_refl a b Ha Hdims). simpl bind. cbv iota.
  rewrite Hres. simpl bind.
  unfold dim. rewrite Hshape. reflexivity.
Qed.

(** The extent product of a matrix whose buffer has the length its shape
    gives does not wrap. *)
Lemma rank2_count (a : ndarray) (n : nat) (d0 d1 : Z) :
  row_major_layout a -> buffer_fits a -> dimensions a = [d0; d1] ->
  Z.of_nat n = calculate_type_size (dtype a) -> (0 < n)%nat ->
  prod (dimensions a) = d0 * d1 /\
  wrap64 (d0 * d1) = d0 * d1 /\ 0 <= d0 * d1 /\
  Z.of_nat (length (data a)) = d0 * d1 * Z.of_nat n.
Proof.
  intros Hlay Hbuf Hshape Hts Hn.
  pose proof (live_buffer_bound a Hlay) as Hb.
  unfold buffer_fits in Hbuf. rewrite <- Hts, Hshape in Hbuf.
  change (prod [d0; d1]) with (d0 * (d1 * 1)) in Hbuf.
  rewrite Hshape. change (prod [d0; d1]) with (d0 * (d1 * 1)).
  unfold two64 in Hb.
  split; [ring|]. split; [|split; [nia | lia]].
  apply wrap64_small. unfold two64. nia.
Qed.

Lemma created_output (a : ndarray) :
  row_major_layout a ->
  exists r0,
    result_or_create None a = Ok (Some r0) /\
    row_major_layout r0 /\
    dimensions r0 = dimensions a /\ dtype r0 = dtype a /\ nd r0 = nd a /\
    data r0 = malloc (Z.of_nat (length (data a))).
Proof.
  intros Ha. pose proof Ha as (Hfit & Hld & _ & _ & Hdata).
  destruct (ndarray_create_spec (dimensions a) (nd a) (dtype a) Hfit)
    as (r0 & Hc & Hrd & Hrn & Hrt & _ & _ & Hrdata); [lia|].
  rewrite take_ge in Hrd by lia.
  exists r0. split; [exact Hc|].
  split; [apply (ndarray_create_layout _ _ _ _ Hfit Hc)|].
  do 3 (split; [assumption|]).
  rewrite Hrdata, Hrd, Hdata. rewrite Z2Nat.id by apply wrap64_range.
  reflexivity.
Qed.

Lemma ndarray_compare_spec (result : option ndarray) (a b r0 : ndarray)
    (n : nat) (op : ascii) (test : Z -> Z -> bool) :
  row_major_layout a -> row_major_layout b ->
  buffer_fits a -> buffer_fits b ->
  nd a = 2 -> dimensions b = dimensions a -> dtype b = dtype a ->
  Z.of_nat n = calculate_type_size (dtype a) ->
  (is_d a = true /\ n = 8%nat) \/ (is_d a = false /\ n = 4%nat) ->
  result_or_create result a = Ok (Some r0) ->
  prod (dimensions a) * 4 <= Z.of_nat (length (data r0)) ->
  comparison op = Some test ->
  exists r,
    ndarray_compare result a b op = Ok (Some r) /\
    header r = header r0 /\
    forall i, 0 <= i < prod (dimensions a) ->
      load_at 4 (data r) i
      = Ok (truth test (operand_as_double a i) (operand_as_double b i)).
Proof.
  intros Ha Hb Hba Hbb Hrank Hdims Hdt Hts Htag Hres Hlen Hop.
  destruct (rank2_shape a Ha Hrank) as (d0 & d1 & Hshape & _ & _).
  assert (Hn : (0 < n)%nat) by (destruct Htag as [[_ ->]|[_ ->]]; lia).
  destruct (rank2_count a n d0 d1 Ha Hba Hshape Hts Hn)
    as (Hprod & Hcnt & Hpos & Hla).
  rewrite (ndarray_compare_prologue result a b r0 op d0 d1
             Ha Hb Hrank Hdims Hdt Hshape Hres).
  rewrite Hcnt, Hprod in *.
  apply (ndarray_compare_loop a b r0 n (d0 * d1) op test); try assumption.
  - unfold is_d. rewrite Hdt. reflexivity.
  - lia.
  - unfold buffer_fits in Hba, Hbb. rewrite Hdims, Hdt in Hbb. lia.
Qed.

Lemma comparison_unknown (op : ascii) :
  op <> ">"%char -> op <> "<"%char -> op <> "="%char -> comparison op = None.
Proof.
  intros H1 H2 H3. unfold comparison.
  destruct (Ascii.eqb_spec op ">"%char); [contradiction|].
  destruct (Ascii.eqb_spec op "<"%char); [contradiction|].
  destruct (Ascii.eqb_spec op "="%char); [contradiction|]. reflexivity.
Qed.

Lemma handled_is_d (a : ndarray) (n : nat) :
  (is_d a = true /\ n = 8%nat) \/
  (is_d a = false /\ is_f a = true /\ n = 4%nat) ->
  (is_d a = true /\ n = 8%nat) \/ (is_d a = false /\ n = 4%nat).
Proof. intros [H|(H1 & _ & H2)]; auto. Qed.

(** ** Composition of operations *)

Lemma in_range_rank2 (a : ndarray) (d0 d1 i j : Z) :
  dimensions a = [d0; d1] ->
  in_range a [i; j] = true <-> 0 <= i < d0 /\ 0 <= j < d1.
Proof.
  intros Hs. unfold in_range. rewrite Hs. simpl.
  rewrite !andb_true_iff, !Z.leb_le, !Z.ltb_lt. tauto.
Qed.

(** In a matrix, [ndarray_get_point] at [(i, j)] addresses cell
    [i * d1 + j] of the buffer. *)
Lemma get_point_rank2 (a : ndarray) (n : nat) (d0 d1 i j : Z) :
  row_major_layout a -> buffer_fits a -> dimensions a = [d0; d1] ->
  Z.of_nat n = calculate_type_size (dtype a) ->
  0 <= i < d0 -> 0 <= j < d1 ->
  ndarray_get_point a [i; j] = Ok ((i * d1 + j) * Z.of_nat n).
Proof.
  intros Hlay Hbuf Hs Hts Hi Hj.
  rewrite get_point_flat; [|assumption..|apply (in_range_rank2 a d0 d1); auto].
  rewrite Hs, <- Hts. simpl. f_equal. ring.
Qed.

(** A cell inside the buffer holds what [load_at] returns. *)
Lemma load_at_elem_inv (n : nat) (m : list memval) (i : Z) (v : scalar) :
  0 <= i -> (i + 1) * Z.of_nat n <= Z.of_nat (length m) ->
  load_at n m i = Ok v -> elem n m i = v.
Proof.
  intros Hi Hlen H. rewrite load_at_elem in H by assumption.
  injection H as H. exact H.
Qed.

Lemma layout_buffer_fits (a r : ndarray) :
  row_major_layout a -> buffer_fits a -> row_major_layout r ->
  dimensions r = dimensions a -> dtype r = dtype a ->
  buffer_fits r.
Proof.
  intros Ha Hbuf (_ & _ & _ & _ & Hd) Hrd Hrt.
  unfold buffer_fits. rewrite Hd, Hrd, Hrt.
  rewrite (buffer_size_exact a Ha Hbuf).
  apply Z2Nat.id. unfold buffer_fits in Hbuf. lia.
Qed.

(** Transposition distributes over an elementwise operation. *)
Lemma elementwise_transpose (opd opf : Z -> Z -> Z) (a b : ndarray) :
  live a -> live b -> buffer_fits a -> buffer_fits b ->
  nd a = 2 -> dimensions b = dimensions a -> dtype b = dtype a ->
  dtype a = "d"%char \/ dtype a = "f"%char ->
  exists s l ta tb r (n : nat),
    Z.of_nat n = calculate_type_size (dtype a) /\
    elementwise opd opf None a b = Ok (Some s) /\
    ndarray_transpose s = Ok (Some l) /\
    ndarray_transpose a = Ok (Some ta) /\
    ndarray_transpose b = Ok (Some tb) /\
    elementwise opd opf None ta tb = Ok (Some r) /\
    dimensions l = dimensions r /\ dtype l = dtype r /\
    forall k, 0 <= k < prod (dimensions l) ->
      exists v, load_at n (data l) k = Ok v /\ load_at n (data r) k = Ok v.
Proof.
  intros Hla Hlb Hba Hbb Hrank Hdims Hdt Htags.
  pose proof (live_row_major a Hla) as Ha.
  pose proof (live_row_major b Hlb) as Hb.
  destruct (rank2_shape a Ha Hrank) as (d0 & d1 & Hshape & _ & _).
  destruct (rank2_extents a d0 d1 (live_extents a Hla) Hshape) as [Hd0 Hd1].
  destruct (handled_dtype_size a Htags) as (n & Hts & Hn & Htag).
  assert (Hrankb : nd b = 2).
  { destruct Ha as (_ & Hlda & _). destruct Hb as ([? ?] & Hldb & _).
    rewrite Hdims in Hldb. lia. }
  assert (Hshapeb : dimensions b = [d0; d1]) by congruence.
  assert (Htsb : Z.of_nat n = calculate_type_size (dtype b)) by congruence.
  assert (Htagb : (is_d b = true /\ n = 8%nat) \/
                  (is_d b = false /\ is_f b = true /\ n = 4%nat))
    by (rewrite (is_d_dtype b a Hdt), (is_f_dtype b a Hdt); exact Htag).
  (* a op b *)
  destruct (elementwise_rank2 opd opf a b Ha Hb Hba Hbb Hrank Hdims Hdt)
    as (s & Hs & Hsd & Hst & Hsn & Hslay & Hsd8 & Hsf4).
  assert (Hsbuf : buffer_fits s)
    by (apply (layout_buffer_fits a s); assumption).
  assert (Hscells : forall k, 0 <= k < d0 * d1 ->
            elem n (data s) k
            = fit n (lift2 (if is_d a then opd else opf)
                       (elem n (data a) k) (elem n (data b) k))).
  { intros k Hk.
    assert (Hss : dimensions s = [d0; d1]) by congruence.
    assert (Htss : Z.of_nat n = calculate_type_size (dtype s)) by congruence.
    destruct (rank2_count s n d0 d1 Hslay Hsbuf Hss Htss Hn)
      as (_ & _ & _ & Hlen).
    apply load_at_elem_inv; [lia | nia |].
    assert (Hp : 0 <= k < prod (dimensions a))
      by (rewrite Hshape; change (prod [d0; d1]) with (d0 * (d1 * 1)); lia).
    destruct Htag as [[Hd ->]|(Hd & Hf & ->)]; rewrite Hd.
    - apply Hsd8; [|exact Hp]. unfold is_d in Hd.
      apply Ascii.eqb_eq. exact Hd.
    - apply Hsf4; [|exact Hp]. unfold is_f in Hf.
      apply Ascii.eqb_eq. exact Hf. }
  (* transposes *)
  assert (Htags' : (is_d s = true /\ n = 8%nat) \/
                   (is_d s = false /\ is_f s = true /\ n = 4%nat))
    by (rewrite (is_d_dtype s a Hst), (is_f_dtype s a Hst); exact Htag).
  destruct (ndarray_transpose_spec s n d0 d1 Hslay Hsbuf ltac:(congruence)
              ltac:(congruence) Hd0 Hd1 ltac:(congruence) Hn Htags')
    as (l & Hl & Hld & Hlt & Hln & Hllay & Hlbuf & Hlcells).
  destruct (ndarray_transpose_spec a n d0 d1 Ha Hba Hrank Hshape Hd0 Hd1
              Hts Hn Htag)
    as (ta & Hta & Htad & Htat & Htan & Htalay & Htabuf & Htacells).
  destruct (ndarray_transpose_spec b n d0 d1 Hb Hbb Hrankb Hshapeb Hd0 Hd1
              Htsb Hn Htagb)
    as (tb & Htb & Htbd & Htbt & Htbn & Htblay & Htbbuf & Htbcells).
  (* ta op tb *)
  destruct (elementwise_rank2 opd opf ta tb Htalay Htblay Htabuf Htbbuf Htan
              ltac:(congruence) ltac:(congruence))
    as (r & Hr & Hrd & Hrt & Hrn & Hrlay & Hrd8 & Hrf4).
  exists s, l, ta, tb, r, n. do 6 (split; [assumption|]).
  split; [congruence|]. split; [congruence|].
  rewrite Hld. change (prod [d1; d0]) with (d1 * (d0 * 1)).
  intros k Hk.
  assert (Hd0pos : 0 < d0) by nia.
  pose proof (Z.div_mod k d0 ltac:(lia)) as Hdm.
  pose proof (Z.mod_pos_bound k d0 Hd0pos) as Hi.
  assert (Hj : 0 <= k / d0 < d1).
  { split; [apply Z.div_pos; lia|]. apply Z.div_lt_upper_bound; lia. }
  set (j := k / d0) in *. set (i := k mod d0) in *.
  assert (Hk' : k = j * d0 + i) by lia.
  exists (fit n (lift2 (if is_d a then opd else opf)
                   (elem n (data a) (i * d1 + j))
                   (elem n (data b) (i * d1 + j)))).
  split.
  - rewrite Hk', (Hlcells i j Hi Hj). f_equal. apply Hscells. nia.
  - assert (Hp : 0 <= k < prod (dimensions ta))
      by (rewrite Htad; change (prod [d1; d0]) with (d1 * (d0 * 1)); lia).
    destruct (rank2_count ta n d1 d0 Htalay Htabuf Htad ltac:(congruence) Hn)
      as (_ & _ & _ & Hlena).
    destruct (rank2_count tb n d1 d0 Htblay Htbbuf Htbd ltac:(congruence) Hn)
      as (_ & _ & _ & Hlenb).
    assert (Ea : elem n (data ta) k = elem n (data a) (i * d1 + j)).
    { apply load_at_elem_inv; [lia | nia |]. rewrite Hk'. apply Htacells; auto. }
    assert (Eb : elem n (data tb) k = elem n (data b) (i * d1 + j)).
    { apply load_at_elem_inv; [lia | nia |]. rewrite Hk'. apply Htbcells; auto. }
    rewrite <- Ea, <- Eb.
    destruct Htag as [[Hd ->]|(Hd & Hf & ->)]; rewrite Hd.
    + apply Hrd8; [|exact Hp]. rewrite Htat. unfold is_d in Hd.
      apply Ascii.eqb_eq. exact Hd.
    + apply Hrf4; [|exact Hp]. rewrite Htat. unfold is_f in Hf.
      apply Ascii.eqb_eq. exact Hf.
Qed.

(** ** Concatenation *)

Lemma all_up_false (check : Z -> res bool) :
  forall (n : nat) (i : Z),
    (forall k, i <= k < i + Z.of_nat n -> exists c, check k = Ok c) ->
    (exists k, i <= k < i + Z.of_nat n /\ check k = Ok false) ->
    all_up n i check = Ok false.
Proof.
  induction n as [|n IH]; intros i Htot (k & Hk & Hf); [lia|].
  simpl. destruct (Htot i ltac:(lia)) as (c & Hc). rewrite Hc. simpl.
  destruct c; [|reflexivity].
  apply IH.
  - intros k' Hk'. apply Htot. lia.
  - exists k. split; [|exact Hf].
    assert (k <> i) by (intros ->; congruence). lia.
Qed.

Lemma all_up_true_inv (check : Z -> res bool) :
  forall (n : nat) (i : Z),
    all_up n i check = Ok true ->
    forall k, i <= k < i + Z.of_nat n -> check k = Ok true.
Proof.
  induction n as [|n IH]; intros i H k Hk; [lia|].
  simpl in H. destruct (check i) as [c|] eqn:Hc; [|discriminate].
  simpl in H. destruct c; [|discriminate].
  destruct (decide (k = i)) as [->|Hne]; [exact Hc|].
  apply (IH (i + 1) H). lia.
Qed.

Lemma rd_total (v : list Z) (i : Z) :
  0 <= i < Z.of_nat (length v) -> exists x, rd v i = Ok x.
Proof.
  intros Hi. destruct (lookup_lt_is_Some_2 v (Z.to_nat i)) as [x Hx]; [lia|].
  exists x. apply rd_Ok. split; [lia | exact Hx].
Qed.

Lemma rd_bound (v : list Z) (i x : Z) :
  rd v i = Ok x -> 0 <= i < Z.of_nat (length v).
Proof.
  intros H. apply rd_Ok in H. destruct H as [H0 H].
  apply lookup_lt_Some in H. lia.
Qed.

(** The loop of [ndarray_concat] that builds the shape of the result. *)
Lemma concat_new_dims (a b : ndarray) (axis x y : Z) :
  row_major_layout a -> row_major_layout b -> nd b = nd a ->
  rd (dimensions a) axis = Ok x -> rd (dimensions b) axis = Ok y ->
  for_up (Z.to_nat (nd a)) 0
    (fun i v =>
       do x <- dim a i;
       if i =? axis
       then do y <- dim b i; wr v i (wrap64 (x + y))
       else wr v i x)
    (fresh_vector (nd a))
  = Ok (<[Z.to_nat axis := wrap64 (x + y)]> (dimensions a)).
Proof.
  intros (Hfa & Hla & _) (Hfb & Hlb & _) Hnd Hx Hy.
  pose proof (rd_bound _ _ _ Hx) as Hax.
  set (target := <[Z.to_nat axis := wrap64 (x + y)]> (dimensions a)).
  assert (Hlt : length target = Z.to_nat (nd a))
    by (unfold target; rewrite length_insert; exact Hla).
  match goal with
  | |- for_up _ _ ?body _ = _ =>
      destruct (for_up_total
                  (fun i (v : list Z) =>
                     length v = Z.to_nat (nd a) /\
                     take (Z.to_nat i) v = take (Z.to_nat i) target)
                  body (Z.to_nat (nd a)) 0 (fresh_vector (nd a)))
        as (v & Hrun & Hlen & Htake)
  end.
  - split; [unfold fresh_vector; apply length_replicate | reflexivity].
  - intros k v Hk (Hlen & Htake). unfold dim.
    destruct (rd_total (dimensions a) k ltac:(lia)) as (xk & Hxk).
    assert (Hstep : forall z, target !! Z.to_nat k = Some z ->
              exists t', wr v k z = Ok t' /\
                length t' = Z.to_nat (nd a) /\
                take (Z.to_nat (k + 1)) t' = take (Z.to_nat (k + 1)) target).
    { intros z Hz. rewrite wr_Ok by lia. eexists. split; [reflexivity|].
      split; [rewrite length_insert; exact Hlen|].
      replace (Z.to_nat (k + 1)) with (S (Z.to_nat k)) by lia.
      rewrite (take_S_r target _ z Hz).
      rewrite (take_S_r (<[Z.to_nat k := z]> v) _ z)
        by (apply list_lookup_insert_eq; lia).
      rewrite take_insert. destruct (decide (Z.to_nat k < Z.to_nat k)%nat); [lia|].
      rewrite Htake. reflexivity. }
    rewrite Hxk. simpl bind.
    destruct (Z.eqb_spec k axis) as [->|Hne].
    + rewrite Hy. simpl bind.
      assert (xk = x) by congruence. subst xk.
      apply Hstep. unfold target. apply list_lookup_insert_eq. lia.
    + apply Hstep. unfold target.
      rewrite list_lookup_insert_ne by lia.
      apply rd_Ok in Hxk. tauto.
  - rewrite Hrun. f_equal.
    rewrite Z.add_0_l, Z2Nat.id in Htake by lia.
    rewrite !take_ge in Htake by lia. exact Htake.
Qed.

Lemma concat_compatible (a b : ndarray) (axis y : Z) :
  row_major_layout a -> row_major_layout b -> nd b = nd a ->
  rd (dimensions b) axis = Ok y ->
  all_up (Z.to_nat (nd a)) 0
    (fun i =>
       if i =? axis then Ok true
       else do x <- dim a i; do y <- dim b i; Ok (x =? y)) = Ok true ->
  dimensions b = <[Z.to_nat axis := y]> (dimensions a).
Proof.
  intros (Hfa & Hla & _) (Hfb & Hlb & _) Hnd Hy Hall.
  pose proof (rd_bound _ _ _ Hy) as Hax.
  apply list_eq. intros i.
  destruct (decide (i < Z.to_nat (nd a))%nat) as [Hi|Hi].
  - destruct (decide (i = Z.to_nat axis)) as [->|Hne].
    + rewrite list_lookup_insert_eq by lia. apply rd_Ok in Hy. tauto.
    + rewrite list_lookup_insert_ne by lia.
      pose proof (all_up_true_inv _ _ _ Hall (Z.of_nat i) ltac:(lia)) as Hc.
      cbv beta in Hc. destruct (Z.eqb_spec (Z.of_nat i) axis); [lia|].
      unfold dim in Hc.
      destruct (rd_total (dimensions a) (Z.of_nat i) ltac:(lia)) as (xa & Hxa).
      destruct (rd_total (dimensions b) (Z.of_nat i) ltac:(lia)) as (xb & Hxb).
      rewrite Hxa, Hxb in Hc. simpl in Hc. injection Hc as Hc.
      apply Z.eqb_eq in Hc. subst xb.
      apply rd_Ok in Hxa, Hxb. rewrite Nat2Z.id in Hxa, Hxb.
      destruct Hxa as [_ ->]. destruct Hxb as [_ ->]. reflexivity.
  - rewrite !lookup_ge_None_2; [reflexivity | rewrite length_insert; lia | lia].
Qed.

Lemma for_up_faults {St : Type} (Q : St -> Prop) (body : Z -> St -> res St) :
  forall (n : nat) (i : Z) (s : St) (k : Z),
    Q s ->
    (forall j t t', Q t -> body j t = Ok t' -> Q t') ->
    i <= k < i + Z.of_nat n ->
    (forall t, Q t -> body k t = Fault) ->
    for_up n i body s = Fault.
Proof.
  induction n as [|n IH]; intros i s k HQ Hkeep Hk Hf; [lia|].
  simpl. destruct (decide (k = i)) as [->|Hne].
  - rewrite (Hf s HQ). reflexivity.
  - destruct (body i s) as [s'|] eqn:Hb; [|reflexivity]. simpl.
    apply (IH (i + 1) s' k); [apply (Hkeep i s s' HQ Hb) | exact Hkeep | lia
                              | exact Hf].
Qed.

Lemma concat_compatible_true (a b : ndarray) (axis y : Z) :
  row_major_layout a -> row_major_layout b -> nd b = nd a ->
  dimensions b = <[Z.to_nat axis := y]> (dimensions a) ->
  0 <= axis ->
  all_up (Z.to_nat (nd a)) 0
    (fun i =>
       if i =? axis then Ok true
       else do x <- dim a i; do y <- dim b i; Ok (x =? y)) = Ok true.
Proof.
  intros (Hfa & Hla & _) (Hfb & Hlb & _) Hnd Hdims Hax.
  apply all_up_true. intros k Hk. cbv beta.
  destruct (Z.eqb_spec k axis); [reflexivity|]. unfold dim.
  destruct (rd_total (dimensions a) k ltac:(lia)) as (xa & Hxa).
  rewrite Hxa. simpl bind.
  assert (Hxb : rd (dimensions b) k = Ok xa).
  { apply rd_Ok. apply rd_Ok in Hxa. destruct Hxa as [H0 Hxa].
    split; [exact H0|]. rewrite Hdims, list_lookup_insert_ne by lia. exact Hxa. }
  rewrite Hxb. simpl bind. rewrite Z.eqb_refl. reflexivity.
Qed.

(** [ndarray_concat] up to its copy loop, for compatible operands. *)
Lemma ndarray_concat_prologue (a b : ndarray) (axis x y : Z) :
  row_major_layout a -> row_major_layout b ->
  nd b = nd a -> 0 <= axis < nd a -> dtype b = dtype a ->
  rd (dimensions a) axis = Ok x ->
  dimensions b = <[Z.to_nat axis := y]> (dimensions a) ->
  exists r0,
    ndarray_create (<[Z.to_nat axis := wrap64 (x + y)]> (dimensions a))
      (nd a) (dtype a) = Ok (Some r0) /\
    row_major_layout r0 /\
    dimensions r0 = <[Z.to_nat axis := wrap64 (x + y)]> (dimensions a) /\
    nd r0 = nd a /\ dtype r0 = dtype a /\
    ndarray_concat a b axis
    = do st <- for_up (Z.to_nat (wrap64 (prod (dimensions r0)))) 0
                 (fun linear_idx '(indices, result) =>
                    do (indices, _) <- decompose result indices linear_idx;
                    do axis_idx <- rd indices axis;
                    do a_axis <- dim a axis;
                    let '(src, src_axis) :=
                      if axis_idx <? a_axis then (a, axis_idx)
                      else (b, wrap64 (axis_idx - a_axis)) in
                    do src_idx <- source_index src axis src_axis indices;
                    if is_d a then
                      do v <- load_at 8 (data src) src_idx;
                      do result' <- store_elem 8 result linear_idx v;
                      Ok (indices, result')
                    else
                      do v <- load_at 4 (data src) src_idx;
                      do result' <- store_elem 4 result linear_idx v;
                      Ok (indices, result'))
                 (fresh_vector
                    (wrap64 (nd r0 * calculate_type_size (dtype r0)) / 8),
                  r0);
      Ok (Some (snd st)).
Proof.
  intros Ha Hb Hnd Hax Hdt Hx Hdims.
  pose proof Ha as (Hfa & Hlda & _). pose proof Hb as (Hfb & Hldb & _).
  assert (Hy : rd (dimensions b) axis = Ok y).
  { apply rd_Ok. split; [lia|]. rewrite Hdims.
    apply list_lookup_insert_eq. lia. }
  set (target := <[Z.to_nat axis := wrap64 (x + y)]> (dimensions a)).
  assert (Hlt : length target = Z.to_nat (nd a))
    by (unfold target; rewrite length_insert; exact Hlda).
  destruct (ndarray_create_spec target (nd a) (dtype a) Hfa)
    as (r0 & Hc & Hrd & Hrn & Hrt & _); [lia|].
  rewrite take_ge in Hrd by lia.
  pose proof (ndarray_create_layout _ _ _ _ Hfa Hc) as (Hlay0 & _).
  exists r0. split; [exact Hc|]. split; [exact Hlay0|].
  do 3 (split; [assumption|]).
  unfold ndarray_concat.
  rewrite Hnd, Z.eqb_refl. simpl negb. cbv iota.
  destruct (Z.leb_spec (nd a) axis) as [Hge|_]; [lia|].
  rewrite Hdt, Ascii.eqb_refl. simpl negb. cbv iota.
  rewrite (concat_compatible_true a b axis y Ha Hb Hnd Hdims ltac:(lia)).
  simpl bind. cbv iota.
  rewrite (concat_new_dims a b axis x y Ha Hb Hnd Hx Hy).
  simpl bind. fold target. rewrite Hc. simpl bind.
  assert (Hsz : ndarray_size r0 = Ok (wrap64 (prod (dimensions r0)))).
  { pose proof (calculate_size_spec (dimensions r0) (nd r0)) as Hsz.
    unfold calculate_size in Hsz. unfold ndarray_size, dim.
    rewrite Hsz by (rewrite Hrd, Hrn; lia).
    rewrite take_ge by (rewrite Hrd, Hrn; lia). reflexivity. }
  rewrite Hsz. simpl bind. reflexivity.
Qed.

Lemma live_vec_1_2 : live vec_1_2.
Proof.
  apply (created_and_filled [2] 1 "d"%char
           {| data := malloc 16; dimensions := [2]; strides := [8];
              nd := 1; dtype := "d"%char |}
           vec_1_2 [([0], 1); ([1], 2)]);
    [unfold rank_fits_int; lia
    | repeat constructor; unfold uint64, two64; lia
    | reflexivity | reflexivity].
Qed.

Lemma live_vec_3 : live vec_3.
Proof.
  apply (created_and_filled [1] 1 "d"%char
           {| data := malloc 8; dimensions := [1]; strides := [8];
              nd := 1; dtype := "d"%char |}
           vec_3 [([0], 3)]);
    [unfold rank_fits_int; lia
    | repeat constructor; unfold uint64, two64; lia
    | reflexivity | reflexivity].
Qed.

Lemma live_fresh_f_1x2 : live fresh_f_1x2.
Proof.
  apply (live_create [1; 2] 2 "f"%char);
    [unfold rank_fits_int; lia
    | repeat constructor; unfold uint64, two64; lia
    | reflexivity].
Qed.

Lemma live_empty_0x2 : live empty_0x2.
Proof.
  apply (live_create [0; 2] 2 "d"%char);
    [unfold rank_fits_int; lia
    | repeat constructor; unfold uint64, two64; lia
    | reflexivity].
Qed.

(** ** More on loops *)

Lemma for_up_app {St : Type} (body : Z -> St -> res St) :
  forall (n m : nat) (i : Z) (s : St),
    for_up (n + m) i body s
    = do s' <- for_up n i body s; for_up m (i + Z.of_nat n) body s'.
Proof.
  induction n as [|n IH]; intros m i s.
  - simpl. rewrite Z.add_0_r. reflexivity.
  - simpl for_up. destruct (body i s) as [s1|]; [|reflexivity].
    simpl bind. rewrite IH. do 2 f_equal. lia.
Qed.

Lemma for_up_shift {St : Type} (body : Z -> St -> res St) (c : Z) :
  forall (n : nat) (i : Z) (s : St),
    for_up n i (fun j t => body (c + j) t) s = for_up n (c + i) body s.
Proof.
  induction n as [|n IH]; intros i s; [reflexivity|].
  simpl. destruct (body (c + i) s) as [s1|]; [|reflexivity].
  simpl bind. rewrite IH. f_equal. lia.
Qed.

(** A loop over the rows and, inside, over the columns of a matrix, whose
    body depends on the row-major position only, is one loop over the
    positions. *)
Lemma for_up_nested {St : Type} (body : Z -> St -> res St) (cols : nat) :
  forall (rows : nat) (i0 : Z) (s : St),
    for_up rows i0
      (fun i s1 =>
         for_up cols 0 (fun j s2 => body (i * Z.of_nat cols + j) s2) s1) s
    = for_up (rows * cols) (i0 * Z.of_nat cols) body s.
Proof.
  induction rows as [|rows IH]; intros i0 s; [reflexivity|].
  simpl for_up. rewrite for_up_app.
  rewrite (for_up_shift body (i0 * Z.of_nat cols) cols 0 s), Z.add_0_r.
  destruct (for_up cols (i0 * Z.of_nat cols) body s) as [s1|]; [|reflexivity].
  simpl bind. rewrite IH. f_equal. lia.
Qed.

(** A loop on a pair whose second component goes its own way: the first
    component runs the loop with the second one known at every round. *)
Lemma for_up_split {A B : Type} (f : Z -> A -> B -> res B) (g : Z -> A -> A) :
  forall (n : nat) (i : Z) (a : A) (b : B),
    for_up n i (fun k '(b, a) => do b' <- f k a b; Ok (b', g k a)) (b, a)
    = do b' <- for_up n i
                 (fun k b => f k (advance g (Z.to_nat (k - i)) i a) b) b;
      Ok (b', advance g n i a).
Proof.
  induction n as [|n IH]; intros i a b; [reflexivity|].
  simpl for_up. rewrite Z.sub_diag. simpl advance.
  destruct (f i a b) as [b1|]; [|reflexivity].
  simpl bind. rewrite IH.
  rewrite (for_up_body_ext
             (fun k b0 => f k (advance g (Z.to_nat (k - i)) i a) b0)
             (fun k b0 => f k (advance g (Z.to_nat (k - (i + 1))) (i + 1)
                                 (g i a)) b0)); [reflexivity|].
  intros k t Hk.
  replace (Z.to_nat (k - i)) with (S (Z.to_nat (k - (i + 1)))) by lia.
  reflexivity.
Qed.

(** The events a loop appends, one per round. *)
Lemma advance_output (g : Z -> event) :
  forall (n : nat) (i : Z) (out : list event),
    advance (fun k out => out ++ [g k]) n i out
    = out ++ map g (seqZ i (Z.of_nat n)).
Proof.
  induction n as [|n IH]; intros i out.
  - simpl. rewrite app_nil_r. reflexivity.
  - simpl advance. rewrite IH.
    replace (Z.of_nat (S n)) with (Z.succ (Z.of_nat n)) by lia.
    rewrite (seqZ_cons i) by lia. rewrite Z.pred_succ, <- Z.add_1_r. simpl.
    rewrite <- app_assoc. reflexivity.
Qed.

(** A loop that writes [v] into cell [i] of [n]-byte cells when
    [w i = Some v], and leaves the cell alone when [w i = None]. *)
Lemma fill_line (n : nat) (count : Z) (w : Z -> option scalar)
    (body : Z -> ndarray -> res ndarray) (r0 : ndarray) :
  (0 < n)%nat -> 0 <= count ->
  count * Z.of_nat n <= Z.of_nat (length (data r0)) ->
  (forall i r, 0 <= i < count ->
     body i r = match w i with
                | Some v => store_elem n r i v
                | None => Ok r
                end) ->
  exists r,
    for_up (Z.to_nat count) 0 body r0 = Ok r /\
    header r = header r0 /\
    forall i, 0 <= i < count ->
      load_at n (data r) i
      = Ok (match w i with
            | Some v => fit n v
            | None => elem n (data r0) i
            end).
Proof.
  intros Hn Hc Hlen Hbody.
  destruct (for_up_total
              (fun i r =>
                 header r = header r0 /\
                 (forall k, 0 <= k < i ->
                    load_at n (data r) k
                    = Ok (match w k with
                          | Some v => fit n v
                          | None => elem n (data r0) k
                          end)) /\
                 (forall k, i <= k < count ->
                    load_at n (data r) k = Ok (elem n (data r0) k)))
              body (Z.to_nat count) 0 r0)
    as (r & Hrun & Hh & Hcells & _).
  - split; [reflexivity|]. split; [intros k Hk; lia|].
    intros k Hk. apply load_at_elem; nia.
  - intros k r Hk (Hh & Hlo & Hhi).
    assert (Hl : length (data r) = length (data r0))
      by (injection Hh as _ _ _ _ Hl; exact Hl).
    rewrite Hbody by lia. destruct (w k) as [v|] eqn:Hw.
    + destruct (store_elem_Ok n Hn r k v) as (m & Hst & Hse);
        [lia | rewrite Hl; nia |].
      rewrite Hse. eexists. split; [reflexivity|].
      split; [rewrite <- Hh; apply with_data_header;
              apply (store_length _ _ _ _ _ Hst)|].
      simpl data. unfold load_at. split.
      * intros k' Hk'. destruct (decide (k' = k)) as [->|Hne].
        -- rewrite (load_store_same n _ _ _ _ Hn Hst), Hw. reflexivity.
        -- rewrite (load_store_other n n _ _ _ _ _ Hst) by nia.
           apply Hlo. lia.
      * intros k' Hk'.
        rewrite (load_store_other n n _ _ _ _ _ Hst) by nia.
        apply Hhi. lia.
    + exists r. split; [reflexivity|]. split; [exact Hh|]. split.
      * intros k' Hk'. destruct (decide (k' = k)) as [->|Hne].
        -- rewrite Hw. apply Hhi. lia.
        -- apply Hlo. lia.
      * intros k' Hk'. apply Hhi. lia.
  - exists r. split; [exact Hrun|]. split; [exact Hh|].
    intros i Hi. apply Hcells. lia.
Qed.

(** An array with the header of a live array and a buffer of the same
    length is live: it is that array after writes through its buffer. *)
Lemma live_header (a r : ndarray) :
  live a -> header r = header a -> live r.
Proof.
  intros Ha Hh. injection Hh as Hd Hs Hn Ht Hl.
  replace r with (with_data a (data r)).
  - apply live_fill; assumption.
  - destruct r, a. simpl in *. unfold with_data. simpl. congruence.
Qed.

(** ** The generators *)

(** [ndarray_create] on a matrix shape whose byte size fits [size_t]. *)
Lemma create_matrix (n m : Z) (dt : ascii) :
  uint64 n -> uint64 m -> n * m * calculate_type_size dt < two64 ->
  exists a0,
    ndarray_create [n; m] 2 dt = Ok (Some a0) /\
    live a0 /\ buffer_fits a0 /\
    dimensions a0 = [n; m] /\ dtype a0 = dt /\ nd a0 = 2 /\
    data a0 = malloc (n * m * calculate_type_size dt) /\
    (0 < calculate_type_size dt -> wrap64 (n * m) = n * m).
Proof.
  intros Hn Hm Hsmall.
  assert (Hfit : rank_fits_int 2) by (unfold rank_fits_int; lia).
  destruct (ndarray_create_spec [n; m] 2 dt Hfit) as
    (a0 & Hc & Hd & Hnd & Ht & _ & _ & Hdata); [simpl; lia|].
  change (take (Z.to_nat 2) [n; m]) with [n; m] in Hd.
  pose proof (calculate_type_size_range dt) as Hts.
  unfold uint64 in Hn, Hm.
  assert (Hw : wrap64 (wrap64 (n * m) * calculate_type_size dt)
               = n * m * calculate_type_size dt).
  { destruct (decide (calculate_type_size dt = 0)) as [E|E].
    - rewrite E, !Z.mul_0_r. reflexivity.
    - rewrite (wrap64_small (n * m)) by nia. apply wrap64_small. nia. }
  assert (Hprod : prod [n; m] = n * m) by (unfold prod; simpl; ring).
  rewrite Hd, Hprod, Hw in Hdata.
  exists a0. split; [exact Hc|].
  split; [apply (live_create [n; m] 2 dt a0 Hfit); auto|].
  split.
  { unfold buffer_fits. rewrite Hdata, Hd, Ht, Hprod. unfold malloc.
    rewrite length_replicate. apply Z2Nat.id. nia. }
  do 4 (split; [assumption|]).
  intros Hpos. apply wrap64_small. nia.
Qed.

(** A created matrix whose buffer has the length its shape gives: the
    byte count has not wrapped. *)
Lemma created_matrix_fits (n m : Z) (dt : ascii) (a0 : ndarray) :
  uint64 n -> uint64 m ->
  ndarray_create [n; m] 2 dt = Ok (Some a0) -> buffer_fits a0 ->
  n * m * calculate_type_size dt < two64.
Proof.
  intros Hn Hm Hc Hbuf.
  assert (Hfit : rank_fits_int 2) by (unfold rank_fits_int; lia).
  destruct (ndarray_create_spec [n; m] 2 dt Hfit) as
    (a1 & Hc1 & Hd & _ & Ht & _ & _ & Hdata); [simpl; lia|].
  rewrite Hc in Hc1. injection Hc1 as <-.
  change (take (Z.to_nat 2) [n; m]) with [n; m] in Hd.
  unfold buffer_fits in Hbuf. rewrite Hdata, Hd, Ht in Hbuf.
  unfold malloc in Hbuf. rewrite length_replicate in Hbuf.
  pose proof (wrap64_range (wrap64 (prod [n; m]) * calculate_type_size dt))
    as Hw.
  rewrite Z2Nat.id in Hbuf by lia.
  replace (n * m) with (prod [n; m]) by (unfold prod; simpl; ring).
  unfold two64 in *. lia.
Qed.

Lemma malloc_indeterminate (n : Z) : Forall (eq Undef) (malloc n).
Proof. unfold malloc. apply Forall_replicate. reflexivity. Qed.

Lemma length_malloc (n : Z) : 0 <= n -> Z.of_nat (length (malloc n)) = n.
Proof. intros H. unfold malloc. rewrite length_replicate. lia. Qed.

Lemma header_fields (r a : ndarray) :
  header r = header a ->
  dimensions r = dimensions a /\ dtype r = dtype a /\ nd r = nd a /\
  length (data r) = length (data a).
Proof. intros H. injection H as H1 _ H2 H3 H4. auto. Qed.

Lemma buffer_fits_header (r a : ndarray) :
  header r = header a -> buffer_fits a -> buffer_fits r.
Proof.
  intros H Hb. apply header_fields in H. destruct H as (Hd & Ht & _ & Hl).
  unfold buffer_fits in *. rewrite Hd, Ht, Hl. exact Hb.
Qed.

(** ** The loader *)

Lemma for_up_body_ext_inv {St : Type} (Q : St -> Prop)
    (f g : Z -> St -> res St) :
  forall (n : nat) (i : Z) (s : St),
    Q s ->
    (forall k t t', i <= k < i + Z.of_nat n -> Q t -> f k t = Ok t' -> Q t') ->
    (forall k t, i <= k < i + Z.of_nat n -> Q t -> f k t = g k t) ->
    for_up n i f s = for_up n i g s.
Proof.
  induction n as [|n IH]; intros i s HQ Hkeep Hext; [reflexivity|].
  simpl. rewrite <- (Hext i s) by (lia || exact HQ).
  destruct (f i s) as [s1|] eqn:Hf; [|reflexivity].
  simpl bind. apply IH.
  - apply (Hkeep i s s1); [lia | exact HQ | exact Hf].
  - intros k t t' Hk. apply Hkeep. lia.
  - intros k t Hk. apply Hext. lia.
Qed.

Lemma elem_malloc (n : nat) (len k : Z) :
  (0 < n)%nat -> 0 <= k -> (k + 1) * Z.of_nat n <= len ->
  elem n (malloc len) k = None.
Proof.
  intros Hn Hk Hlen. unfold elem, malloc.
  rewrite drop_replicate, take_replicate.
  replace (n `min` (Z.to_nat len - Z.to_nat (k * Z.of_nat n)))%nat
    with n by lia.
  unfold decode. rewrite defined_bytes_Undef by exact Hn. reflexivity.
Qed.

Lemma elem_ptr_Ok (n : nat) (r : ndarray) (i : Z) :
  0 <= i -> i * Z.of_nat n <= Z.of_nat (length (data r)) ->
  elem_ptr n r i = Ok i.
Proof.
  intros H0 H1. unfold elem_ptr.
  destruct (Z.leb_spec 0 i); [|lia].
  destruct (Z.leb_spec (i * Z.of_nat n) (Z.of_nat (length (data r)))); [|lia].
  reflexivity.
Qed.

Lemma scan_element_header {stream : Type} (n : nat)
    (scan : stream -> option Z * stream) (m i j : Z) (arr arr' : ndarray)
    (f f' : stream) :
  scan_element stream n scan m i j arr f = Ok (arr', f') ->
  header arr' = header arr.
Proof.
  unfold scan_element. intros H. do 2 inv_bind H.
  destruct (scan f) as [[v|] f2].
  - inv_bind H. injection H as <- _. apply (store_elem_header _ _ _ _ _ Hx1).
  - injection H as <- _. reflexivity.
Qed.

(** The two loops of [ndarray_from_csv] over a fresh [rows x cols]
    matrix of [n]-byte cells: cell [k] ends up holding the [k]-th value
    converted, or stays indeterminate when that conversion fails. *)
Lemma from_csv_loop {stream : Type} (n : nat)
    (scan : stream -> option Z * stream) (rows cols : Z) (a0 : ndarray)
    (f1 : stream) :
  (0 < n)%nat -> 0 <= rows -> 0 <= cols ->
  rows * cols * Z.of_nat n < two64 ->
  data a0 = malloc (rows * cols * Z.of_nat n) ->
  exists r f2,
    for_up (Z.to_nat rows) 0
      (fun i st1 =>
         for_up (Z.to_nat cols) 0
           (fun j '(arr, f) => scan_element stream n scan cols i j arr f) st1)
      (a0, f1) = Ok (r, f2) /\
    header r = header a0 /\
    forall k, 0 <= k < rows * cols ->
      load_at n (data r) k = Ok (fit n (scanned scan f1 k)).
Proof.
  intros Hn Hrows Hcols Hsmall Hdata.
  assert (Hlen : Z.of_nat (length (data a0)) = rows * cols * Z.of_nat n)
    by (rewrite Hdata; apply length_malloc; nia).
  set (F := fun (k : Z) (a : stream) (b : ndarray) =>
              match fst (scan a) with
              | Some x => store_elem n b k (Some x)
              | None => Ok b
              end).
  set (g := fun (_ : Z) (a : stream) => snd (scan a)).
  set (G := fun (k : Z) '((b, a) : ndarray * stream) =>
              do b' <- F k a b; Ok (b', g k a)).
  set (Q := fun st : ndarray * stream => header (fst st) = header a0).
  assert (Hstep : forall i j arr f,
            0 <= i < rows -> 0 <= j < cols -> header arr = header a0 ->
            scan_element stream n scan cols i j arr f
            = G (i * Z.of_nat (Z.to_nat cols) + j) (arr, f)).
  { intros i j arr f Hi Hj Hh.
    assert (Hl : length (data arr) = length (data a0))
      by (injection Hh as _ _ _ _ Hl; exact Hl).
    assert (Hn' : 1 <= Z.of_nat n) by lia.
    assert (H1 : 0 <= i * cols /\ i * cols + cols <= rows * cols) by nia.
    assert (H2 : 0 <= rows * cols <= rows * cols * Z.of_nat n) by nia.
    assert (H3 : (i * cols + j) * Z.of_nat n <= rows * cols * Z.of_nat n)
      by nia.
    assert (H4 : i * cols * Z.of_nat n <= rows * cols * Z.of_nat n) by nia.
    unfold scan_element.
    rewrite (wrap64_small (i * cols)) by lia.
    rewrite elem_ptr_Ok by lia. simpl bind.
    rewrite elem_ptr_Ok by lia. simpl bind.
    rewrite Z2Nat.id by lia.
    unfold G, F, g. destruct (scan f) as [[x|] f']; simpl.
    - destruct (store_elem n arr (i * cols + j) (Some x)); reflexivity.
    - reflexivity. }
  rewrite (for_up_body_ext_inv Q _
             (fun i st1 =>
                for_up (Z.to_nat cols) 0
                  (fun j st2 => G (i * Z.of_nat (Z.to_nat cols) + j) st2) st1)).
  2:{ reflexivity. }
  2:{ intros i st st' Hi HQ Hrun. revert Hrun.
      apply (for_up_keeps Q); [exact HQ|].
      intros j [arr f] [arr' f'] HQ' Hb. unfold Q in *. simpl in *.
      rewrite (scan_element_header _ _ _ _ _ _ _ _ _ Hb). exact HQ'. }
  2:{ intros i st Hi HQ.
      apply (for_up_body_ext_inv Q); [exact HQ | |].
      - intros j [arr f] [arr' f'] Hj HQ' Hb. unfold Q in *. simpl in *.
        rewrite (scan_element_header _ _ _ _ _ _ _ _ _ Hb). exact HQ'.
      - intros j [arr f] Hj HQ'. apply Hstep; [lia | lia | exact HQ']. }
  rewrite (for_up_nested G (Z.to_nat cols) (Z.to_nat rows) 0 (a0, f1)).
  rewrite Z.mul_0_l. unfold G. rewrite (for_up_split F g).
  rewrite <- Z2Nat.inj_mul by lia.
  destruct (fill_line n (rows * cols)
              (fun k => match scanned scan f1 k with
                        | Some x => Some (Some x)
                        | None => None
                        end)
              (fun k b => F k (advance g (Z.to_nat (k - 0)) 0 f1) b) a0)
    as (r & Hr & Hh & Hcells); [exact Hn | nia | lia | |].
  { intros k b Hk. unfold F, scanned. rewrite Z.sub_0_r. fold g.
    destruct (fst (scan (advance g (Z.to_nat k) 0 f1))); reflexivity. }
  rewrite Hr. simpl bind. eexists r, _. split; [reflexivity|].
  split; [exact Hh|].
  intros k Hk. rewrite (Hcells k Hk). f_equal.
  destruct (scanned scan f1 k) as [x|]; [reflexivity|].
  rewrite Hdata. apply elem_malloc; [exact Hn | lia | nia].
Qed.

(** ** The test program *)

(** A loop that appends one event per round. *)
Lemma for_up_emit (body : Z -> list event -> res (list event))
    (g : Z -> event) :
  forall (n : nat) (i : Z) (out : list event),
    (forall k o, i <= k < i + Z.of_nat n -> body k o = Ok (o ++ [g k])) ->
    for_up n i body out = Ok (out ++ map g (seqZ i (Z.of_nat n))).
Proof.
  induction n as [|n IH]; intros i out Hb.
  - simpl. rewrite app_nil_r. reflexivity.
  - simpl for_up. rewrite Hb by lia. cbn [bind].
    rewrite IH by (intros k o Hk; apply Hb; lia).
    replace (Z.of_nat (S n)) with (Z.succ (Z.of_nat n)) by lia.
    rewrite (seqZ_cons i) by lia. rewrite Z.pred_succ, <- Z.add_1_r. simpl.
    rewrite <- app_assoc. reflexivity.
Qed.

Lemma rounds_u32_small (b : Z) : b < two32 -> rounds_u32 b = b.
Proof. intros H. unfold rounds_u32. destruct (Z.ltb_spec b two32); lia. Qed.

Lemma rounds_u32_large (b : Z) : two32 <= b -> rounds_u32 b = two32.
Proof. intros H. unfold rounds_u32. destruct (Z.ltb_spec b two32); lia. Qed.

(** One row of [print_ndarray] on a matrix of 8-byte elements. *)
Lemma print_row (arr : ndarray) (d0 d1 i count : Z) (out : list event) :
  row_major_layout arr -> buffer_fits arr -> dimensions arr = [d0; d1] ->
  calculate_type_size (dtype arr) = 8 ->
  0 <= i < d0 -> 0 <= count <= d1 ->
  for_up (Z.to_nat count) 0
    (fun j out =>
       do p <- ndarray_get_point arr [i; j];
       do v <- load 8 (data arr) p;
       Ok (out ++ [Printf "%.3f " [Double v]]))
    out
  = Ok (out ++ map (fun j => Printf "%.3f "
                                [Double (elem 8 (data arr) (i * d1 + j))])
                 (seqZ 0 count)).
Proof.
  intros Hlay Hbuf Hshape Hts Hi Hc.
  destruct (rank2_count arr 8 d0 d1 Hlay Hbuf Hshape ltac:(lia) ltac:(lia))
    as (_ & _ & _ & Hlen).
  rewrite (for_up_emit _
             (fun j => Printf "%.3f "
                         [Double (elem 8 (data arr) (i * d1 + j))])).
  - rewrite Z2Nat.id by lia. reflexivity.
  - intros j o Hj.
    rewrite (get_point_rank2 arr 8 d0 d1 i j Hlay Hbuf Hshape) by lia.
    cbn [bind].
    change (load 8 (data arr) ((i * d1 + j) * Z.of_nat 8))
      with (load_at 8 (data arr) (i * d1 + j)).
    rewrite load_at_elem by nia. reflexivity.
Qed.

Lemma Forall_seqZ (m n : Z) : Forall (fun x => m <= x < m + n) (seqZ m n).
Proof. apply Forall_forall. intros x Hx. apply elem_of_seqZ in Hx. exact Hx. Qed.

Lemma map_ext_Forall' {A B : Type} (P : A -> Prop) (f g : A -> B) (l : list A) :
  Forall P l -> (forall x, P x -> f x = g x) -> map f l = map g l.
Proof.
  intros Hl H. induction Hl as [|x l Hx _ IH]; [reflexivity|].
  simpl. rewrite (H x Hx), IH. reflexivity.
Qed.

Lemma flat_map_ext_Forall {A B : Type} (P : A -> Prop) (f g : A -> list B)
    (l : list A) :
  Forall P l -> (forall x, P x -> f x = g x) -> flat_map f l = flat_map g l.
Proof.
  intros Hl H. induction Hl as [|x l Hx _ IH]; [reflexivity|].
  simpl. rewrite (H x Hx), IH. reflexivity.
Qed.

Lemma printed_matrix_ext (rows cols : Z) (c1 c2 : Z -> Z -> scalar) :
  (forall i j, 0 <= i < rows -> 0 <= j < cols -> c1 i j = c2 i j) ->
  printed_matrix rows cols c1 = printed_matrix rows cols c2.
Proof.
  intros H. unfold printed_matrix. f_equal.
  apply (flat_map_ext_Forall _ _ _ _ (Forall_seqZ 0 rows)).
  intros i Hi. f_equal. f_equal.
  apply (map_ext_Forall' _ _ _ _ (Forall_seqZ 0 cols)).
  intros j Hj. rewrite H by lia. reflexivity.
Qed.

(** [print_ndarray] on a matrix of 8-byte elements. *)
Lemma print_ndarray_spec (arr : ndarray) (d0 d1 : Z) (out : list event) :
  row_major_layout arr -> buffer_fits arr -> dimensions arr = [d0; d1] ->
  calculate_type_size (dtype arr) = 8 -> 0 <= d0 -> 0 <= d1 ->
  print_ndarray arr out
  = Ok (if (d0 <? two32) && ((d0 =? 0) || (d1 <? two32))
        then Returns (out ++ printed_matrix d0 d1
                                (fun i j => elem 8 (data arr) (i * d1 + j)))
        else Forever).
Proof.
  intros Hlay Hbuf Hshape Hts Hd0 Hd1.
  assert (Hdim0 : dim arr 0 = Ok d0) by (unfold dim; rewrite Hshape; reflexivity).
  assert (Hdim1 : dim arr 1 = Ok d1) by (unfold dim; rewrite Hshape; reflexivity).
  unfold print_ndarray. rewrite Hdim0. cbn [bind].
  set (row := fun i =>
         Printf row_open []
         :: map (fun j => Printf "%.3f "
                            [Double (elem 8 (data arr) (i * d1 + j))])
              (seqZ 0 d1)
         ++ [Printf row_close []]).
  assert (H32 : two32 = 4294967296) by reflexivity.
  assert (Hrounds : 0 <= rounds_u32 d0 <= d0).
  { unfold rounds_u32. destruct (Z.ltb_spec d0 two32); lia. }
  destruct (Z.ltb_spec d1 two32) as [Hd1s|Hd1l].
  - (* every row returns *)
    match goal with
    | |- bind (for_up _ _ ?body _) _ = _ =>
        destruct (for_up_total
                    (fun i (st : termination (list event)) =>
                       st = Returns (out ++ flat_map row (seqZ 0 i)))
                    body (Z.to_nat (rounds_u32 d0)) 0 (Returns out))
          as (st & Hrun & Hst)
    end.
    + cbn [Z.to_nat]. change (seqZ 0 0) with (@nil Z). cbn [flat_map].
      rewrite app_nil_r. reflexivity.
    + intros i st Hi ->. rewrite Hdim1. cbn [bind].
      rewrite (rounds_u32_small d1 Hd1s).
      rewrite (print_row arr d0 d1 i d1 _ Hlay Hbuf Hshape Hts) by lia.
      cbn [bind]. rewrite (proj2 (Z.ltb_lt d1 two32) Hd1s).
      eexists. split; [reflexivity|]. f_equal.
      rewrite (seqZ_app 0 i 1) by lia. rewrite flat_map_app.
      change (seqZ (0 + i) 1) with [0 + i]. cbn [flat_map].
      rewrite Z.add_0_l, app_nil_r. unfold row.
      rewrite <- !app_assoc. reflexivity.
    + rewrite Hrun, Hst. cbn [bind]. rewrite Z.add_0_l, Z2Nat.id by lia.
      rewrite orb_true_r, andb_true_r.
      destruct (Z.ltb_spec d0 two32) as [Hd0s|Hd0l]; [|reflexivity].
      rewrite (rounds_u32_small d0 Hd0s).
      unfold printed_matrix. fold row. rewrite app_assoc. reflexivity.
  - (* the first row does not return *)
    rewrite orb_false_r.
    destruct (Z.eqb_spec d0 0) as [->|Hnz].
    + reflexivity.
    + rewrite andb_false_r.
      assert (Hpos : (0 < Z.to_nat (rounds_u32 d0))%nat).
      { unfold rounds_u32. destruct (Z.ltb_spec d0 two32); lia. }
      destruct (Z.to_nat (rounds_u32 d0)) as [|c] eqn:E; [lia|].
      cbn [for_up]. rewrite Hdim1. cbn [bind].
      rewrite (rounds_u32_large d1 Hd1l).
      rewrite (print_row arr d0 d1 0 two32 _ Hlay Hbuf Hshape Hts)
        by lia.
      cbn [bind]. rewrite (proj2 (Z.ltb_ge d1 two32) Hd1l). cbn [bind].
      rewrite for_up_fixed by reflexivity. reflexivity.
Qed.

(** [ndarray_set_point] at index [(0, 0)] of a matrix of 8-byte elements
    replaces cell 0 and keeps every other cell. *)
Lemma set_point_first_cell (a : ndarray) (d0 d1 v : Z) :
  row_major_layout a -> buffer_fits a -> dimensions a = [d0; d1] ->
  calculate_type_size (dtype a) = 8 -> 0 < d0 -> 0 < d1 ->
  0 <= v < 2 ^ 64 ->
  exists a',
    ndarray_set_point a [0; 0] (encode 8 (Some v)) = Ok (a', 0) /\
    header a' = header a /\
    elem 8 (data a') 0 = Some v /\
    forall k, 0 < k -> elem 8 (data a') k = elem 8 (data a) k.
Proof.
  intros Hlay Hbuf Hshape Hts Hd0 Hd1 Hv.
  destruct (rank2_count a 8 d0 d1 Hlay Hbuf Hshape ltac:(lia) ltac:(lia))
    as (_ & _ & _ & Hlen).
  assert (Hlen8 : (8 <= length (data a))%nat) by nia.
  pose proof (get_point_rank2 a 8 d0 d1 0 0 Hlay Hbuf Hshape ltac:(lia)
                ltac:(lia) ltac:(lia)) as Hgp.
  change ((0 * d1 + 0) * Z.of_nat 8) with 0 in Hgp.
  unfold ndarray_get_point in Hgp.
  unfold ndarray_set_point. rewrite Hgp. cbn [bind]. rewrite Hts.
  change (Z.to_nat 8) with 8%nat. rewrite (length_encode 8 (Some v)).
  change (8 <? 8)%nat with false. cbv iota.
  destruct ((0 <=? 0) && (0 + Z.of_nat 8 <=? Z.of_nat (length (data a))))
    eqn:E.
  2:{ apply not_true_iff_false in E. rewrite in_bounds_dec in E. lia. }
  eexists. split; [reflexivity|].
  assert (Htake : take 8 (encode 8 (Some v)) = encode 8 (Some v))
    by (apply take_ge; rewrite (length_encode 8 (Some v)); lia).
  rewrite Htake. change (Z.to_nat 0) with 0%nat.
  rewrite take_0. cbn [app Nat.add].
  split; [|split].
  - apply with_data_header.
    rewrite length_app, (length_encode 8 (Some v)), length_drop. lia.
  - unfold elem. cbn [data with_data].
    change (Z.to_nat (0 * Z.of_nat 8)) with 0%nat. rewrite drop_0.
    rewrite take_app_length' by apply (length_encode 8 (Some v)).
    rewrite (decode_encode 8 (Some v)) by lia.
    apply fit_small. change (256 ^ Z.of_nat 8) with (2 ^ 64). exact Hv.
  - intros k Hk. unfold elem. cbn [data with_data].
    pose proof (splice_cell_other (data a) (encode 8 (Some v)) 0 8
                  (Z.to_nat (k * Z.of_nat 8)) 8
                  (length_encode 8 (Some v)) ltac:(lia) ltac:(right; lia))
      as Hs.
    rewrite take_0 in Hs. cbn [app Nat.add] in Hs. rewrite Hs. reflexivity.
Qed.

(** What [ndarray_random_normal] returns and prints for doubles. *)
Lemma random_normal_doubles (RAND_MAX : Z) (rand : Z -> Z)
    (sqrt log cos : Z -> Z)
    (n_samples n_features mean std : Z) (dtype : ascii) (out : list event)
    (fresh : ndarray) :
  uint64 n_samples -> uint64 n_features ->
  ndarray_create [n_samples; n_features] 2 dtype = Ok (Some fresh) ->
  buffer_fits fresh -> dtype = "d"%char ->
  let value := normal_value RAND_MAX rand sqrt log cos mean std in
  exists r,
    ndarray_random_normal RAND_MAX rand sqrt log cos n_samples n_features
      mean std dtype out
    = Ok (Some r,
          out ++ map (fun i => Printf "%.3f " [Double (Some (value i))])
                   (seqZ 0 (n_samples * n_features))) /\
    live r /\ buffer_fits r /\
    ndarray_shape r = [n_samples; n_features] /\ ndarray_dtype r = dtype /\
    forall i, 0 <= i < n_samples * n_features ->
      load_at 8 (data r) i = Ok (Some (value i)).
Proof.
  intros Hn Hm Hfresh Hfits Ed value.
  pose proof (created_matrix_fits _ _ _ _ Hn Hm Hfresh Hfits) as Hsmall.
  destruct (create_matrix n_samples n_features dtype Hn Hm Hsmall)
    as (a0 & Hc & Hlive & Hbuf & Hd & Ht & Hnd & Hdata & Hcnt).
  pose proof Hn as [Hn0 _]. pose proof Hm as [Hm0 _].
  assert (Hts : calculate_type_size dtype = 8) by (rewrite Ed; reflexivity).
  assert (Hlen : Z.of_nat (length (data a0))
                 = n_samples * n_features * calculate_type_size dtype).
  { rewrite Hdata. apply length_malloc. nia. }
  unfold ndarray_random_normal. rewrite Hc. simpl bind. fold value.
  unfold ndarray_shape, ndarray_dtype.
  rewrite (proj2 (Ascii.eqb_eq dtype "d"%char) Ed).
  rewrite Hcnt by lia.
  rewrite (for_up_body_ext _
             (fun k '(b, a) =>
                do b' <- store_elem 8 b k (Some (value k));
                Ok (b', a ++ [Printf "%.3f " [Double (Some (value k))]]))).
  2:{ intros k [arr o] Hk. unfold store_elem, store_at.
      destruct (store 8 (data arr) (k * Z.of_nat 8) (Some (value k)))
        as [mm|] eqn:Hst; [|reflexivity].
      simpl bind. unfold load_at.
      rewrite (load_store_same 8 _ _ _ _ ltac:(lia) Hst).
      rewrite fit_small by apply result64_range. reflexivity. }
  rewrite (for_up_split
             (fun k (a : list event) b => store_elem 8 b k (Some (value k)))
             (fun k a => a ++ [Printf "%.3f " [Double (Some (value k))]])).
  destruct (fill_line 8 (n_samples * n_features)
              (fun i => Some (Some (value i)))
              (fun i arr => store_elem 8 arr i (Some (value i)))
              a0) as (r & Hr & Hh & Hcells); [lia | nia | lia | auto |].
  rewrite Hr. simpl bind. exists r.
  destruct (header_fields r a0 Hh) as (Hrd & Hrt & _ & _).
  split.
  { rewrite advance_output. rewrite Z2Nat.id by nia. reflexivity. }
  split; [apply (live_header a0 r Hlive Hh)|].
  split; [apply (buffer_fits_header r a0 Hh Hbuf)|].
  split; [congruence|]. split; [congruence|].
  intros i Hi. rewrite (Hcells i Hi). f_equal.
  apply fit_small. apply result64_range.
Qed.

(** * The claims *)

(** ** C1: the matrix product *)

(** C1 at [[1, 2]] (1x2) times [[3], [4]] (2x1).  The output is allocated
    with the shape of the first operand, so the product comes back with
    shape [1, 2] instead of [1, 1]: its first cell holds 1*3 + 2*4 = 11
    and its second cell is never written.  A mismatched inner dimension
    yields [NULL]. *)
Theorem dot_output_has_shape_of_first_operand :
  ndarray_dot Null row_1_2 col_3_4
  = Ok (Some {| data := doubles [11] ++ malloc 8;
                dimensions := [1; 2]; strides := [16; 8];
                nd := 2; dtype := "d"%char |}) /\
  ndarray_dot Null row_1_2 row_1_2 = Ok None.
Proof. split; vm_compute; reflexivity. Qed.

(** ** C2: concatenation *)

(** C2 at the vectors [1, 2] and [3] joined along axis 0.  The shape of
    the result is [3], but the linear index is decomposed with the byte
    stride 8, so every element is copied from cell 0 of the first
    operand: the result is [1, 1, 1], not [1, 2, 3].  On the two 2x3
    matrices of the specification's scenario, joined along axis 0, the
    source index computed from the byte strides lies outside the
    operand's buffer. *)
Theorem concat_decomposes_with_byte_strides :
  ndarray_concat vec_1_2 vec_3 0
  = Ok (Some {| data := doubles [1; 1; 1];
                dimensions := [3]; strides := [8];
                nd := 1; dtype := "d"%char |}) /\
  ndarray_concat m23_1_6 m23_7_12 0 = Fault.
Proof. split; vm_compute; reflexivity. Qed.

(** ** C3: zero-padded addition *)

(** C3 at [[5]] (1x1) plus [[1, 2]] (1x2).  The working shape is 1x2, but
    the output is allocated with the shape of the first operand (one
    cell), so the write of cell (0, 1) falls outside its buffer. *)
Theorem broadcast_add_output_has_shape_of_first_operand :
  result_or_create None one_5
  = Ok (Some {| data := malloc 8; dimensions := [1; 1]; strides := [8; 8];
                nd := 2; dtype := "d"%char |}) /\
  ndarray_broadcast_add None one_5 row_1_2 = Fault.
Proof. split; vm_compute; reflexivity. Qed.

(** ** C4: addition and subtraction beyond rank 2 *)

(** C4 at two arrays of shape 1x1x2.  The loop bound is
    [shape[0] * shape[1] = 1], so only the first of the two elements is
    added (1 + 10 = 11); the second cell of the output is never written.
    The same holds for [ndarray_subtract] (1 - 10 = -9). *)
Theorem add_covers_two_axes_only :
  ndarray_add None cube_1_2 cube_10_20
  = Ok (Some {| data := doubles [11] ++ malloc 8;
                dimensions := [1; 1; 2]; strides := [16; 16; 8];
                nd := 3; dtype := "d"%char |}) /\
  ndarray_subtract None cube_1_2 cube_10_20
  = Ok (Some {| data := doubles [-9] ++ malloc 8;
                dimensions := [1; 1; 2]; strides := [16; 16; 8];
                nd := 3; dtype := "d"%char |}).
Proof. split; vm_compute; reflexivity. Qed.

(** ** C5: indexing is unchecked *)

(** C5, amended.  [ndarray_get_point] and [ndarray_set_point_d] check no
    bound: for every index tuple with one entry per axis, in range or
    not, the address returned is at byte offset
    [sum idx[i] * strides[i]] modulo 2^64, and the setter writes its 8
    bytes at that same offset and returns 0 whenever they lie inside the
    buffer. *)
Theorem get_set_offset_unchecked (a : ndarray) (idx : list Z) :
  length (strides a) = Z.to_nat (nd a) ->
  length idx = Z.to_nat (nd a) ->
  let offset := wrap64 (offset_sum (strides a) idx) in
  ndarray_get_point a idx = Ok offset /\
  forall v,
    offset + 8 <= Z.of_nat (length (data a)) ->
    exists a',
      ndarray_set_point_d a idx v = Ok (a', 0) /\
      header a' = header a /\
      load 8 (data a') offset = Ok (fit 8 (Some v)).
Proof.
  intros Hs Hx offset.
  pose proof (point_offset_spec a idx Hs Hx) as Hoff. fold offset in Hoff.
  split; [exact Hoff|].
  intros v Hin.
  pose proof (wrap64_range (offset_sum (strides a) idx)) as Hr.
  fold offset in Hr.
  unfold ndarray_set_point_d, set_scalar. rewrite Hoff. simpl bind.
  destruct (store 8 (data a) offset (Some v)) as [m|] eqn:Hst.
  - simpl bind. eexists. split; [reflexivity|]. split.
    + apply with_data_header. apply (store_length _ _ _ _ _ Hst).
    + simpl data. apply (load_store_same 8 _ _ _ _ ltac:(lia) Hst).
  - rewrite store_Ok in Hst by (simpl; lia). discriminate.
Qed.

(** ** C6: the stride invariant *)

(** C6.  Every array produced by [ndarray_create] with a rank of at least
    1 (and within what the [int] counter of the stride loop can hold), and
    every array any later operation returns or updates, satisfies the
    stride invariant: the last stride is the element size of the dtype,
    and [strides[i] == strides[i+1] * shape[i+1]] for every [i < rank - 1],
    the product being the [uint64_t] one. *)
Theorem stride_invariant_preserved (a : ndarray) :
  live a -> stride_invariant a.
Proof. intros H. apply row_major_stride_invariant, live_row_major, H. Qed.

(** ** C7: subsampling *)

(** C7 at the one-row array [[[1, 2]]] of shape 1x1x2 with one sample,
    for every sequence of random numbers.  A row is copied as
    [shape[1] = 1] element, so the second element of the only row is
    never written: the row returned is not the row of the source.  More
    samples than rows yield [NULL]. *)
Theorem subsample_copies_second_axis_only (rand : Z -> Z) :
  ndarray_subsample rand cube_1_2 1
  = Ok (Some {| data := doubles [1] ++ malloc 8;
                dimensions := [1; 1; 2]; strides := [16; 16; 8];
                nd := 3; dtype := "d"%char |}) /\
  ndarray_subsample rand cube_1_2 2 = Ok None.
Proof.
  split; [|reflexivity].
  unfold ndarray_subsample. simpl dim. simpl bind. cbv iota.
  change (wr (fresh_vector (nd cube_1_2)) 0 1) with (Ok [1; 0; 0]).
  simpl bind. simpl for_up. rewrite Z.mod_1_r. vm_compute. reflexivity.
Qed.

(** ** C8: dtype dispatch *)


(** ** C9: transposition *)

(** C9 at the 1x1 array [[7]] of the unsigned 64-bit dtype.  The copy
    loop has a case for ['d'] and one for ['f'] only, so the transposed
    array is returned with its buffer never written: its element is
    indeterminate, not 7.  An array of rank 3 yields [NULL]. *)
Theorem transpose_skips_u64 :
  ndarray_transpose u64_7
  = Ok (Some {| data := malloc 8; dimensions := [1; 1]; strides := [8; 8];
                nd := 2; dtype := "i"%char |}) /\
  load_at 8 (data u64_7) 0 = Ok (Some 7) /\
  load_at 8 (malloc 8) 0 = Ok None /\
  ndarray_transpose cube_1_2 = Ok None.
Proof. repeat split; vm_compute; reflexivity. Qed.

(** ** C10: set then get *)

(** C10, amended.  On every live array whose buffer has the length its
    shape gives, for every in-range index and every value of the array's dtype
    (a 64-bit pattern for ['d'] and ['i'], a 32-bit one for ['f']), the
    typed setter followed by a read through [ndarray_get_point] yields
    exactly that value; and the generic setter followed by a read yields
    exactly the element's bytes. *)
Theorem set_get_roundtrip (a : ndarray) (idx : list Z) :
  live a -> buffer_fits a -> in_range a idx = true ->
  (forall v, dtype a = "d"%char -> 0 <= v < 2 ^ 64 ->
     exists a' p, ndarray_set_point_d a idx v = Ok (a', 0) /\
                  ndarray_get_point a' idx = Ok p /\
                  load 8 (data a') p = Ok (Some v)) /\
  (forall v, dtype a = "f"%char -> 0 <= v < 2 ^ 32 ->
     exists a' p, ndarray_set_point_f a idx v = Ok (a', 0) /\
                  ndarray_get_point a' idx = Ok p /\
                  load 4 (data a') p = Ok (Some v)) /\
  (forall v, dtype a = "i"%char -> 0 <= v < 2 ^ 64 ->
     exists a' p, ndarray_set_point_u64 a idx v = Ok (a', 0) /\
                  ndarray_get_point a' idx = Ok p /\
                  load 8 (data a') p = Ok (Some v)) /\
  (forall src, Z.of_nat (length src) = calculate_type_size (dtype a) ->
     exists a' p, ndarray_set_point a idx src = Ok (a', 0) /\
                  ndarray_get_point a' idx = Ok p /\
                  take (length src) (drop (Z.to_nat p) (data a')) = src).
Proof.
  intros Hlive Hbuf Hidx. pose proof (live_row_major a Hlive) as Hlay.
  split; [|split; [|split]].
  - intros v Hd Hv.
    destruct (set_scalar_roundtrip 8 a idx v Hlay Hbuf Hidx)
      as (a' & p & H1 & H2 & _ & H3); [lia | rewrite Hd; vm_compute; discriminate | exact Hv |].
    exists a', p. auto.
  - intros v Hd Hv.
    destruct (set_scalar_roundtrip 4 a idx v Hlay Hbuf Hidx)
      as (a' & p & H1 & H2 & _ & H3); [lia | rewrite Hd; vm_compute; discriminate | exact Hv |].
    exists a', p. auto.
  - intros v Hd Hv.
    destruct (set_scalar_roundtrip 8 a idx v Hlay Hbuf Hidx)
      as (a' & p & H1 & H2 & _ & H3); [lia | rewrite Hd; vm_compute; discriminate | exact Hv |].
    exists a', p. auto.
  - intros src Hsrc.
    destruct (point_offset_in_range a idx Hlay Hbuf Hidx) as (Hoff & Hlo & Hhi).
    set (p := offset_sum (strides a) idx) in *.
    unfold ndarray_set_point. rewrite Hoff. simpl bind.
    replace (Z.to_nat (calculate_type_size (dtype a))) with (length src) by lia.
    rewrite Nat.ltb_irrefl.
    destruct (_ && _) eqn:E.
    + eexists. exists p. split; [reflexivity|]. split; [exact Hoff|].
      simpl data. rewrite (take_ge src) by lia.
      rewrite drop_app_length' by (rewrite length_take; lia).
      apply take_app_length.
    + apply not_true_iff_false in E. rewrite in_bounds_dec in E. lia.
Qed.

(** * Further properties of the code *)

(** [ndarray_create] on a shape of 1 to 2^31 extents, the allocations
    of the header succeeding: the array returned has the shape, the rank
    and the dtype given, and [ndarray_size] of it is the product of the
    extents (modulo 2^64).  Nothing is said of the buffer, whose
    allocation the code does not check. *)
Theorem create_shape_and_size (dims : list Z) (dt : ascii) :
  rank_fits_int (Z.of_nat (length dims)) ->
  exists a,
    ndarray_create dims (Z.of_nat (length dims)) dt = Ok (Some a) /\
    ndarray_shape a = dims /\
    ndarray_ndim a = Z.of_nat (length dims) /\
    ndarray_dtype a = dt /\
    ndarray_size a = Ok (wrap64 (prod dims)).
Proof.
  intros Hfit.
  destruct (ndarray_create_spec dims (Z.of_nat (length dims)) dt Hfit)
    as (a & Hc & Hd & Hn & Ht & _ & _ & Hdata); [lia|].
  rewrite Nat2Z.id, take_ge in Hd by lia.
  exists a. split; [exact Hc|]. unfold ndarray_shape, ndarray_ndim, ndarray_dtype.
  do 3 (split; [assumption|]).
  unfold ndarray_size, dim. rewrite Hn, Hd.
  pose proof (calculate_size_spec dims (Z.of_nat (length dims))) as Hsz.
  unfold calculate_size in Hsz. rewrite Hsz by lia.
  rewrite Nat2Z.id, take_ge by lia. reflexivity.
Qed.

(** Transposition of a live matrix of doubles or floats: the result is a
    live matrix of the swapped shape, and its cell [(j, i)] holds what
    cell [(i, j)] of the source holds. *)
Theorem transpose_permutes (a : ndarray) :
  live a -> buffer_fits a -> nd a = 2 ->
  dtype a = "d"%char \/ dtype a = "f"%char ->
  exists r d0 d1 (n : nat),
    dimensions a = [d0; d1] /\
    Z.of_nat n = calculate_type_size (dtype a) /\
    ndarray_transpose a = Ok (Some r) /\
    live r /\ buffer_fits r /\
    dimensions r = [d1; d0] /\ dtype r = dtype a /\
    forall i j, 0 <= i < d0 -> 0 <= j < d1 ->
      exists v, load_at n (data a) (i * d1 + j) = Ok v /\
                load_at n (data r) (j * d0 + i) = Ok v.
Proof.
  intros Hlive Hbuf Hrank Hdt.
  pose proof (live_row_major a Hlive) as Hlay.
  destruct (rank2_shape a Hlay Hrank) as (d0 & d1 & Hshape & _ & _).
  destruct (rank2_extents a d0 d1 (live_extents a Hlive) Hshape) as [Hd0 Hd1].
  destruct (handled_dtype_size a Hdt) as (n & Hts & Hn & Htag).
  destruct (ndarray_transpose_spec a n d0 d1 Hlay Hbuf Hrank Hshape Hd0 Hd1
              Hts Hn Htag)
    as (r & Hr & Hrd & Hrt & Hrn & Hrlay & Hrbuf & Hcells).
  exists r, d0, d1, n. do 3 (split; [assumption|]).
  split; [apply (live_transpose a r Hlive Hr)|].
  do 3 (split; [assumption|]).
  intros i j Hi Hj. exists (elem n (data a) (i * d1 + j)).
  split; [|apply Hcells; assumption].
  apply load_at_elem; [nia|].
  unfold buffer_fits in Hbuf. rewrite Hbuf, Hshape, <- Hts.
  change (prod [d0; d1]) with (d0 * (d1 * 1)). nia.
Qed.

(** Transposing a live matrix of doubles or floats, whose buffer has the
    length its shape gives, twice gives back the shape and every
    element. *)
Theorem transpose_involutive (a : ndarray) :
  live a -> buffer_fits a -> nd a = 2 ->
  dtype a = "d"%char \/ dtype a = "f"%char ->
  exists r r2 (n : nat),
    Z.of_nat n = calculate_type_size (dtype a) /\
    ndarray_transpose a = Ok (Some r) /\
    ndarray_transpose r = Ok (Some r2) /\
    dimensions r2 = dimensions a /\ dtype r2 = dtype a /\
    forall k, 0 <= k < prod (dimensions a) ->
      exists v, load_at n (data a) k = Ok v /\ load_at n (data r2) k = Ok v.
Proof.
  intros Hlive Hbuf Hrank Hdt.
  pose proof (live_row_major a Hlive) as Hlay.
  destruct (rank2_shape a Hlay Hrank) as (d0 & d1 & Hshape & _ & _).
  destruct (rank2_extents a d0 d1 (live_extents a Hlive) Hshape) as [Hd0 Hd1].
  destruct (handled_dtype_size a Hdt) as (n & Hts & Hn & Htag).
  destruct (ndarray_transpose_spec a n d0 d1 Hlay Hbuf Hrank Hshape Hd0 Hd1
              Hts Hn Htag)
    as (r & Hr & Hrd & Hrt & Hrn & Hrlay & Hrbuf & Hcells).
  assert (Htag' : (is_d r = true /\ n = 8%nat) \/
                  (is_d r = false /\ is_f r = true /\ n = 4%nat))
    by (rewrite (is_d_dtype r a Hrt), (is_f_dtype r a Hrt); exact Htag).
  assert (Hts' : Z.of_nat n = calculate_type_size (dtype r))
    by (rewrite Hrt; exact Hts).
  destruct (ndarray_transpose_spec r n d1 d0 Hrlay Hrbuf Hrn Hrd Hd1 Hd0
              Hts' Hn Htag')
    as (r2 & Hr2 & Hr2d & Hr2t & _ & _ & _ & Hcells2).
  exists r, r2, n. do 3 (split; [assumption|]).
  split; [congruence|]. split; [congruence|].
  rewrite Hshape. change (prod [d0; d1]) with (d0 * (d1 * 1)).
  intros k Hk.
  assert (Hd1pos : 0 < d1) by nia.
  pose proof (Z.div_mod k d1 ltac:(lia)) as Hdm.
  pose proof (Z.mod_pos_bound k d1 Hd1pos) as Hj.
  assert (Hi : 0 <= k / d1 < d0).
  { split; [apply Z.div_pos; lia|].
    apply Z.div_lt_upper_bound; lia. }
  set (i := k / d1) in *. set (j := k mod d1) in *.
  assert (Hk' : k = i * d1 + j) by lia.
  unfold buffer_fits in Hbuf, Hrbuf.
  rewrite Hshape, <- Hts in Hbuf. rewrite Hrd, <- Hts' in Hrbuf.
  change (prod [d0; d1]) with (d0 * (d1 * 1)) in Hbuf.
  change (prod [d1; d0]) with (d1 * (d0 * 1)) in Hrbuf.
  exists (elem n (data a) k). split.
  - apply load_at_elem; nia.
  - rewrite Hk'. rewrite (Hcells2 j i Hj Hi). f_equal.
    pose proof (Hcells i j Hi Hj) as Hc1.
    rewrite load_at_elem in Hc1 by nia.
    injection Hc1 as Hc1. exact Hc1.
Qed.

(** Subsampling of a live matrix of doubles or floats whose buffer has
    the length its shape gives, for every sequence of random numbers:
    more samples than rows yield [NULL]; otherwise, when the source has
    fewer than 2^61 rows (so that the byte size of the index vector does
    not wrap), the result has [n_samples] rows, each a copy of a row of
    the source, and no source row is used twice. *)
Theorem subsample_distinct_rows (rand : Z -> Z) (a : ndarray) (n_samples : Z) :
  live a -> buffer_fits a -> nd a = 2 ->
  dtype a = "d"%char \/ dtype a = "f"%char ->
  uint64 n_samples ->
  exists d0 d1 (n : nat),
    dimensions a = [d0; d1] /\
    Z.of_nat n = calculate_type_size (dtype a) /\
    (d0 < n_samples -> ndarray_subsample rand a n_samples = Ok None) /\
    (n_samples <= d0 -> d0 < 2 ^ 61 ->
     exists r rows,
       ndarray_subsample rand a n_samples = Ok (Some r) /\
       dimensions r = [n_samples; d1] /\ dtype r = dtype a /\
       length rows = Z.to_nat n_samples /\
       NoDup rows /\ Forall (fun k => 0 <= k < d0) rows /\
       forall i j, 0 <= i < n_samples -> 0 <= j < d1 ->
         exists k v, rows !! Z.to_nat i = Some k /\
                     load_at n (data a) (k * d1 + j) = Ok v /\
                     load_at n (data r) (i * d1 + j) = Ok v).
Proof.
  intros Hlive Hbuf Hrank Hdt [Hn0 _].
  pose proof (live_row_major a Hlive) as Hlay.
  destruct (rank2_shape a Hlay Hrank) as (d0 & d1 & Hshape & Hdim0 & _).
  destruct (rank2_extents a d0 d1 (live_extents a Hlive) Hshape) as [Hd0 Hd1].
  destruct (handled_dtype_size a Hdt) as (n & Hts & Hn & Htag).
  exists d0, d1, n. do 2 (split; [assumption|]). split.
  - intros Hgt. unfold ndarray_subsample. run Hdim0.
    destruct (Z.ltb_spec d0 n_samples); [reflexivity | lia].
  - intros Hle Hrows.
    destruct (ndarray_subsample_spec rand a n_samples n d0 d1 Hlay Hbuf Hrank
                Hshape Hd0 Hd1 Hts Hn Htag (conj Hn0 Hle) Hrows)
      as (r & rows & Hr & Hrd & Hrt & Hlen & Hnd & Hall & Hcells).
    exists r, rows. do 6 (split; [assumption|]).
    intros i j Hi Hj. destruct (Hcells i j Hi Hj) as (k & Hk & Hload).
    exists k, (elem n (data a) (k * d1 + j)).
    split; [exact Hk|]. split; [|exact Hload].
    pose proof (Forall_lookup_1 _ _ _ _ Hall Hk) as Hkr. simpl in Hkr.
    apply load_at_elem; [nia|].
    unfold buffer_fits in Hbuf. rewrite Hbuf, Hshape, <- Hts.
    change (prod [d0; d1]) with (d0 * (d1 * 1)). nia.
Qed.

(** The matrix product written into an output the caller supplies,
    which is neither operand.  For live matrices of doubles or floats [a]
    ([m x inner]) and [b], all buffers having the length their shape
    gives: if the inner extents differ the result is [NULL]; otherwise,
    with a live output of shape [m x cols] and the same dtype, the output
    is returned and its cell [(i, j)] holds the sum over [k] of
    [a[i,k] * b[k,j]], accumulated in a [double]. *)
Theorem dot_into_output (out a b : ndarray) :
  live out -> live a -> live b ->
  buffer_fits out -> buffer_fits a -> buffer_fits b ->
  nd a = 2 -> nd b = 2 -> dtype b = dtype a ->
  dtype a = "d"%char \/ dtype a = "f"%char ->
  exists m inner inner' cols (n : nat),
    dimensions a = [m; inner] /\ dimensions b = [inner'; cols] /\
    Z.of_nat n = calculate_type_size (dtype a) /\
    (inner <> inner' -> ndarray_dot (Other out) a b = Ok None) /\
    (inner = inner' -> dimensions out = [m; cols] -> dtype out = dtype a ->
     exists r,
       ndarray_dot (Other out) a b = Ok (Some r) /\
       dimensions r = [m; cols] /\ dtype r = dtype a /\
       forall i j, 0 <= i < m -> 0 <= j < cols ->
         load_at n (data r) (i * cols + j)
         = Ok (dot_cell a b inner cols i j)).
Proof.
  intros Hlo Hla Hlb Hbo Hba Hbb Hra Hrb Hdt Htags.
  pose proof (live_row_major a Hla) as Hlaya.
  pose proof (live_row_major b Hlb) as Hlayb.
  pose proof (live_row_major out Hlo) as Hlayo.
  destruct (rank2_shape a Hlaya Hra) as (m & inner & Hsa & _ & Ha1).
  destruct (rank2_shape b Hlayb Hrb) as (inner' & cols & Hsb & Hb0 & _).
  destruct (rank2_extents a m inner (live_extents a Hla) Hsa) as [Hm Hin].
  destruct (rank2_extents b inner' cols (live_extents b Hlb) Hsb) as [_ Hcols].
  destruct (handled_dtype_size a Htags) as (n & Hts & Hn & Htag).
  exists m, inner, inner', cols, n. do 3 (split; [assumption|]). split.
  - intros Hne. unfold ndarray_dot.
    rewrite Hra, Hrb, Hdt, Ascii.eqb_refl. simpl negb. cbv iota.
    run Ha1. run Hb0.
    destruct (Z.eqb_spec inner inner'); [contradiction | reflexivity].
  - intros <- Hso Hto.
    destruct (ndarray_dot_spec (Some out) a b out n m inner cols
                Hlaya Hlayb Hba Hbb Hra Hrb Hdt Hsa Hsb Hm Hin Hcols
                Hts Hn Htag eq_refl) as (r & Hr & Hh & Hcells).
    + split; [|apply (live_buffer_bound out Hlayo)].
      unfold buffer_fits in Hbo. rewrite Hbo, Hso, Hto, <- Hts.
      change (prod [m; cols]) with (m * (cols * 1)). lia.
    + exists r. split; [exact Hr|].
      injection Hh as Hhd _ _ Hht _.
      split; [congruence|]. split; [congruence | exact Hcells].
Qed.

(** The matrix product without an output supplied, of live matrices of
    doubles or floats whose buffers have the length their shape gives,
    when [b] is square: the result has the shape [m x cols] of the
    product and holds the product. *)
Theorem dot_by_square_matrix (a b : ndarray) :
  live a -> live b -> buffer_fits a -> buffer_fits b ->
  nd a = 2 -> nd b = 2 -> dtype b = dtype a ->
  dtype a = "d"%char \/ dtype a = "f"%char ->
  exists m cols (n : nat),
    dimensions a = [m; cols] /\
    Z.of_nat n = calculate_type_size (dtype a) /\
    (dimensions b = [cols; cols] ->
     exists r,
       ndarray_dot Null a b = Ok (Some r) /\
       dimensions r = [m; cols] /\ dtype r = dtype a /\
       forall i j, 0 <= i < m -> 0 <= j < cols ->
         load_at n (data r) (i * cols + j)
         = Ok (dot_cell a b cols cols i j)).
Proof.
  intros Hla Hlb Hba Hbb Hra Hrb Hdt Htags.
  pose proof (live_row_major a Hla) as Hlaya.
  pose proof (live_row_major b Hlb) as Hlayb.
  destruct (rank2_shape a Hlaya Hra) as (m & cols & Hsa & _ & _).
  destruct (rank2_extents a m cols (live_extents a Hla) Hsa) as [Hm Hcols].
  destruct (handled_dtype_size a Htags) as (n & Hts & Hn & Htag).
  exists m, cols, n. do 2 (split; [assumption|]).
  intros Hsb.
  pose proof Hlaya as (Hfit & Hld & _ & _ & Hdata).
  destruct (ndarray_create_spec (dimensions a) (nd a) (dtype a) Hfit)
    as (r0 & Hc & Hrd & Hrn & Hrt & _ & _ & Hrdata); [lia|].
  rewrite take_ge in Hrd by lia.
  pose proof (ndarray_create_layout _ _ _ _ Hfit Hc) as (Hlay0 & _).
  destruct (ndarray_dot_spec None a b r0 n m cols cols
              Hlaya Hlayb Hba Hbb Hra Hrb Hdt Hsa Hsb Hm Hcols Hcols
              Hts Hn Htag Hc) as (r & Hr & Hh & Hcells).
  - split; [|apply (live_buffer_bound r0 Hlay0)].
    rewrite Hrdata, Hrd. unfold malloc. rewrite length_replicate.
    unfold buffer_fits in Hba. rewrite <- Hdata, Hba, Hsa, <- Hts.
    change (prod [m; cols]) with (m * (cols * 1)). lia.
  - exists r. split; [exact Hr|].
    injection Hh as Hhd _ _ Hht _.
    split; [congruence|]. split; [congruence | exact Hcells].
Qed.

(** Zero-padded addition of live matrices of doubles or floats whose
    buffers have the length their shape gives, of shapes
    [a0 x a1] and [b0 x b1] and working shape
    [rows = max a0 b0, cols = max a1 b1].  Written into a live output of
    the working shape, or into the output the function allocates when the
    second operand does not exceed the first, cell [(i, j)] of the result
    is the element of [a] (0 beyond its extent) plus the element of [b]
    (0 beyond its extent). *)
Theorem broadcast_add_zero_pads (a b : ndarray) :
  live a -> live b -> buffer_fits a -> buffer_fits b ->
  nd a = 2 -> nd b = 2 -> dtype b = dtype a ->
  dtype a = "d"%char \/ dtype a = "f"%char ->
  exists a0 a1 b0 b1 (n : nat),
    dimensions a = [a0; a1] /\ dimensions b = [b0; b1] /\
    Z.of_nat n = calculate_type_size (dtype a) /\
    (forall out,
       live out -> buffer_fits out -> dtype out = dtype a ->
       dimensions out = [Z.max a0 b0; Z.max a1 b1] ->
       exists r,
         ndarray_broadcast_add (Some out) a b = Ok (Some r) /\
         dimensions r = [Z.max a0 b0; Z.max a1 b1] /\
         forall i j, 0 <= i < Z.max a0 b0 -> 0 <= j < Z.max a1 b1 ->
           load_at n (data r) (i * Z.max a1 b1 + j)
           = Ok (broadcast_cell a b a0 a1 b0 b1 i j)) /\
    (b0 <= a0 -> b1 <= a1 ->
     exists r,
       ndarray_broadcast_add None a b = Ok (Some r) /\
       dimensions r = [Z.max a0 b0; Z.max a1 b1] /\
       forall i j, 0 <= i < Z.max a0 b0 -> 0 <= j < Z.max a1 b1 ->
         load_at n (data r) (i * Z.max a1 b1 + j)
         = Ok (broadcast_cell a b a0 a1 b0 b1 i j)).
Proof.
  intros Hla Hlb Hba Hbb Hra Hrb Hdt Htags.
  pose proof (live_row_major a Hla) as Hlaya.
  pose proof (live_row_major b Hlb) as Hlayb.
  destruct (rank2_shape a Hlaya Hra) as (a0 & a1 & Hsa & _ & _).
  destruct (rank2_shape b Hlayb Hrb) as (b0 & b1 & Hsb & _ & _).
  destruct (rank2_extents a a0 a1 (live_extents a Hla) Hsa) as [Ha0 Ha1].
  destruct (rank2_extents b b0 b1 (live_extents b Hlb) Hsb) as [Hb0 Hb1].
  destruct (handled_dtype_size a Htags) as (n & Hts & Hn & Htag).
  exists a0, a1, b0, b1, n. do 3 (split; [assumption|]). split.
  - intros out Hlo Hbo Hto Hso.
    pose proof (live_row_major out Hlo) as Hlayo.
    destruct (ndarray_broadcast_add_spec (Some out) a b out n a0 a1 b0 b1
                Hlaya Hlayb Hba Hbb Hra Hrb Hdt Hsa Hsb Ha0 Ha1 Hb0 Hb1
                Hts Hn Htag eq_refl) as (r & Hr & Hh & Hcells).
    + split; [|apply (live_buffer_bound out Hlayo)].
      unfold buffer_fits in Hbo. rewrite Hbo, Hso, Hto, <- Hts.
      change (prod [Z.max a0 b0; Z.max a1 b1])
        with (Z.max a0 b0 * (Z.max a1 b1 * 1)). lia.
    + exists r. split; [exact Hr|].
      injection Hh as Hhd _ _ _ _. split; [congruence | exact Hcells].
  - intros H0 H1.
    pose proof Hlaya as (Hfit & Hld & _ & _ & Hdata).
    destruct (ndarray_create_spec (dimensions a) (nd a) (dtype a) Hfit)
      as (r0 & Hc & Hrd & Hrn & Hrt & _ & _ & Hrdata); [lia|].
    rewrite take_ge in Hrd by lia.
    pose proof (ndarray_create_layout _ _ _ _ Hfit Hc) as (Hlay0 & _).
    destruct (ndarray_broadcast_add_spec None a b r0 n a0 a1 b0 b1
                Hlaya Hlayb Hba Hbb Hra Hrb Hdt Hsa Hsb Ha0 Ha1 Hb0 Hb1
                Hts Hn Htag Hc) as (r & Hr & Hh & Hcells).
    + split; [|apply (live_buffer_bound r0 Hlay0)].
      rewrite Hrdata, Hrd. unfold malloc. rewrite length_replicate.
      unfold buffer_fits in Hba. rewrite <- Hdata, Hba, Hsa, <- Hts.
      change (prod [a0; a1]) with (a0 * (a1 * 1)).
      rewrite !Z.max_l by lia. lia.
    + exists r. split; [exact Hr|].
      injection Hh as Hhd _ _ _ _.
      split; [|exact Hcells].
      rewrite Hhd, Hrd, Hsa, !Z.max_l by lia. reflexivity.
Qed.

(** Scenarios 1, 3, 4 and 6 of the specification, run on the code:
    creating a 2x3 array of doubles gives shape [2, 3], size 6 and
    strides [24, 8]; [[1, 2], [3, 4]] + [[5, 6], [7, 8]] is
    [[6, 8], [10, 12]]; the transpose of [[1, 2, 3], [4, 5, 6]] is
    [[1, 4], [2, 5], [3, 6]]; joining a 2x3 and a 1x3 array along axis 1
    fails. *)
Theorem specification_scenarios :
  ndarray_create [2; 3] 2 "d"%char = Ok (Some fresh_2x3) /\
  ndarray_shape fresh_2x3 = [2; 3] /\
  ndarray_size fresh_2x3 = Ok 6 /\
  strides fresh_2x3 = [24; 8] /\
  ndarray_add None m22_1_4 m22_5_8
  = Ok (Some {| data := doubles [6; 8; 10; 12]; dimensions := [2; 2];
                strides := [16; 8]; nd := 2; dtype := "d"%char |}) /\
  ndarray_transpose m23_1_6
  = Ok (Some {| data := doubles [1; 4; 2; 5; 3; 6]; dimensions := [3; 2];
                strides := [16; 8]; nd := 2; dtype := "d"%char |}) /\
  ndarray_concat m23_1_6 m13_1_3 1 = Ok None.
Proof. repeat split; vm_compute; reflexivity. Qed.

(** [ndarray_get_point] and the row-major order.  On a live array whose
    buffer has the length its shape gives, the address returned for an
    in-range index is the one of the element at the row-major position of
    the index: byte offset [position * elementSize].  The position is
    below the number of elements, and when elements have a positive size
    two in-range indices with one address are the same index. *)
Theorem get_point_row_major (a : ndarray) (idx : list Z) :
  live a -> buffer_fits a -> in_range a idx = true ->
  ndarray_get_point a idx
  = Ok (flat_index (dimensions a) idx * calculate_type_size (dtype a)) /\
  0 <= flat_index (dimensions a) idx < prod (dimensions a) /\
  (0 < calculate_type_size (dtype a) ->
   forall idx', in_range a idx' = true ->
     ndarray_get_point a idx' = ndarray_get_point a idx -> idx' = idx).
Proof.
  intros Hlive Hbuf Hidx. pose proof (live_row_major a Hlive) as Hlay.
  split; [apply get_point_flat; assumption|].
  split; [apply flat_index_bound; exact Hidx|].
  intros Hts idx' Hidx' E.
  rewrite !get_point_flat in E by assumption.
  injection E as E.
  apply (flat_index_inj (dimensions a)); [assumption..|nia].
Qed.

(** The setters touch one element only.  On a live array whose buffer
    has the length its shape gives, writing at the in-range index [idx]
    through a typed setter no wider than the element
    ([ndarray_set_point_d] and [ndarray_set_point_u64] write 8 bytes,
    [ndarray_set_point_f] and [ndarray_set_point_u32] write 4), or through
    [ndarray_set_point] from an object of at least the element size,
    succeeds and leaves the bytes of the element at every other in-range
    index [idx'] as they were. *)
Theorem set_point_keeps_other_elements (a : ndarray) (idx idx' : list Z) :
  live a -> buffer_fits a ->
  in_range a idx = true -> in_range a idx' = true -> idx' <> idx ->
  exists bs,
    element_bytes a idx' = Ok bs /\
    Z.of_nat (length bs) = calculate_type_size (dtype a) /\
    (forall v, 8 <= calculate_type_size (dtype a) ->
       exists a', ndarray_set_point_d a idx v = Ok (a', 0) /\
                  ndarray_set_point_u64 a idx v = Ok (a', 0) /\
                  element_bytes a' idx' = Ok bs) /\
    (forall v, 4 <= calculate_type_size (dtype a) ->
       exists a', ndarray_set_point_f a idx v = Ok (a', 0) /\
                  ndarray_set_point_u32 a idx v = Ok (a', 0) /\
                  element_bytes a' idx' = Ok bs) /\
    (forall src, calculate_type_size (dtype a) <= Z.of_nat (length src) ->
       exists a', ndarray_set_point a idx src = Ok (a', 0) /\
                  element_bytes a' idx' = Ok bs).
Proof.
  intros Hlive Hbuf Hidx Hidx' Hne.
  pose proof (live_row_major a Hlive) as Hlay.
  pose proof (calculate_type_size_range (dtype a)) as Hts.
  destruct (distinct_elements_disjoint a idx idx' Hlay Hbuf Hidx Hidx' Hne)
    as (p & p' & Hp & Hp' & Hp0 & Hp1 & Hq0 & Hq1 & Hdisj).
  assert (Hbs : element_bytes a idx'
                = Ok (take (Z.to_nat (calculate_type_size (dtype a)))
                        (drop (Z.to_nat p') (data a)))).
  { unfold element_bytes, ndarray_get_point. rewrite Hp'. reflexivity. }
  eexists. split; [exact Hbs|]. split.
  { rewrite length_take, length_drop. lia. }
  split; [|split].
  - intros v H8.
    destruct (set_scalar_frame 8 a idx idx' v _ Hlay Hbuf Hidx Hidx' Hne
                ltac:(lia) Hbs) as (a' & Hs & Hb).
    exists a'. auto.
  - intros v H4.
    destruct (set_scalar_frame 4 a idx idx' v _ Hlay Hbuf Hidx Hidx' Hne
                ltac:(lia) Hbs) as (a' & Hs & Hb).
    exists a'. auto.
  - intros src Hsrc. unfold ndarray_set_point. rewrite Hp. simpl bind.
    destruct (Nat.ltb_spec (length src)
                (Z.to_nat (calculate_type_size (dtype a)))); [lia|].
    destruct (_ && _) eqn:E.
    + eexists. split; [reflexivity|].
      unfold element_bytes, ndarray_get_point.
      change (point_offset (with_data a ?m) idx') with (point_offset a idx').
      rewrite Hp'. simpl bind. simpl dtype. simpl data. f_equal.
      apply splice_cell_other; [rewrite length_take; lia | lia | lia].
    + apply not_true_iff_false in E. rewrite in_bounds_dec in E. lia.
Qed.

(** [ndarray_add], [ndarray_subtract] and [ndarray_compare] return [NULL]
    on live operands that differ in rank, in shape or in dtype, whatever
    output array is passed and whatever the operator. *)
Theorem mismatched_operands_rejected (result : option ndarray)
    (a b : ndarray) (op : ascii) :
  live a -> live b ->
  nd a <> nd b \/ dimensions a <> dimensions b \/ dtype a <> dtype b ->
  ndarray_add result a b = Ok None /\
  ndarray_subtract result a b = Ok None /\
  ndarray_compare result a b op = Ok None.
Proof.
  intros Hla Hlb Hne.
  pose proof (live_row_major a Hla) as Ha.
  pose proof (live_row_major b Hlb) as Hb.
  unfold ndarray_add, ndarray_subtract, elementwise, ndarray_compare.
  destruct (Z.eqb_spec (nd a) (nd b)) as [Hnd|Hnd]; [|auto].
  destruct (Ascii.eqb_spec (dtype a) (dtype b)) as [Hdt|Hdt]; [|auto].
  simpl negb. simpl orb. cbv iota.
  rewrite (same_shape_spec a b Ha Hb Hnd).
  destruct Hne as [Hne|[Hne|Hne]]; try contradiction.
  rewrite bool_decide_eq_false_2 by exact Hne. auto.
Qed.

(** Every live array has a rank of at least 1, a shape vector and a
    stride vector of [rank] entries, and [ndarray_size] returns the
    product of its extents (as a [uint64_t]). *)
Theorem live_rank_and_size (a : ndarray) :
  live a ->
  1 <= ndarray_ndim a /\
  length (ndarray_shape a) = Z.to_nat (ndarray_ndim a) /\
  length (strides a) = Z.to_nat (ndarray_ndim a) /\
  ndarray_size a = Ok (wrap64 (prod (ndarray_shape a))).
Proof.
  intros Hlive.
  destruct (live_row_major a Hlive) as ([Hr1 Hr2] & Hld & Hls & _ & Hdata).
  unfold ndarray_ndim, ndarray_shape.
  split; [exact Hr1|]. do 2 (split; [assumption|]).
  pose proof (calculate_size_spec (dimensions a) (nd a)) as Hsz.
  unfold calculate_size in Hsz. unfold ndarray_size, dim.
  rewrite Hsz by lia. rewrite take_ge by lia. reflexivity.
Qed.

(** [ndarray_compare] on two live matrices of doubles or floats of one
    shape, for the operators ['>'], ['<'] and ['=']: the output (the one
    the function allocates, with the operands' shape and dtype, or any
    output passed whose buffer holds [4 * size] bytes) is returned, and
    read as an array of [int] its cell [i] holds 1 or 0, the outcome of
    the test on the operands' elements [i] taken as doubles.  The cells
    are [int]s whatever the dtype of the output. *)
Theorem compare_writes_truth_values (a b : ndarray) :
  live a -> live b -> buffer_fits a -> buffer_fits b ->
  nd a = 2 -> dimensions b = dimensions a -> dtype b = dtype a ->
  dtype a = "d"%char \/ dtype a = "f"%char ->
  forall op test,
    (op = ">"%char /\ test = (fun u v => IEEE.double_lt v u)) \/
    (op = "<"%char /\ test = IEEE.double_lt) \/
    (op = "="%char /\ test = IEEE.double_eq) ->
    (exists r,
       ndarray_compare None a b op = Ok (Some r) /\
       dimensions r = dimensions a /\ dtype r = dtype a /\
       forall i, 0 <= i < prod (dimensions a) ->
         load_at 4 (data r) i
         = Ok (truth test (operand_as_double a i) (operand_as_double b i))) /\
    (forall out,
       prod (dimensions a) * 4 <= Z.of_nat (length (data out)) ->
       exists r,
         ndarray_compare (Some out) a b op = Ok (Some r) /\
         header r = header out /\
         forall i, 0 <= i < prod (dimensions a) ->
           load_at 4 (data r) i
           = Ok (truth test (operand_as_double a i) (operand_as_double b i))).
Proof.
  intros Hla Hlb Hba Hbb Hrank Hdims Hdt Htags op test Hop.
  pose proof (live_row_major a Hla) as Ha.
  pose proof (live_row_major b Hlb) as Hb.
  destruct (handled_dtype_size a Htags) as (n & Hts & Hn & Htag).
  apply handled_is_d in Htag.
  assert (Hcmp : comparison op = Some test)
    by (destruct Hop as [[-> ->]|[[-> ->]|[-> ->]]]; reflexivity).
  split.
  - destruct (created_output a Ha) as (r0 & Hres & _ & Hrd & Hrt & _ & Hrdata).
    destruct (ndarray_compare_spec None a b r0 n op test Ha Hb Hba Hbb Hrank
                Hdims Hdt Hts Htag Hres) as (r & Hr & Hh & Hcells);
      [|exact Hcmp|].
    + rewrite Hrdata. unfold malloc. rewrite length_replicate, Nat2Z.id.
      unfold buffer_fits in Hba. rewrite Hba, <- Hts.
      destruct Htag as [[_ ->]|[_ ->]]; lia.
    + exists r. split; [exact Hr|].
      injection Hh as Hhd _ _ Hht _.
      split; [congruence|]. split; [congruence | exact Hcells].
  - intros out Hlen.
    apply (ndarray_compare_spec (Some out) a b out n op test); auto.
Qed.

(** [ndarray_compare] with an operator other than ['>'], ['<'], ['='] on
    two live matrices of doubles or floats of one shape.  The operator is
    looked at inside the loop only: with at least one element the result
    is [NULL] whatever output was passed; with no element the output
    passed (or the empty array allocated) is returned. *)
Theorem compare_unknown_operator (a b : ndarray) (op : ascii) :
  live a -> live b -> buffer_fits a -> buffer_fits b ->
  nd a = 2 -> dimensions b = dimensions a -> dtype b = dtype a ->
  dtype a = "d"%char \/ dtype a = "f"%char ->
  op <> ">"%char -> op <> "<"%char -> op <> "="%char ->
  (0 < prod (dimensions a) ->
   forall result, ndarray_compare result a b op = Ok None) /\
  (prod (dimensions a) = 0 ->
   (forall out, ndarray_compare (Some out) a b op = Ok (Some out)) /\
   exists r, ndarray_compare None a b op = Ok (Some r) /\
             dimensions r = dimensions a /\ data r = []).
Proof.
  intros Hla Hlb Hba Hbb Hrank Hdims Hdt Htags H1 H2 H3.
  pose proof (live_row_major a Hla) as Ha.
  pose proof (live_row_major b Hlb) as Hb.
  destruct (handled_dtype_size a Htags) as (n & Hts & Hn & Htag).
  apply handled_is_d in Htag.
  destruct (rank2_shape a Ha Hrank) as (d0 & d1 & Hshape & _ & _).
  destruct (rank2_count a n d0 d1 Ha Hba Hshape Hts Hn)
    as (Hprod & Hcnt & Hpos & Hlen).
  destruct (created_output a Ha) as (r0 & Hres & _ & Hrd & _ & _ & Hrdata).
  assert (Hpro : forall result r1,
             result_or_create result a = Ok (Some r1) ->
             ndarray_compare result a b op = _)
    by (intros result r1 Hr1;
        apply (ndarray_compare_prologue result a b r1 op d0 d1
                 Ha Hb Hrank Hdims Hdt Hshape Hr1)).
  rewrite Hcnt in Hpro. rewrite Hprod.
  split.
  - intros Hgt result.
    assert (Hex : exists r1, result_or_create result a = Ok (Some r1))
      by (destruct result as [out|]; [exists out; reflexivity | eauto]).
    destruct Hex as (r1 & Hr1). rewrite (Hpro result r1 Hr1).
    apply (ndarray_compare_loop_unknown a b r1 n (d0 * d1) op); auto.
    + unfold is_d. rewrite Hdt. reflexivity.
    + lia.
    + unfold buffer_fits in Hba, Hbb. rewrite Hdims, Hdt in Hbb. lia.
    + apply comparison_unknown; assumption.
  - intros Hz. split.
    + intros out. rewrite (Hpro (Some out) out eq_refl), Hz. reflexivity.
    + exists r0. rewrite (Hpro None r0 Hres), Hz.
      split; [reflexivity|]. split; [exact Hrd|].
      rewrite Hrdata. replace (length (data a)) with 0%nat by lia. reflexivity.
Qed.

(** Transposition seen through [ndarray_get_point]: for a live matrix
    of doubles or floats and an in-range index [(i, j)], the index
    [(j, i)] is in range in the transposed matrix and the element read at
    its address is the element read at the address of [(i, j)] in the
    source. *)
Theorem transpose_swaps_indices (a : ndarray) (i j : Z) :
  live a -> buffer_fits a -> nd a = 2 ->
  dtype a = "d"%char \/ dtype a = "f"%char ->
  in_range a [i; j] = true ->
  exists r (n : nat) p q v,
    Z.of_nat n = calculate_type_size (dtype a) /\
    ndarray_transpose a = Ok (Some r) /\
    in_range r [j; i] = true /\
    ndarray_get_point a [i; j] = Ok p /\
    ndarray_get_point r [j; i] = Ok q /\
    load n (data a) p = Ok v /\
    load n (data r) q = Ok v.
Proof.
  intros Hlive Hbuf Hrank Hdt Hidx.
  pose proof (live_row_major a Hlive) as Hlay.
  destruct (rank2_shape a Hlay Hrank) as (d0 & d1 & Hshape & _ & _).
  destruct (rank2_extents a d0 d1 (live_extents a Hlive) Hshape) as [Hd0 Hd1].
  destruct (handled_dtype_size a Hdt) as (n & Hts & Hn & Htag).
  destruct (ndarray_transpose_spec a n d0 d1 Hlay Hbuf Hrank Hshape Hd0 Hd1
              Hts Hn Htag)
    as (r & Hr & Hrd & Hrt & Hrn & Hrlay & Hrbuf & Hcells).
  apply (in_range_rank2 a d0 d1 i j Hshape) in Hidx. destruct Hidx as [Hi Hj].
  destruct (rank2_count a n d0 d1 Hlay Hbuf Hshape Hts Hn)
    as (_ & _ & _ & Hlen).
  exists r, n, ((i * d1 + j) * Z.of_nat n), ((j * d0 + i) * Z.of_nat n),
    (elem n (data a) (i * d1 + j)).
  split; [exact Hts|]. split; [exact Hr|].
  split; [apply (in_range_rank2 r d1 d0); auto|].
  split; [apply (get_point_rank2 a n d0 d1); auto|].
  split; [apply (get_point_rank2 r n d1 d0); auto; congruence|].
  split.
  - apply (load_at_elem n (data a) (i * d1 + j)); nia.
  - apply (Hcells i j Hi Hj).
Qed.

(** Transposition distributes over [ndarray_add] and
    [ndarray_subtract]: for live matrices of doubles or floats of one
    shape, the transpose of the sum and the sum of the transposes have
    one shape and dtype and hold the same value in every cell; likewise
    for the difference. *)
Theorem transpose_distributes_over_add_subtract (a b : ndarray) :
  live a -> live b -> buffer_fits a -> buffer_fits b ->
  nd a = 2 -> dimensions b = dimensions a -> dtype b = dtype a ->
  dtype a = "d"%char \/ dtype a = "f"%char ->
  exists ta tb (n : nat),
    Z.of_nat n = calculate_type_size (dtype a) /\
    ndarray_transpose a = Ok (Some ta) /\
    ndarray_transpose b = Ok (Some tb) /\
    (exists s l r,
       ndarray_add None a b = Ok (Some s) /\
       ndarray_transpose s = Ok (Some l) /\
       ndarray_add None ta tb = Ok (Some r) /\
       dimensions l = dimensions r /\ dtype l = dtype r /\
       forall k, 0 <= k < prod (dimensions l) ->
         exists v, load_at n (data l) k = Ok v /\ load_at n (data r) k = Ok v) /\
    (exists s l r,
       ndarray_subtract None a b = Ok (Some s) /\
       ndarray_transpose s = Ok (Some l) /\
       ndarray_subtract None ta tb = Ok (Some r) /\
       dimensions l = dimensions r /\ dtype l = dtype r /\
       forall k, 0 <= k < prod (dimensions l) ->
         exists v, load_at n (data l) k = Ok v /\ load_at n (data r) k = Ok v).
Proof.
  intros Hla Hlb Hba Hbb Hrank Hdims Hdt Htags.
  destruct (elementwise_transpose IEEE.double_add IEEE.float_add a b
              Hla Hlb Hba Hbb Hrank Hdims Hdt Htags)
    as (s & l & ta & tb & r & n & Hts & Hs & Hl & Hta & Htb & Hr & Hd & Ht & Hc).
  destruct (elementwise_transpose IEEE.double_sub IEEE.float_sub a b
              Hla Hlb Hba Hbb Hrank Hdims Hdt Htags)
    as (s' & l' & ta' & tb' & r' & n' & Hts' & Hs' & Hl' & Hta' & Htb' & Hr'
        & Hd' & Ht' & Hc').
  assert (n' = n) by lia. subst n'.
  assert (ta' = ta) by congruence. subst ta'.
  assert (tb' = tb) by congruence. subst tb'.
  exists ta, tb, n. do 3 (split; [assumption|]). split.
  - exists s, l, r. auto 10.
  - exists s', l', r'. auto 10.
Qed.

(** [ndarray_concat] returns [NULL] on live operands of different
    ranks, on an axis that is not below the rank, on different dtypes, and
    when the extents differ on an axis other than [axis]. *)
Theorem concat_rejects_incompatible (a b : ndarray) (axis : Z) :
  live a -> live b -> 0 <= axis ->
  nd a <> nd b \/ nd a <= axis \/ dtype a <> dtype b \/
  (exists i x y, i <> axis /\ rd (dimensions a) i = Ok x /\
                 rd (dimensions b) i = Ok y /\ x <> y) ->
  ndarray_concat a b axis = Ok None.
Proof.
  intros Hla Hlb Hax Hbad.
  pose proof (live_row_major a Hla) as (Hfa & Hlda & _).
  pose proof (live_row_major b Hlb) as (Hfb & Hldb & _).
  unfold ndarray_concat.
  destruct (Z.eqb_spec (nd a) (nd b)) as [Hnd|Hnd]; [|reflexivity].
  destruct (Z.leb_spec (nd a) axis) as [Hge|Hlt]; [reflexivity|].
  destruct (Ascii.eqb_spec (dtype a) (dtype b)) as [Hdt|Hdt]; [|reflexivity].
  simpl negb. cbv iota.
  destruct Hbad as [H|[H|[H|(i & x & y & Hi & Hx & Hy & Hxy)]]];
    try contradiction; [lia|].
  destruct Hfa as [Hfa0 Hfa1].
  rewrite all_up_false; [reflexivity| |].
  - intros k Hk. destruct (Z.eqb_spec k axis); [eauto|]. unfold dim.
    destruct (rd_total (dimensions a) k ltac:(lia)) as (xk & ->).
    destruct (rd_total (dimensions b) k ltac:(lia)) as (yk & ->).
    simpl. eauto.
  - exists i. pose proof (rd_bound _ _ _ Hx). split; [lia|].
    destruct (Z.eqb_spec i axis); [contradiction|]. unfold dim.
    rewrite Hx, Hy. simpl. f_equal. apply Z.eqb_neq. exact Hxy.
Qed.

(** Whenever [ndarray_concat] returns an array for live operands, the
    operands have one rank and dtype, [axis] is below the rank, the
    shapes agree off [axis], and the result has the operands' rank and
    dtype and the shape of [a] with the extent on [axis] replaced by the
    sum of the two extents (as a [uint64_t]). *)
Theorem concat_result_shape (a b r : ndarray) (axis : Z) :
  live a -> live b -> 0 <= axis ->
  ndarray_concat a b axis = Ok (Some r) ->
  nd b = nd a /\ axis < nd a /\ dtype b = dtype a /\
  ndarray_ndim r = nd a /\ ndarray_dtype r = dtype a /\
  exists x y,
    rd (dimensions a) axis = Ok x /\ rd (dimensions b) axis = Ok y /\
    dimensions b = <[Z.to_nat axis := y]> (dimensions a) /\
    ndarray_shape r = <[Z.to_nat axis := wrap64 (x + y)]> (dimensions a).
Proof.
  intros Hla Hlb Hax H.
  pose proof (live_row_major a Hla) as Ha.
  pose proof (live_row_major b Hlb) as Hb.
  pose proof (ndarray_concat_header a b r axis H) as (nds & r0 & Hloop & Hc & Hh).
  unfold ndarray_concat in H.
  destruct (Z.eqb_spec (nd a) (nd b)) as [Hnd|Hnd]; [|discriminate H].
  destruct (Z.leb_spec (nd a) axis) as [Hge|Hlt]; [discriminate H|].
  destruct (Ascii.eqb_spec (dtype a) (dtype b)) as [Hdt|Hdt]; [|discriminate H].
  simpl negb in H. cbv iota in H.
  inv_bind H. destruct x; [|discriminate H]. clear H.
  pose proof Ha as (Hfa & Hlda & _). pose proof Hb as (Hfb & Hldb & _).
  destruct (rd_total (dimensions a) axis ltac:(lia)) as (xa & Hxa).
  destruct (rd_total (dimensions b) axis ltac:(lia)) as (xb & Hxb).
  rewrite (concat_new_dims a b axis xa xb Ha Hb (eq_sym Hnd) Hxa Hxb) in Hloop.
  injection Hloop as <-.
  pose proof (ndarray_create_layout _ _ _ _ Hfa Hc) as (_ & Hrn & Hrt & Hrd & _).
  rewrite take_ge in Hrd by (rewrite length_insert; lia).
  injection Hh as Hhd _ Hhn Hht _.
  unfold ndarray_ndim, ndarray_dtype, ndarray_shape.
  split; [auto|]. split; [exact Hlt|]. split; [auto|].
  split; [congruence|]. split; [congruence|].
  exists xa, xb. do 2 (split; [assumption|]).
  split; [|congruence].
  apply (concat_compatible a b axis xb Ha Hb (eq_sym Hnd) Hxb Hx).
Qed.

(** [ndarray_concat] on compatible live operands whose joined shape has
    no element: the copy loop does not run, and the empty array of the
    joined shape is returned. *)
Theorem concat_empty_result (a b : ndarray) (axis x y : Z) :
  live a -> live b ->
  nd b = nd a -> 0 <= axis < nd a -> dtype b = dtype a ->
  rd (dimensions a) axis = Ok x ->
  dimensions b = <[Z.to_nat axis := y]> (dimensions a) ->
  wrap64 (prod (<[Z.to_nat axis := wrap64 (x + y)]> (dimensions a))) = 0 ->
  exists r,
    ndarray_concat a b axis = Ok (Some r) /\
    ndarray_shape r = <[Z.to_nat axis := wrap64 (x + y)]> (dimensions a) /\
    ndarray_dtype r = dtype a /\
    ndarray_size r = Ok 0 /\
    data r = [].
Proof.
  intros Hla Hlb Hnd Hax Hdt Hx Hdims Hz.
  pose proof (live_row_major a Hla) as Ha.
  pose proof (live_row_major b Hlb) as Hb.
  destruct (ndarray_concat_prologue a b axis x y Ha Hb Hnd Hax Hdt Hx Hdims)
    as (r0 & Hc & Hlay0 & Hrd & Hrn & Hrt & Hrun).
  exists r0. rewrite Hrun, Hrd, Hz. simpl.
  split; [reflexivity|]. split; [exact Hrd|]. split; [exact Hrt|].
  destruct Hlay0 as (Hf0 & Hld0 & _ & _ & Hdata). split.
  - pose proof (calculate_size_spec (dimensions r0) (nd r0)) as Hsz.
    unfold calculate_size in Hsz. unfold ndarray_size, dim.
    rewrite Hsz by lia. rewrite take_ge by lia. rewrite Hrd, Hz. reflexivity.
  - apply nil_length_inv. rewrite Hdata, Hrd, Hz. reflexivity.
Qed.

(** [ndarray_concat] allocates its index vector with
    [malloc(result->nd * type_size)] and uses it as [nd] cells of
    [uint64_t].  For compatible live operands of floats
    ([type_size = 4]) whose joined shape has an element, the
    decomposition of the first linear index writes cell [nd / 2], beyond
    the block. *)
Theorem concat_float_overruns_index_vector (a b : ndarray) (axis x y : Z) :
  live a -> live b ->
  nd b = nd a -> 0 <= axis < nd a -> dtype b = dtype a ->
  dtype a = "f"%char ->
  rd (dimensions a) axis = Ok x ->
  dimensions b = <[Z.to_nat axis := y]> (dimensions a) ->
  0 < wrap64 (prod (<[Z.to_nat axis := wrap64 (x + y)]> (dimensions a))) ->
  ndarray_concat a b axis = Fault.
Proof.
  intros Hla Hlb Hnd Hax Hdt Hf Hx Hdims Hpos.
  pose proof (live_row_major a Hla) as Ha.
  pose proof (live_row_major b Hlb) as Hb.
  destruct (ndarray_concat_prologue a b axis x y Ha Hb Hnd Hax Hdt Hx Hdims)
    as (r0 & Hc & Hlay0 & Hrd & Hrn & Hrt & Hrun).
  rewrite Hrun, Hrd. clear Hrun.
  destruct (Z.to_nat (wrap64 (prod _))) as [|c] eqn:E; [lia|].
  cbn [for_up].
  assert (Hts : calculate_type_size (dtype r0) = 4)
    by (rewrite Hrt, Hf; reflexivity).
  rewrite Hts, Hrn.
  destruct Ha as ([Hr1 Hr2] & _).
  assert (Hw : wrap64 (nd a * 4) / 8 = nd a / 2).
  { rewrite wrap64_small by (unfold two64; lia).
    replace 8 with (4 * 2) by reflexivity.
    rewrite Z.mul_comm, Z.div_mul_cancel_l by lia. reflexivity. }
  rewrite Hw.
  assert (Hhalf : 0 <= nd a / 2 < nd a).
  { split; [apply Z.div_pos; lia|]. apply Z.div_lt_upper_bound; lia. }
  assert (Hdec : decompose r0 (fresh_vector (nd a / 2)) 0 = Fault).
  { unfold decompose. rewrite Hrn.
    apply (for_up_faults
             (fun st : list Z * Z => length (fst st) = Z.to_nat (nd a / 2))
             _ _ _ _ (nd a / 2)).
    - simpl. unfold fresh_vector. apply length_replicate.
    - intros j [ind rem] [ind' rem'] Q Hstep. simpl in Q |- *.
      apply bind_Ok in Hstep. destruct Hstep as (s & _ & Hstep).
      destruct (s =? 0); [discriminate Hstep|].
      apply bind_Ok in Hstep. destruct Hstep as (ind1 & Hwr & Hstep).
      injection Hstep as <- _.
      apply wr_inv in Hwr. destruct Hwr as [_ ->].
      rewrite length_insert. exact Q.
    - lia.
    - intros [ind rem] Q. simpl in Q.
      destruct (rd (strides r0) (nd a / 2)) as [s|]; [|reflexivity].
      simpl bind. destruct (s =? 0); [reflexivity|].
      unfold wr.
      destruct (Z.ltb_spec (nd a / 2) (Z.of_nat (length ind))) as [Hlt|_];
        [lia|].
      rewrite andb_false_r. reflexivity. }
  rewrite Hdec. reflexivity.
Qed.

(** [ndarray_add], [ndarray_subtract] and [ndarray_compare] compute
    their loop bound as [dimensions[0] * dimensions[1]]: on two live
    arrays of rank 1 with one shape and dtype, all checks pass and the
    bound reads [dimensions[1]], beyond the shape vector. *)
Theorem vectors_read_past_shape (result : option ndarray) (a b : ndarray)
    (op : ascii) :
  live a -> live b ->
  nd a = 1 -> dimensions b = dimensions a -> dtype b = dtype a ->
  ndarray_add result a b = Fault /\
  ndarray_subtract result a b = Fault /\
  ndarray_compare result a b op = Fault.
Proof.
  intros Hla Hlb Hrank Hdims Hdt.
  pose proof (live_row_major a Hla) as Ha.
  pose proof (live_row_major b Hlb) as Hb.
  assert (Hnb : nd b = nd a).
  { destruct Ha as (_ & Hlda & _). destruct Hb as ([? ?] & Hldb & _).
    rewrite Hdims in Hldb. lia. }
  destruct (created_output a Ha) as (r0 & Hres & _).
  assert (Hex : exists r1, result_or_create result a = Ok (Some r1))
    by (destruct result as [out|]; [exists out; reflexivity | eauto]).
  destruct Hex as (r1 & Hr1).
  pose proof Ha as (_ & Hlda & _). rewrite Hrank in Hlda.
  destruct (dimensions a) as [|d0 [|d1 ds]] eqn:Hshape; try discriminate Hlda.
  assert (Hd0 : dim a 0 = Ok d0) by (unfold dim; rewrite Hshape; reflexivity).
  assert (Hd1 : dim a 1 = Fault) by (unfold dim; rewrite Hshape; reflexivity).
  assert (Hsame : same_shape a b = Ok true)
    by (apply same_shape_refl; [exact Ha | congruence]).
  unfold ndarray_add, ndarray_subtract, elementwise, ndarray_compare.
  rewrite Hnb, Z.eqb_refl, Hdt, Ascii.eqb_refl. simpl negb. simpl orb. cbv iota.
  rewrite Hsame. simpl bind. cbv iota. rewrite Hr1. simpl bind.
  rewrite Hd0, Hd1. auto.
Qed.

(** [ndarray_random_noise], when the array [ndarray_create] returns for
    the shape asked for has its buffer in full: the result is a live
    matrix of that shape in which element [i] holds [mean] plus the noise
    made from the [i]-th value of [rand()], as a double or narrowed to a
    float; on any other dtype no element is written. *)
Theorem random_noise_fills (RAND_MAX : Z) (rand : Z -> Z)
    (n_samples n_features mean noise_std : Z) (dtype : ascii)
    (fresh : ndarray) :
  uint64 n_samples -> uint64 n_features ->
  ndarray_create [n_samples; n_features] 2 dtype = Ok (Some fresh) ->
  buffer_fits fresh ->
  exists r,
    ndarray_random_noise RAND_MAX rand n_samples n_features mean noise_std
      dtype = Ok (Some r) /\
    live r /\ buffer_fits r /\
    ndarray_shape r = [n_samples; n_features] /\ ndarray_dtype r = dtype /\
    (dtype = "d"%char ->
     forall i, 0 <= i < n_samples * n_features ->
       load_at 8 (data r) i
       = Ok (Some (IEEE.double_add mean (noise RAND_MAX rand i noise_std)))) /\
    (dtype = "f"%char ->
     forall i, 0 <= i < n_samples * n_features ->
       load_at 4 (data r) i
       = Ok (Some (IEEE.float_of_double
                     (IEEE.double_add mean
                        (noise RAND_MAX rand i noise_std))))) /\
    (dtype <> "d"%char -> dtype <> "f"%char -> Forall (eq Undef) (data r)).
Proof.
  intros Hn Hm Hfresh Hfits.
  pose proof (created_matrix_fits _ _ _ _ Hn Hm Hfresh Hfits) as Hsmall.
  destruct (create_matrix n_samples n_features dtype Hn Hm Hsmall)
    as (a0 & Hc & Hlive & Hbuf & Hd & Ht & Hnd & Hdata & Hcnt).
  pose proof Hn as [Hn0 _]. pose proof Hm as [Hm0 _].
  assert (Hlen : Z.of_nat (length (data a0))
                 = n_samples * n_features * calculate_type_size dtype).
  { rewrite Hdata. apply length_malloc.
    pose proof (calculate_type_size_range dtype). nia. }
  unfold ndarray_random_noise. rewrite Hc. simpl bind.
  unfold ndarray_shape, ndarray_dtype.
  destruct (Ascii.eqb_spec dtype "d"%char) as [Ed|Ed].
  - assert (Hts : calculate_type_size dtype = 8) by (rewrite Ed; reflexivity).
    rewrite Hcnt by lia.
    destruct (fill_line 8 (n_samples * n_features)
                (fun i => Some (Some (IEEE.double_add mean
                                        (noise RAND_MAX rand i noise_std))))
                (fun i arr =>
                   store_elem 8 arr i
                     (Some (IEEE.double_add mean
                              (noise RAND_MAX rand i noise_std))))
                a0) as (r & Hr & Hh & Hcells); [lia | nia | lia | auto |].
    rewrite Hr. simpl bind. exists r. split; [reflexivity|].
    destruct (header_fields r a0 Hh) as (Hrd & Hrt & _ & _).
    split; [apply (live_header a0 r Hlive Hh)|].
    split; [apply (buffer_fits_header r a0 Hh Hbuf)|].
    split; [congruence|]. split; [congruence|].
    split; [|split; [intros E; congruence | intros E; contradiction]].
    intros _ i Hi. rewrite (Hcells i Hi). f_equal.
    apply fit_small. apply result64_range.
  - destruct (Ascii.eqb_spec dtype "f"%char) as [Ef|Ef].
    + assert (Hts : calculate_type_size dtype = 4) by (rewrite Ef; reflexivity).
      rewrite Hcnt by lia.
      destruct (fill_line 4 (n_samples * n_features)
                  (fun i => Some (Some (IEEE.float_of_double
                                          (IEEE.double_add mean
                                             (noise RAND_MAX rand i noise_std)))))
                  (fun i arr =>
                     store_elem 4 arr i
                       (Some (IEEE.float_of_double
                                (IEEE.double_add mean
                                   (noise RAND_MAX rand i noise_std)))))
                  a0) as (r & Hr & Hh & Hcells); [lia | nia | lia | auto |].
      rewrite Hr. simpl bind. exists r. split; [reflexivity|].
      destruct (header_fields r a0 Hh) as (Hrd & Hrt & _ & _).
      split; [apply (live_header a0 r Hlive Hh)|].
      split; [apply (buffer_fits_header r a0 Hh Hbuf)|].
      split; [congruence|]. split; [congruence|].
      split; [intros E; congruence|].
      split; [|intros _ E; contradiction].
      intros _ i Hi. rewrite (Hcells i Hi). f_equal.
      apply fit_small. apply result32_range.
    + rewrite for_up_skip by reflexivity. simpl bind.
      exists a0. split; [reflexivity|]. do 4 (split; [assumption|]).
      split; [intros E; contradiction|]. split; [intros E; contradiction|].
      intros _ _. rewrite Hdata. apply malloc_indeterminate.
Qed.

(** [ndarray_random_normal], when the array [ndarray_create] returns
    for the shape asked for has its buffer in full: the result is a live
    matrix of that shape in which element [i] holds [mean + std * z], [z]
    the Box-Muller transform of the draws [2 i] and [2 i + 1], as a
    double or narrowed to a float.  For doubles it prints every element,
    in order, with ["%.3f "]; for floats it prints nothing; on any other
    dtype no element is written and nothing is printed. *)
Theorem random_normal_fills (RAND_MAX : Z) (rand : Z -> Z)
    (sqrt log cos : Z -> Z)
    (n_samples n_features mean std : Z) (dtype : ascii) (out : list event)
    (fresh : ndarray) :
  uint64 n_samples -> uint64 n_features ->
  ndarray_create [n_samples; n_features] 2 dtype = Ok (Some fresh) ->
  buffer_fits fresh ->
  let value := normal_value RAND_MAX rand sqrt log cos mean std in
  exists r out',
    ndarray_random_normal RAND_MAX rand sqrt log cos n_samples n_features
      mean std dtype out = Ok (Some r, out') /\
    live r /\ buffer_fits r /\
    ndarray_shape r = [n_samples; n_features] /\ ndarray_dtype r = dtype /\
    (dtype = "d"%char ->
     (forall i, 0 <= i < n_samples * n_features ->
        load_at 8 (data r) i = Ok (Some (value i))) /\
     out' = out ++ map (fun i => Printf "%.3f " [Double (Some (value i))])
                     (seqZ 0 (n_samples * n_features))) /\
    (dtype = "f"%char ->
     (forall i, 0 <= i < n_samples * n_features ->
        load_at 4 (data r) i = Ok (Some (IEEE.float_of_double (value i)))) /\
     out' = out) /\
    (dtype <> "d"%char -> dtype <> "f"%char ->
     Forall (eq Undef) (data r) /\ out' = out).
Proof.
  intros Hn Hm Hfresh Hfits value.
  destruct (Ascii.eqb_spec dtype "d"%char) as [Ed|Ed].
  { destruct (random_normal_doubles RAND_MAX rand sqrt log cos n_samples
                n_features mean std dtype out fresh Hn Hm Hfresh Hfits Ed)
      as (r & Hr & Hlive & Hbuf & Hs & Ht & Hcells).
    exists r. eexists. split; [exact Hr|]. do 4 (split; [assumption|]).
    split; [intros _; split; [exact Hcells | reflexivity]|].
    split; [intros E; congruence | intros E; contradiction]. }
  pose proof (created_matrix_fits _ _ _ _ Hn Hm Hfresh Hfits) as Hsmall.
  destruct (create_matrix n_samples n_features dtype Hn Hm Hsmall)
    as (a0 & Hc & Hlive & Hbuf & Hd & Ht & Hnd & Hdata & Hcnt).
  pose proof Hn as [Hn0 _]. pose proof Hm as [Hm0 _].
  assert (Hlen : Z.of_nat (length (data a0))
                 = n_samples * n_features * calculate_type_size dtype).
  { rewrite Hdata. apply length_malloc.
    pose proof (calculate_type_size_range dtype). nia. }
  unfold ndarray_random_normal. rewrite Hc. simpl bind. fold value.
  unfold ndarray_shape, ndarray_dtype.
  rewrite (proj2 (Ascii.eqb_neq dtype "d"%char) Ed).
  destruct (Ascii.eqb_spec dtype "f"%char) as [Ef|Ef].
  - assert (Hts : calculate_type_size dtype = 4) by (rewrite Ef; reflexivity).
    rewrite Hcnt by lia.
    rewrite (for_up_split
               (fun k (a : list event) b =>
                  store_elem 4 b k (Some (IEEE.float_of_double (value k))))
               (fun k a => a)).
    destruct (fill_line 4 (n_samples * n_features)
                (fun i => Some (Some (IEEE.float_of_double (value i))))
                (fun i arr =>
                   store_elem 4 arr i (Some (IEEE.float_of_double (value i))))
                a0) as (r & Hr & Hh & Hcells); [lia | nia | lia | auto |].
    rewrite Hr. simpl bind. eexists r, _. split; [reflexivity|].
    destruct (header_fields r a0 Hh) as (Hrd & Hrt & _ & _).
    split; [apply (live_header a0 r Hlive Hh)|].
    split; [apply (buffer_fits_header r a0 Hh Hbuf)|].
    split; [congruence|]. split; [congruence|].
    split; [intros E; congruence|].
    split; [|intros _ E; contradiction].
    intros _. split.
    + intros i Hi. rewrite (Hcells i Hi). f_equal.
      apply fit_small. apply result32_range.
    + generalize (Z.to_nat (n_samples * n_features)) 0.
      intros c. induction c as [|c IH]; intros i; [reflexivity|].
      simpl. apply IH.
  - rewrite for_up_skip by (intros k [arr o]; reflexivity). simpl bind.
    exists a0, out. split; [reflexivity|]. do 4 (split; [assumption|]).
    split; [intros E; contradiction|]. split; [intros E; contradiction|].
    intros _ _. split; [|reflexivity].
    rewrite Hdata. apply malloc_indeterminate.
Qed.

(** [ndarray_from_csv].  When the file does not open, the result is
    [NULL] and one diagnostic.  When it opens, the first line gives the
    shape [n, m] and the array [ndarray_create] returns for that shape
    has its buffer in full, the result is a live [n x m] matrix, whatever
    the rest of the file holds: element [k], in row-major order, holds
    the value the [k]-th conversion assigns, and is left indeterminate
    when that conversion fails; no conversion is attempted for a dtype
    other than double and float. *)
Theorem from_csv_loads (stream : Type)
    (scan_shape : stream -> (option Z * option Z) * stream)
    (scan_double scan_float : stream -> option Z * stream)
    (junk_samples junk_features : Z) (dtype : ascii) :
  let from_csv := ndarray_from_csv stream scan_shape scan_double scan_float
                    junk_samples junk_features in
  from_csv None dtype = Ok (None, [Perror "Failed to open file"]) /\
  forall f n m f1 fresh,
    scan_shape f = ((Some n, Some m), f1) ->
    uint64 n -> uint64 m ->
    ndarray_create [n; m] 2 dtype = Ok (Some fresh) -> buffer_fits fresh ->
    exists r,
      from_csv (Some f) dtype = Ok (Some r, []) /\
      live r /\ buffer_fits r /\
      ndarray_shape r = [n; m] /\ ndarray_dtype r = dtype /\
      (dtype = "d"%char ->
       forall k, 0 <= k < n * m ->
         load_at 8 (data r) k = Ok (fit 8 (scanned scan_double f1 k))) /\
      (dtype = "f"%char ->
       forall k, 0 <= k < n * m ->
         load_at 4 (data r) k = Ok (fit 4 (scanned scan_float f1 k))) /\
      (dtype <> "d"%char -> dtype <> "f"%char -> Forall (eq Undef) (data r)).
Proof.
  intros from_csv. split; [reflexivity|].
  intros f n m f1 fresh Hshape Hn Hm Hfresh Hfits.
  pose proof (created_matrix_fits _ _ _ _ Hn Hm Hfresh Hfits) as Hsmall.
  destruct (create_matrix n m dtype Hn Hm Hsmall)
    as (a0 & Hc & Hlive & Hbuf & Hd & Ht & Hnd & Hdata & Hcnt).
  pose proof Hn as [Hn0 _]. pose proof Hm as [Hm0 _].
  unfold from_csv, ndarray_from_csv. rewrite Hshape. simpl default.
  rewrite Hc. simpl bind.
  unfold ndarray_shape, ndarray_dtype.
  destruct (Ascii.eqb_spec dtype "d"%char) as [Ed|Ed].
  - assert (Hts : calculate_type_size dtype = 8) by (rewrite Ed; reflexivity).
    rewrite Hts in Hdata, Hsmall.
    destruct (from_csv_loop 8 scan_double n m a0 f1)
      as (r & f2 & Hr & Hh & Hcells); [lia | lia | lia | exact Hsmall
                                       | exact Hdata |].
    rewrite Hr. simpl bind. exists r. split; [reflexivity|].
    destruct (header_fields r a0 Hh) as (Hrd & Hrt & _ & _).
    split; [apply (live_header a0 r Hlive Hh)|].
    split; [apply (buffer_fits_header r a0 Hh Hbuf)|].
    split; [congruence|]. split; [congruence|].
    split; [intros _; exact Hcells|].
    split; [intros E; congruence | intros E; contradiction].
  - destruct (Ascii.eqb_spec dtype "f"%char) as [Ef|Ef].
    + assert (Hts : calculate_type_size dtype = 4) by (rewrite Ef; reflexivity).
      rewrite Hts in Hdata, Hsmall.
      destruct (from_csv_loop 4 scan_float n m a0 f1)
        as (r & f2 & Hr & Hh & Hcells); [lia | lia | lia | exact Hsmall
                                         | exact Hdata |].
      rewrite Hr. simpl bind. exists r. split; [reflexivity|].
      destruct (header_fields r a0 Hh) as (Hrd & Hrt & _ & _).
      split; [apply (live_header a0 r Hlive Hh)|].
      split; [apply (buffer_fits_header r a0 Hh Hbuf)|].
      split; [congruence|]. split; [congruence|].
      split; [intros E; congruence|].
      split; [intros _; exact Hcells | intros _ E; contradiction].
    + rewrite for_up_skip.
      2:{ intros i st. apply for_up_skip. intros j [arr s]. reflexivity. }
      simpl bind. exists a0. split; [reflexivity|].
      do 4 (split; [assumption|]).
      split; [intros E; contradiction|]. split; [intros E; contradiction|].
      intros _ _. rewrite Hdata. apply malloc_indeterminate.
Qed.

(** [print_ndarray] of [test.c] on a live matrix of 8-byte elements whose
    buffer has the length its shape gives.  With fewer than 2^32 rows
    and, if there is a row, fewer than 2^32 columns, it returns after
    printing the rows in order, each between ["[\n    "] and ["]\n"] with
    its elements in ["%.3f "], and a closing ["]\n"].  Otherwise a
    [uint32_t] counter never reaches its [uint64_t] bound, and it does
    not return. *)
Theorem print_ndarray_prints (arr : ndarray) (out : list event) :
  live arr -> buffer_fits arr -> nd arr = 2 ->
  calculate_type_size (dtype arr) = 8 ->
  exists d0 d1,
    dimensions arr = [d0; d1] /\
    print_ndarray arr out
    = Ok (if (d0 <? two32) && ((d0 =? 0) || (d1 <? two32))
          then Returns
                 (out ++ printed_matrix d0 d1
                           (fun i j => elem 8 (data arr) (i * d1 + j)))
          else Forever).
Proof.
  intros Hlive Hbuf Hrank Hts.
  pose proof (live_row_major arr Hlive) as Hlay.
  destruct (rank2_shape arr Hlay Hrank) as (d0 & d1 & Hshape & _ & _).
  destruct (rank2_extents arr d0 d1 (live_extents arr Hlive) Hshape)
    as [Hd0 Hd1].
  exists d0, d1. split; [exact Hshape|].
  apply (print_ndarray_spec arr d0 d1 out Hlay Hbuf Hshape Hts Hd0 Hd1).
Qed.

(** [main] of [test.c], for every sequence of values of [rand()] and
    whatever [sqrt], [log] and [cos] compute.  It returns 0 after
    printing: the shape [2, 3]; the twelve elements
    [ndarray_random_normal] prints; the size 12; element [(0, 0)] before
    and after it is set to 88888.12345; the 3x4 matrix; its 4x3
    transpose; and two distinct rows of the transpose. *)
Theorem main_prints (RAND_MAX : Z) (rand_normal rand_subsample : Z -> Z)
    (sqrt log cos : Z -> Z) :
  let value := normal_value RAND_MAX rand_normal sqrt log cos
                 (double_of_int 2) (double_of_int 1) in
  let cell := fun k => Some (if k =? 0 then point_88888 else value k) in
  exists r0 r1,
    r0 <> r1 /\ 0 <= r0 < 4 /\ 0 <= r1 < 4 /\
    main RAND_MAX rand_normal rand_subsample sqrt log cos
    = Ok (Returns
            (0,
             [Printf "Created array with shape: [" [];
              Printf "%llu%s" [ULL 2; Str ", "];
              Printf "%llu%s" [ULL 3; Str ""];
              Printf row_close []]
             ++ map (fun k => Printf "%.3f " [Double (Some (value k))])
                  (seqZ 0 12)
             ++ [Printf ("Random array size: %llu" +:+ newline) [ULL 12];
                 Printf ("[" +:+ newline +:+ "  ") [];
                 Printf ("====> bf: %.3f " +:+ newline)
                   [Double (Some (value 0))];
                 Printf ("====> af: %.3f " +:+ newline)
                   [Double (Some point_88888)]]
             ++ printed_matrix 3 4 (fun i j => cell (i * 4 + j))
             ++ [Printf ("test transpose:" +:+ newline) [];
                 Printf ("Transposed shape: [%llu, %llu]" +:+ newline)
                   [ULL 4; ULL 3]]
             ++ printed_matrix 4 3 (fun i j => cell (j * 4 + i))
             ++ [Printf ("test subsample:" +:+ newline) []]
             ++ printed_matrix 2 3
                  (fun i j => cell (j * 4 + (if i =? 0 then r0 else r1))))).
Proof.
  intros value cell.
  assert (H3 : uint64 3) by (unfold uint64, two64; lia).
  assert (H4 : uint64 4) by (unfold uint64, two64; lia).
  assert (H2 : uint64 2) by (unfold uint64, two64; lia).
  set (out1 := [Printf "Created array with shape: [" [];
                Printf "%llu%s" [ULL 2; Str ", "];
                Printf "%llu%s" [ULL 3; Str ""]]
               ++ [Printf row_close []]).
  (* the random matrix *)
  pose proof (random_normal_doubles RAND_MAX rand_normal sqrt log cos
                3 4 (double_of_int 2) (double_of_int 1) "d"%char out1
                fresh_3x4 H3 H4 eq_refl eq_refl eq_refl) as Hspec.
  cbv zeta in Hspec. fold value in Hspec.
  destruct Hspec as (r & Hr & Hlive & Hbuf & Hshape & Hdt & Hcells).
  unfold ndarray_shape, ndarray_dtype in Hshape, Hdt.
  pose proof (live_row_major r Hlive) as Hlay.
  assert (Hnd : nd r = 2).
  { destruct Hlay as ([Hf1 Hf2] & Hld & _). rewrite Hshape in Hld.
    simpl in Hld. lia. }
  assert (Hts : calculate_type_size (dtype r) = 8)
    by (rewrite Hdt; reflexivity).
  assert (Hsize : ndarray_size r = Ok 12).
  { unfold ndarray_size, dim. rewrite Hnd, Hshape. reflexivity. }
  destruct (rank2_count r 8 3 4 Hlay Hbuf Hshape ltac:(lia) ltac:(lia))
    as (_ & _ & _ & Hlen).
  pose proof (get_point_rank2 r 8 3 4 0 0 Hlay Hbuf Hshape ltac:(lia)
                ltac:(lia) ltac:(lia)) as Hgp.
  change ((0 * 4 + 0) * Z.of_nat 8) with 0 in Hgp.
  assert (Hload : load 8 (data r) 0 = Ok (Some (value 0)))
    by (apply (Hcells 0); lia).
  (* element (0, 0) is replaced *)
  destruct (set_point_first_cell r 3 4 point_88888 Hlay Hbuf Hshape Hts
              ltac:(lia) ltac:(lia) ltac:(unfold point_88888; lia))
    as (a' & Hset & Hh & Hfirst & Hrest).
  destruct (header_fields a' r Hh) as (Hshape' & Hdt' & Hnd' & _).
  rewrite Hshape in Hshape'. rewrite Hdt in Hdt'. rewrite Hnd in Hnd'.
  assert (Hlay' : row_major_layout a')
    by (apply (row_major_layout_header r a'); [symmetry; exact Hh | exact Hlay]).
  pose proof (buffer_fits_header a' r Hh Hbuf) as Hbuf'.
  assert (Hts' : calculate_type_size (dtype a') = 8)
    by (rewrite Hdt'; reflexivity).
  assert (Hlive' : live a') by (apply (live_header r a' Hlive Hh)).
  destruct (rank2_count a' 8 3 4 Hlay' Hbuf' Hshape' ltac:(lia) ltac:(lia))
    as (_ & _ & _ & Hlen').
  assert (Hcell' : forall k, 0 <= k < 12 -> elem 8 (data a') k = cell k).
  { intros k Hk. unfold cell. destruct (Z.eqb_spec k 0) as [->|Hne].
    - exact Hfirst.
    - rewrite Hrest by lia.
      apply load_at_elem_inv; [lia | lia | apply Hcells; lia]. }
  pose proof (get_point_rank2 a' 8 3 4 0 0 Hlay' Hbuf' Hshape' ltac:(lia)
                ltac:(lia) ltac:(lia)) as Hgp'.
  change ((0 * 4 + 0) * Z.of_nat 8) with 0 in Hgp'.
  assert (Hload' : load 8 (data a') 0 = Ok (Some point_88888)).
  { change (load 8 (data a') 0) with (load_at 8 (data a') 0).
    rewrite load_at_elem by lia. rewrite Hfirst. reflexivity. }
  (* the transpose *)
  assert (Hisd : is_d a' = true) by (unfold is_d; rewrite Hdt'; reflexivity).
  destruct (ndarray_transpose_spec a' 8 3 4 Hlay' Hbuf' Hnd' Hshape'
              ltac:(lia) ltac:(lia) ltac:(lia) ltac:(lia)
              (or_introl (conj Hisd eq_refl)))
    as (t & Ht & Hshape2 & Hdt2 & Hnd2 & Hlay2 & Hbuf2 & Hcells2).
  rewrite Hdt' in Hdt2.
  assert (Hts2 : calculate_type_size (dtype t) = 8)
    by (rewrite Hdt2; reflexivity).
  assert (Hlive2 : live t) by (apply (live_transpose a' t Hlive' Ht)).
  destruct (rank2_count t 8 4 3 Hlay2 Hbuf2 Hshape2 ltac:(lia) ltac:(lia))
    as (_ & _ & _ & Hlen2).
  assert (Hcell2 : forall i j, 0 <= i < 4 -> 0 <= j < 3 ->
            elem 8 (data t) (i * 3 + j) = cell (j * 4 + i)).
  { intros i j Hi Hj. rewrite <- Hcell' by lia.
    apply load_at_elem_inv; [lia | lia |].
    replace (i * 3 + j) with (j + i * 3) by lia.
    replace (j + i * 3) with (i * 3 + j) by lia.
    apply (Hcells2 j i); lia. }
  assert (Hdim0 : dim t 0 = Ok 4) by (unfold dim; rewrite Hshape2; reflexivity).
  assert (Hdim1 : dim t 1 = Ok 3) by (unfold dim; rewrite Hshape2; reflexivity).
  (* two rows of the transpose *)
  assert (Hisd2 : is_d t = true) by (unfold is_d; rewrite Hdt2; reflexivity).
  destruct (ndarray_subsample_spec rand_subsample t 2 8 4 3 Hlay2 Hbuf2 Hnd2
              Hshape2 ltac:(lia) ltac:(lia) ltac:(lia) ltac:(lia)
              (or_introl (conj Hisd2 eq_refl)) ltac:(lia) ltac:(lia))
    as (s & rows & Hs & Hshape3 & Hdt3 & Hrows & Hnodup & Hall & Hcells3).
  rewrite Hdt2 in Hdt3.
  assert (Hlive3 : live s)
    by (apply (live_subsample rand_subsample t 2 s Hlive2 H2 Hs)).
  pose proof (live_row_major s Hlive3) as Hlay3.
  assert (Hts3 : calculate_type_size (dtype s) = 8)
    by (rewrite Hdt3; reflexivity).
  assert (Hbuf3 : buffer_fits s).
  { unfold buffer_fits. destruct Hlay3 as (_ & _ & _ & _ & Hdata).
    rewrite Hdata, Hshape3, Hdt3. reflexivity. }
  destruct (rank2_count s 8 2 3 Hlay3 Hbuf3 Hshape3 ltac:(lia) ltac:(lia))
    as (_ & _ & _ & Hlen3).
  destruct rows as [|r0 [|r1 [|]]]; try discriminate Hrows.
  apply NoDup_cons in Hnodup. destruct Hnodup as [Hnotin _].
  assert (Hne : r0 <> r1) by (intros ->; apply Hnotin; left).
  apply Forall_cons in Hall. destruct Hall as [Hr0 Hall].
  apply Forall_cons in Hall. destruct Hall as [Hr1 _]. cbv beta in Hr0, Hr1.
  assert (Hcell3 : forall i j, 0 <= i < 2 -> 0 <= j < 3 ->
            elem 8 (data s) (i * 3 + j)
            = cell (j * 4 + (if i =? 0 then r0 else r1))).
  { intros i j Hi Hj. destruct (Hcells3 i j Hi Hj) as (k & Hk & Hload3).
    apply load_at_elem_inv in Hload3; [|lia|lia]. rewrite Hload3.
    assert (Hcase : i = 0 \/ i = 1) by lia.
    destruct Hcase as [-> | ->]; simpl in Hk; injection Hk as <-.
    - change (0 =? 0) with true. cbv iota. apply Hcell2; lia.
    - change (1 =? 0) with false. cbv iota. apply Hcell2; lia. }
  exists r0, r1. do 3 (split; [assumption|]).
  (* running main *)
  unfold main.
  assert (Hc : ndarray_create [2; 3] 2 "d"%char = Ok (Some fresh_2x3))
    by reflexivity.
  rewrite Hc. cbn [bind deref].
  match goal with
  | |- bind ?m _ = _ =>
      let v := eval vm_compute in m in
      replace m with v by (vm_compute; reflexivity)
  end.
  cbn [bind]. fold out1. rewrite Hr. cbn [bind deref].
  rewrite Hsize. cbn [bind]. rewrite Hgp. cbn [bind]. rewrite Hload.
  cbn [bind]. rewrite Hset. cbn [bind]. rewrite Hgp'. cbn [bind].
  rewrite Hload'. cbn [bind].
  rewrite (print_ndarray_spec a' 3 4 _ Hlay' Hbuf' Hshape' Hts')
    by lia.
  change ((3 <? two32) && ((3 =? 0) || (4 <? two32))) with true.
  cbn [bind]. rewrite Ht. cbn [bind deref]. rewrite Hdim0. cbn [bind].
  rewrite Hdim1. cbn [bind].
  rewrite (print_ndarray_spec t 4 3 _ Hlay2 Hbuf2 Hshape2 Hts2) by lia.
  change ((4 <? two32) && ((4 =? 0) || (3 <? two32))) with true.
  cbn [bind]. rewrite Hs. cbn [bind deref].
  rewrite (print_ndarray_spec s 2 3 _ Hlay3 Hbuf3 Hshape3 Hts3) by lia.
  change ((2 <? two32) && ((2 =? 0) || (3 <? two32))) with true.
  cbn [bind].
  rewrite (printed_matrix_ext 3 4 _ (fun i j => cell (i * 4 + j)))
    by (intros i j Hi Hj; apply Hcell'; lia).
  rewrite (printed_matrix_ext 4 3 _ (fun i j => cell (j * 4 + i)))
    by (intros i j Hi Hj; apply Hcell2; lia).
  rewrite (printed_matrix_ext 2 3 _
             (fun i j => cell (j * 4 + (if i =? 0 then r0 else r1))))
    by (intros i j Hi Hj; apply Hcell3; lia).
  unfold out1. change (3 * 4) with 12.
  rewrite <- !app_assoc. reflexivity.
Qed.

End Platform.

(** * Counterexamples and instances *)

(** The instances are evaluated under the policy of SSE2. *)
#[global] Existing Instance IEEE.sse.

(** Under that policy the operations deliver the NaNs an x86-64 machine
    delivers: the negative quiet NaN for an invalid operation, and the
    payload of a NaN operand, through the conversions as well. *)
Lemma sse_examples :
  (* inf + -inf *)
  IEEE.double_add 9218868437227405312 18442240474082181120
  = 18444492273895866368 /\
  (* inf * 0 *)
  IEEE.double_mul 9218868437227405312 0 = 18444492273895866368 /\
  (* the float NaN 0x7fc00001 plus 0.0f, added as doubles *)
  IEEE.float_of_double (IEEE.double_add (IEEE.double_of_float 2143289345) 0)
  = 2143289345 /\
  (* a signalling NaN operand is made quiet *)
  IEEE.float_add 2139095041 0 = 2143289345.
Proof. vm_compute. repeat split. Qed.

(** [ndarray_dot] with the first operand as the output.  For
    [[1, 2], [3, 4]] times [[5, 6], [7, 8]] the cells written first are
    read again as operands: the array returned is
    [[19, 130], [43, 290]], where an output of its own receives the
    product [[19, 22], [43, 50]]. *)
Lemma dot_overwrites_aliased_operand :
  ndarray_dot First m22_1_4 m22_5_8
  = Ok (Some {| data := doubles [19; 130; 43; 290]; dimensions := [2; 2];
                strides := [16; 8]; nd := 2; dtype := "d"%char |}) /\
  ndarray_dot Null m22_1_4 m22_5_8
  = Ok (Some {| data := doubles [19; 22; 43; 50]; dimensions := [2; 2];
                strides := [16; 8]; nd := 2; dtype := "d"%char |}).
Proof. split; vm_compute; reflexivity. Qed.

(** C5, as stated, fails: on the 2x3 array of doubles the index [(0, 3)]
    is out of range on axis 1, yet [ndarray_get_point] returns the address
    at byte offset 24 (the one of element [(1, 0)]) and
    [ndarray_set_point_d] writes there and returns 0. *)
Lemma get_set_out_of_range_succeed :
  ndarray_create [2; 3] 2 "d"%char = Ok (Some fresh_2x3) /\
  in_range fresh_2x3 [0; 3] = false /\
  ndarray_get_point fresh_2x3 [0; 3] = Ok 24 /\
  ndarray_get_point fresh_2x3 [1; 0] = Ok 24 /\
  exists a', ndarray_set_point_d fresh_2x3 [0; 3] 4607182418800017408
             = Ok (a', 0) /\
             load 8 (data a') 24 = Ok (Some 4607182418800017408).
Proof.
  repeat split; try reflexivity.
  eexists. split; vm_compute; reflexivity.
Qed.

(** C10, as stated, fails.  [ndarray_create] returns an array for the
    shape [2^61, 2] of doubles, whose byte count 2^65 wraps to 0: the
    index [(0, 0)] is in range, yet the 8 bytes [ndarray_set_point_d]
    writes at the address of that element lie outside the (empty)
    buffer. *)
Lemma set_in_range_outside_wrapped_buffer :
  ndarray_create [2305843009213693952; 2] 2 "d"%char
  = Ok (Some wrapped_2p61x2) /\
  live wrapped_2p61x2 /\
  in_range wrapped_2p61x2 [0; 0] = true /\
  ndarray_get_point wrapped_2p61x2 [0; 0] = Ok 0 /\
  length (data wrapped_2p61x2) = 0%nat /\
  ndarray_set_point_d wrapped_2p61x2 [0; 0] 4607182418800017408 = Fault.
Proof.
  assert (Hc : ndarray_create [2305843009213693952; 2] 2 "d"%char
               = Ok (Some wrapped_2p61x2)) by (vm_compute; reflexivity).
  split; [exact Hc|]. split.
  - apply (live_create [2305843009213693952; 2] 2 "d"%char); [| |exact Hc].
    + unfold rank_fits_int. lia.
    + repeat constructor; unfold two64; lia.
  - repeat split; vm_compute; reflexivity.
Qed.


(** [get_set_offset_unchecked] at the out-of-range index [(0, 3)] of the
    fresh 2x3 array. *)
Lemma get_set_offset_unchecked_witness :
  length (strides fresh_2x3) = Z.to_nat (nd fresh_2x3) /\
  length [0; 3] = Z.to_nat (nd fresh_2x3) /\
  ndarray_get_point fresh_2x3 [0; 3] = Ok 24 /\
  exists a',
    ndarray_set_point_d fresh_2x3 [0; 3] (double_of_int 1) = Ok (a', 0) /\
    header a' = header fresh_2x3 /\
    load 8 (data a') 24 = Ok (Some (double_of_int 1)).
Proof.
  split; [reflexivity|]. split; [reflexivity|].
  destruct (get_set_offset_unchecked fresh_2x3 [0; 3] eq_refl eq_refl)
    as [Hget Hset].
  split; [exact Hget|].
  apply (Hset (double_of_int 1)). vm_compute. discriminate.
Defined.

(** [stride_invariant_preserved] at [[1, 2]], created as a 1x2 array and
    filled through the setter. *)
Lemma stride_invariant_preserved_witness :
  live row_1_2 /\ stride_invariant row_1_2.
Proof.
  assert (H : live row_1_2).
  { apply (created_and_filled [1; 2] 2 "d"%char
             {| data := malloc 16; dimensions := [1; 2]; strides := [16; 8];
                nd := 2; dtype := "d"%char |}
             row_1_2 [([0; 0], 1); ([0; 1], 2)]);
      [unfold rank_fits_int; lia
      | repeat constructor; unfold uint64, two64; lia
      | reflexivity | reflexivity]. }
  split; [exact H|]. apply (stride_invariant_preserved row_1_2 H).
Defined.

(** [set_get_roundtrip] at cell (0, 1) of [[1, 2]] and the value
    88888.12345. *)
Lemma set_get_roundtrip_witness :
  live row_1_2 /\ buffer_fits row_1_2 /\ in_range row_1_2 [0; 1] = true /\
  exists a' p,
    ndarray_set_point_d row_1_2 [0; 1] 4680844758542103819 = Ok (a', 0) /\
    ndarray_get_point a' [0; 1] = Ok p /\
    load 8 (data a') p = Ok (Some 4680844758542103819).
Proof.
  pose proof live_row_1_2 as Hlive.
  assert (Hbuf : buffer_fits row_1_2) by reflexivity.
  assert (Hin : in_range row_1_2 [0; 1] = true) by reflexivity.
  split; [exact Hlive|]. split; [exact Hbuf|]. split; [exact Hin|].
  destruct (set_get_roundtrip row_1_2 [0; 1] Hlive Hbuf Hin) as [Hd _].
  apply (Hd 4680844758542103819); [reflexivity|].
  split; [discriminate | reflexivity].
Defined.


(** [transpose_permutes] at [[1, 2, 3], [4, 5, 6]]. *)
Lemma transpose_permutes_witness :
  live m23_1_6 /\ buffer_fits m23_1_6 /\ nd m23_1_6 = 2 /\
  exists r d0 d1 (n : nat),
    dimensions m23_1_6 = [d0; d1] /\
    Z.of_nat n = calculate_type_size (dtype m23_1_6) /\
    ndarray_transpose m23_1_6 = Ok (Some r) /\
    live r /\ buffer_fits r /\
    dimensions r = [d1; d0] /\ dtype r = dtype m23_1_6 /\
    forall i j, 0 <= i < d0 -> 0 <= j < d1 ->
      exists v, load_at n (data m23_1_6) (i * d1 + j) = Ok v /\
                load_at n (data r) (j * d0 + i) = Ok v.
Proof.
  pose proof live_m23_1_6 as Hlive.
  assert (Hbuf : buffer_fits m23_1_6) by reflexivity.
  split; [exact Hlive|]. split; [exact Hbuf|]. split; [reflexivity|].
  apply (transpose_permutes m23_1_6 Hlive Hbuf eq_refl). left. reflexivity.
Defined.

(** [transpose_involutive] at [[1, 2, 3], [4, 5, 6]]. *)
Lemma transpose_involutive_witness :
  live m23_1_6 /\ buffer_fits m23_1_6 /\ nd m23_1_6 = 2 /\
  exists r r2 (n : nat),
    Z.of_nat n = calculate_type_size (dtype m23_1_6) /\
    ndarray_transpose m23_1_6 = Ok (Some r) /\
    ndarray_transpose r = Ok (Some r2) /\
    dimensions r2 = dimensions m23_1_6 /\ dtype r2 = dtype m23_1_6 /\
    forall k, 0 <= k < prod (dimensions m23_1_6) ->
      exists v, load_at n (data m23_1_6) k = Ok v /\
                load_at n (data r2) k = Ok v.
Proof.
  pose proof live_m23_1_6 as Hlive.
  assert (Hbuf : buffer_fits m23_1_6) by reflexivity.
  split; [exact Hlive|]. split; [exact Hbuf|]. split; [reflexivity|].
  apply (transpose_involutive m23_1_6 Hlive Hbuf eq_refl). left. reflexivity.
Defined.

(** [subsample_distinct_rows] at two rows out of [[1, 2], [3, 4]]. *)
Lemma subsample_distinct_rows_witness :
  live m22_1_4 /\ buffer_fits m22_1_4 /\ nd m22_1_4 = 2 /\ uint64 2 /\
  exists r rows,
    ndarray_subsample sample_rand m22_1_4 2 = Ok (Some r) /\
    dimensions r = [2; 2] /\
    length rows = 2%nat /\ NoDup rows /\ Forall (fun k => 0 <= k < 2) rows.
Proof.
  pose proof live_m22_1_4 as Hlive.
  assert (Hbuf : buffer_fits m22_1_4) by reflexivity.
  assert (Hn : uint64 2) by (unfold uint64, two64; lia).
  split; [exact Hlive|]. split; [exact Hbuf|]. split; [reflexivity|].
  split; [exact Hn|].
  destruct (subsample_distinct_rows sample_rand m22_1_4 2 Hlive Hbuf eq_refl
              (or_introl eq_refl) Hn)
    as (d0 & d1 & n & Hshape & _ & _ & Hsome).
  injection Hshape as <- <-.
  destruct (Hsome ltac:(lia) ltac:(lia))
    as (r & rows & Hr & Hrd & _ & Hlen & Hnd & Hall & _).
  exists r, rows. auto.
Defined.

(** [dot_into_output] at [[1, 2]] times [[3], [4]] into a 1x1 output. *)
Lemma dot_into_output_witness :
  live one_5 /\ live row_1_2 /\ live col_3_4 /\
  buffer_fits one_5 /\ buffer_fits row_1_2 /\ buffer_fits col_3_4 /\
  exists r,
    ndarray_dot (Other one_5) row_1_2 col_3_4 = Ok (Some r) /\
    dimensions r = [1; 1] /\
    load_at 8 (data r) 0 = Ok (Some (double_of_int 11)).
Proof.
  pose proof live_one_5 as Hlo. pose proof live_row_1_2 as Hla.
  pose proof live_col_3_4 as Hlb.
  assert (Hbo : buffer_fits one_5) by reflexivity.
  assert (Hba : buffer_fits row_1_2) by reflexivity.
  assert (Hbb : buffer_fits col_3_4) by reflexivity.
  do 6 (split; [assumption|]).
  destruct (dot_into_output one_5 row_1_2 col_3_4 Hlo Hla Hlb Hbo Hba Hbb
              eq_refl eq_refl eq_refl (or_introl eq_refl))
    as (m & inner & inner' & cols & n & Hsa & Hsb & Hts & _ & Hsome).
  injection Hsa as <- <-. injection Hsb as <- <-.
  destruct (Hsome eq_refl eq_refl eq_refl) as (r & Hr & Hrd & _ & Hcells).
  exists r. split; [exact Hr|]. split; [exact Hrd|].
  assert (Hn8 : n = 8%nat) by (apply Nat2Z.inj; exact Hts).
  rewrite Hn8 in Hcells.
  apply (Hcells 0 0); lia.
Defined.

(** [dot_by_square_matrix] at [[1, 2], [3, 4]] times [[5, 6], [7, 8]]. *)
Lemma dot_by_square_matrix_witness :
  live m22_1_4 /\ live m22_5_8 /\ buffer_fits m22_1_4 /\ buffer_fits m22_5_8 /\
  exists r,
    ndarray_dot Null m22_1_4 m22_5_8 = Ok (Some r) /\
    dimensions r = [2; 2] /\
    load_at 8 (data r) 3 = Ok (Some (double_of_int 50)).
Proof.
  pose proof live_m22_1_4 as Hla. pose proof live_m22_5_8 as Hlb.
  assert (Hba : buffer_fits m22_1_4) by reflexivity.
  assert (Hbb : buffer_fits m22_5_8) by reflexivity.
  do 4 (split; [assumption|]).
  destruct (dot_by_square_matrix m22_1_4 m22_5_8 Hla Hlb Hba Hbb
              eq_refl eq_refl eq_refl (or_introl eq_refl))
    as (m & cols & n & Hsa & Hts & Hsome).
  injection Hsa as <- <-.
  destruct (Hsome eq_refl) as (r & Hr & Hrd & _ & Hcells).
  exists r. split; [exact Hr|]. split; [exact Hrd|].
  assert (Hn8 : n = 8%nat) by (apply Nat2Z.inj; exact Hts).
  rewrite Hn8 in Hcells.
  apply (Hcells 1 1); lia.
Defined.

(** [broadcast_add_zero_pads] at [[1, 2], [3, 4]] plus [[5]]: cell (0, 0)
    is 1 + 5 and cell (1, 1) is 4 + 0. *)
Lemma broadcast_add_zero_pads_witness :
  live m22_1_4 /\ live one_5 /\ buffer_fits m22_1_4 /\ buffer_fits one_5 /\
  exists r,
    ndarray_broadcast_add None m22_1_4 one_5 = Ok (Some r) /\
    dimensions r = [2; 2] /\
    load_at 8 (data r) 0 = Ok (Some (double_of_int 6)) /\
    load_at 8 (data r) 3 = Ok (Some (double_of_int 4)).
Proof.
  pose proof live_m22_1_4 as Hla. pose proof live_one_5 as Hlb.
  assert (Hba : buffer_fits m22_1_4) by reflexivity.
  assert (Hbb : buffer_fits one_5) by reflexivity.
  do 4 (split; [assumption|]).
  destruct (broadcast_add_zero_pads m22_1_4 one_5 Hla Hlb Hba Hbb
              eq_refl eq_refl eq_refl (or_introl eq_refl))
    as (a0 & a1 & b0 & b1 & n & Hsa & Hsb & Hts & _ & Hnone).
  injection Hsa as <- <-. injection Hsb as <- <-.
  destruct (Hnone ltac:(lia) ltac:(lia)) as (r & Hr & Hrd & Hcells).
  exists r. split; [exact Hr|]. split; [exact Hrd|].
  assert (Hn8 : n = 8%nat) by (apply Nat2Z.inj; exact Hts).
  rewrite Hn8 in Hcells.
  split; [apply (Hcells 0 0) | apply (Hcells 1 1)]; simpl; lia.
Defined.

(** [create_shape_and_size] at shape [2, 3, 4] of floats. *)
Lemma create_shape_and_size_witness :
  rank_fits_int (Z.of_nat (length [2; 3; 4])) /\
  exists a,
    ndarray_create [2; 3; 4] 3 "f"%char = Ok (Some a) /\
    ndarray_shape a = [2; 3; 4] /\
    ndarray_size a = Ok 24.
Proof.
  assert (Hfit : rank_fits_int (Z.of_nat (length [2; 3; 4])))
    by (unfold rank_fits_int; simpl; lia).
  split; [exact Hfit|].
  destruct (create_shape_and_size [2; 3; 4] "f"%char Hfit)
    as (a & Hc & Hs & _ & _ & Hsz).
  exists a. auto.
Defined.

(** [get_point_row_major] at index (1, 2) of [[1, 2, 3], [4, 5, 6]]: the
    sixth element, at byte offset 40. *)
Lemma get_point_row_major_witness :
  live m23_1_6 /\ buffer_fits m23_1_6 /\ in_range m23_1_6 [1; 2] = true /\
  ndarray_get_point m23_1_6 [1; 2] = Ok (5 * 8) /\
  forall idx', in_range m23_1_6 idx' = true ->
    ndarray_get_point m23_1_6 idx' = ndarray_get_point m23_1_6 [1; 2] ->
    idx' = [1; 2].
Proof.
  pose proof live_m23_1_6 as Hlive.
  assert (Hbuf : buffer_fits m23_1_6) by reflexivity.
  assert (Hin : in_range m23_1_6 [1; 2] = true) by reflexivity.
  do 3 (split; [assumption|]).
  destruct (get_point_row_major m23_1_6 [1; 2] Hlive Hbuf Hin)
    as (Hget & _ & Hinj).
  split; [exact Hget|]. apply Hinj. reflexivity.
Defined.

(** [set_point_keeps_other_elements] at [[1, 2, 3], [4, 5, 6]]: writing
    at (0, 1) keeps the element at (1, 2). *)
Lemma set_point_keeps_other_elements_witness :
  live m23_1_6 /\ buffer_fits m23_1_6 /\
  in_range m23_1_6 [0; 1] = true /\ in_range m23_1_6 [1; 2] = true /\
  [1; 2] <> [0; 1] /\
  exists bs a',
    element_bytes m23_1_6 [1; 2] = Ok bs /\
    ndarray_set_point_d m23_1_6 [0; 1] (double_of_int 9) = Ok (a', 0) /\
    element_bytes a' [1; 2] = Ok bs.
Proof.
  pose proof live_m23_1_6 as Hlive.
  assert (Hbuf : buffer_fits m23_1_6) by reflexivity.
  assert (Hin : in_range m23_1_6 [0; 1] = true) by reflexivity.
  assert (Hin' : in_range m23_1_6 [1; 2] = true) by reflexivity.
  assert (Hne : [1; 2] <> [0; 1]) by discriminate.
  do 5 (split; [assumption|]).
  destruct (set_point_keeps_other_elements m23_1_6 [0; 1] [1; 2]
              Hlive Hbuf Hin Hin' Hne) as (bs & Hbs & _ & Hd & _).
  destruct (Hd (double_of_int 9)) as (a' & Hs & _ & Hb);
    [vm_compute; discriminate|].
  exists bs, a'. auto.
Defined.

(** [mismatched_operands_rejected] at a 2x3 and a 2x2 matrix. *)
Lemma mismatched_operands_rejected_witness :
  live m23_1_6 /\ live m22_1_4 /\
  ndarray_add None m23_1_6 m22_1_4 = Ok None /\
  ndarray_subtract None m23_1_6 m22_1_4 = Ok None /\
  ndarray_compare None m23_1_6 m22_1_4 "<"%char = Ok None.
Proof.
  pose proof live_m23_1_6 as Ha. pose proof live_m22_1_4 as Hb.
  do 2 (split; [assumption|]).
  apply (mismatched_operands_rejected None m23_1_6 m22_1_4 "<"%char Ha Hb).
  right. left. discriminate.
Defined.

(** [live_rank_and_size] at [[1, 2, 3], [4, 5, 6]]: 6 elements. *)
Lemma live_rank_and_size_witness :
  live m23_1_6 /\
  ndarray_size m23_1_6 = Ok (wrap64 (prod [2; 3])).
Proof.
  pose proof live_m23_1_6 as Hlive. split; [exact Hlive|].
  destruct (live_rank_and_size m23_1_6 Hlive) as (_ & _ & _ & Hs).
  exact Hs.
Defined.

(** [compare_writes_truth_values] at [[1, 2], [3, 4]] < [[5, 6], [7, 8]]:
    cell 3 holds 1. *)
Lemma compare_writes_truth_values_witness :
  live m22_1_4 /\ live m22_5_8 /\ buffer_fits m22_1_4 /\ buffer_fits m22_5_8 /\
  exists r,
    ndarray_compare None m22_1_4 m22_5_8 "<"%char = Ok (Some r) /\
    dimensions r = [2; 2] /\
    load_at 4 (data r) 3 = Ok (Some 1).
Proof.
  pose proof live_m22_1_4 as Ha. pose proof live_m22_5_8 as Hb.
  assert (Hba : buffer_fits m22_1_4) by reflexivity.
  assert (Hbb : buffer_fits m22_5_8) by reflexivity.
  do 4 (split; [assumption|]).
  destruct (compare_writes_truth_values m22_1_4 m22_5_8 Ha Hb Hba Hbb
              eq_refl eq_refl eq_refl (or_introl eq_refl)
              "<"%char IEEE.double_lt (or_intror (or_introl (conj eq_refl eq_refl))))
    as [(r & Hr & Hd & _ & Hcells) _].
  exists r. split; [exact Hr|]. split; [exact Hd|].
  apply (Hcells 3). vm_compute. split; [discriminate | reflexivity].
Defined.

(** [compare_unknown_operator] at [[1, 2], [3, 4]] and the operator
    ['!']. *)
Lemma compare_unknown_operator_witness :
  live m22_1_4 /\ live m22_5_8 /\ buffer_fits m22_1_4 /\ buffer_fits m22_5_8 /\
  forall result, ndarray_compare result m22_1_4 m22_5_8 "!"%char = Ok None.
Proof.
  pose proof live_m22_1_4 as Ha. pose proof live_m22_5_8 as Hb.
  assert (Hba : buffer_fits m22_1_4) by reflexivity.
  assert (Hbb : buffer_fits m22_5_8) by reflexivity.
  do 4 (split; [assumption|]).
  destruct (compare_unknown_operator m22_1_4 m22_5_8 "!"%char Ha Hb Hba Hbb
              eq_refl eq_refl eq_refl (or_introl eq_refl))
    as [Hnull _]; try discriminate.
  apply Hnull. vm_compute. reflexivity.
Defined.

(** [transpose_swaps_indices] at index (1, 2) of [[1, 2, 3], [4, 5, 6]]. *)
Lemma transpose_swaps_indices_witness :
  live m23_1_6 /\ buffer_fits m23_1_6 /\ in_range m23_1_6 [1; 2] = true /\
  exists r p q v,
    ndarray_transpose m23_1_6 = Ok (Some r) /\
    ndarray_get_point m23_1_6 [1; 2] = Ok p /\
    ndarray_get_point r [2; 1] = Ok q /\
    load 8 (data m23_1_6) p = Ok v /\ load 8 (data r) q = Ok v.
Proof.
  pose proof live_m23_1_6 as Hlive.
  assert (Hbuf : buffer_fits m23_1_6) by reflexivity.
  assert (Hin : in_range m23_1_6 [1; 2] = true) by reflexivity.
  do 3 (split; [assumption|]).
  destruct (transpose_swaps_indices m23_1_6 1 2 Hlive Hbuf eq_refl
              (or_introl eq_refl) Hin)
    as (r & n & p & q & v & Hn & Hr & _ & Hp & Hq & Hlp & Hlq).
  assert (n = 8%nat) by (change (Z.of_nat n = 8) in Hn; lia). subst n.
  exists r, p, q, v. auto.
Defined.

(** [transpose_distributes_over_add_subtract] at [[1, 2], [3, 4]] and
    [[5, 6], [7, 8]]. *)
Lemma transpose_distributes_over_add_subtract_witness :
  live m22_1_4 /\ live m22_5_8 /\ buffer_fits m22_1_4 /\ buffer_fits m22_5_8 /\
  exists ta tb s l r,
    ndarray_transpose m22_1_4 = Ok (Some ta) /\
    ndarray_transpose m22_5_8 = Ok (Some tb) /\
    ndarray_add None m22_1_4 m22_5_8 = Ok (Some s) /\
    ndarray_transpose s = Ok (Some l) /\
    ndarray_add None ta tb = Ok (Some r) /\
    dimensions l = dimensions r.
Proof.
  pose proof live_m22_1_4 as Ha. pose proof live_m22_5_8 as Hb.
  assert (Hba : buffer_fits m22_1_4) by reflexivity.
  assert (Hbb : buffer_fits m22_5_8) by reflexivity.
  do 4 (split; [assumption|]).
  destruct (transpose_distributes_over_add_subtract m22_1_4 m22_5_8
              Ha Hb Hba Hbb eq_refl eq_refl eq_refl (or_introl eq_refl))
    as (ta & tb & n & _ & Hta & Htb & (s & l & r & Hs & Hl & Hr & Hd & _) & _).
  exists ta, tb, s, l, r. auto 10.
Defined.

(** [concat_rejects_incompatible] at a 2x3 and a 2x2 matrix joined along
    axis 0. *)
Lemma concat_rejects_incompatible_witness :
  live m23_1_6 /\ live m22_1_4 /\
  ndarray_concat m23_1_6 m22_1_4 0 = Ok None.
Proof.
  pose proof live_m23_1_6 as Ha. pose proof live_m22_1_4 as Hb.
  do 2 (split; [assumption|]).
  apply (concat_rejects_incompatible m23_1_6 m22_1_4 0 Ha Hb); [lia|].
  do 3 right. exists 1, 3, 2. repeat split; try reflexivity; discriminate.
Defined.

(** [concat_result_shape] at the vectors [1, 2] and [3]. *)
Lemma concat_result_shape_witness :
  live vec_1_2 /\ live vec_3 /\
  exists r, ndarray_concat vec_1_2 vec_3 0 = Ok (Some r) /\
            ndarray_shape r = [wrap64 (2 + 1)].
Proof.
  pose proof live_vec_1_2 as Ha. pose proof live_vec_3 as Hb.
  do 2 (split; [assumption|]).
  eexists. split; [reflexivity|].
  destruct (concat_result_shape vec_1_2 vec_3 _ 0 Ha Hb ltac:(lia) eq_refl)
    as (_ & _ & _ & _ & _ & x & y & Hx & Hy & _ & Hs).
  injection Hx as <-. injection Hy as <-. exact Hs.
Defined.

(** [concat_empty_result] at two 0x2 arrays joined along axis 0. *)
Lemma concat_empty_result_witness :
  live empty_0x2 /\
  exists r, ndarray_concat empty_0x2 empty_0x2 0 = Ok (Some r) /\
            ndarray_shape r = [wrap64 (0 + 0); 2] /\ data r = [].
Proof.
  pose proof live_empty_0x2 as Ha. split; [exact Ha|].
  destruct (concat_empty_result empty_0x2 empty_0x2 0 0 0 Ha Ha eq_refl
              ltac:(simpl; lia) eq_refl eq_refl eq_refl eq_refl)
    as (r & Hr & Hs & _ & _ & Hd).
  exists r. auto.
Defined.

(** [concat_float_overruns_index_vector] at two fresh 1x2 arrays of
    floats joined along axis 0. *)
Lemma concat_float_overruns_index_vector_witness :
  live fresh_f_1x2 /\
  ndarray_concat fresh_f_1x2 fresh_f_1x2 0 = Fault.
Proof.
  pose proof live_fresh_f_1x2 as Ha. split; [exact Ha|].
  apply (concat_float_overruns_index_vector fresh_f_1x2 fresh_f_1x2 0 1 1
           Ha Ha eq_refl ltac:(simpl; lia) eq_refl eq_refl eq_refl eq_refl).
  reflexivity.
Defined.

(** [vectors_read_past_shape] at the vector [1, 2] added to itself. *)
Lemma vectors_read_past_shape_witness :
  live vec_1_2 /\
  ndarray_add None vec_1_2 vec_1_2 = Fault /\
  ndarray_subtract None vec_1_2 vec_1_2 = Fault /\
  ndarray_compare None vec_1_2 vec_1_2 "<"%char = Fault.
Proof.
  pose proof live_vec_1_2 as Ha. split; [exact Ha|].
  apply (vectors_read_past_shape None vec_1_2 vec_1_2 "<"%char Ha Ha
           eq_refl eq_refl eq_refl).
Defined.

(** [random_noise_fills] at a 2x3 matrix of doubles. *)
Lemma random_noise_fills_witness :
  uint64 2 /\ uint64 3 /\
  ndarray_create [2; 3] 2 "d"%char = Ok (Some fresh_2x3) /\
  buffer_fits fresh_2x3 /\
  exists r,
    ndarray_random_noise 2147483647 sample_rand 2 3
      (double_of_int 2) (double_of_int 1) "d"%char = Ok (Some r) /\
    live r /\ ndarray_shape r = [2; 3] /\
    load_at 8 (data r) 5
    = Ok (Some (IEEE.double_add (double_of_int 2)
                  (noise 2147483647 sample_rand 5 (double_of_int 1)))).
Proof.
  assert (H2 : uint64 2) by (unfold uint64, two64; lia).
  assert (H3 : uint64 3) by (unfold uint64, two64; lia).
  do 2 (split; [assumption|]).
  split; [reflexivity|]. split; [reflexivity|].
  destruct (random_noise_fills 2147483647 sample_rand 2 3
              (double_of_int 2) (double_of_int 1) "d"%char fresh_2x3 H2 H3
              eq_refl eq_refl)
    as (r & Hr & Hlive & _ & Hs & _ & Hd & _).
  exists r. do 3 (split; [assumption|]).
  apply (Hd eq_refl 5). lia.
Defined.

(** [random_normal_fills] at a 3x4 matrix of doubles, the call of
    [test.c], with the identity for the three functions of [libm]. *)
Lemma random_normal_fills_witness :
  uint64 3 /\ uint64 4 /\
  ndarray_create [3; 4] 2 "d"%char = Ok (Some fresh_3x4) /\
  buffer_fits fresh_3x4 /\
  exists r out',
    ndarray_random_normal 2147483647 sample_rand id id id 3 4
      (double_of_int 2) (double_of_int 1) "d"%char [] = Ok (Some r, out') /\
    live r /\ ndarray_shape r = [3; 4] /\ length out' = 12%nat.
Proof.
  assert (H3 : uint64 3) by (unfold uint64, two64; lia).
  assert (H4 : uint64 4) by (unfold uint64, two64; lia).
  do 2 (split; [assumption|]).
  split; [reflexivity|]. split; [reflexivity|].
  destruct (random_normal_fills 2147483647 sample_rand id id id 3 4
              (double_of_int 2) (double_of_int 1) "d"%char [] fresh_3x4 H3 H4
              eq_refl eq_refl)
    as (r & out' & Hr & Hlive & _ & Hs & _ & Hd & _).
  exists r, out'. do 3 (split; [assumption|]).
  destruct (Hd eq_refl) as [_ ->]. reflexivity.
Defined.

(** [from_csv_loads] at a file that gives the shape 2x2 and three
    values: the fourth element stays indeterminate. *)
Lemma from_csv_loads_witness :
  next_shape [2; 2; 11; 12; 13] = ((Some 2, Some 2), [11; 12; 13]) /\
  uint64 2 /\
  ndarray_create [2; 2] 2 "d"%char = Ok (Some fresh_2x2) /\
  buffer_fits fresh_2x2 /\
  exists r,
    ndarray_from_csv (list Z) next_shape next_value next_value 0 0
      (Some [2; 2; 11; 12; 13]) "d"%char = Ok (Some r, []) /\
    live r /\ ndarray_shape r = [2; 2] /\
    load_at 8 (data r) 2 = Ok (Some 13) /\
    load_at 8 (data r) 3 = Ok None.
Proof.
  assert (H2 : uint64 2) by (unfold uint64, two64; lia).
  split; [reflexivity|]. split; [exact H2|].
  split; [reflexivity|]. split; [reflexivity|].
  destruct (from_csv_loads (list Z) next_shape next_value next_value 0 0
              "d"%char) as [_ Hload].
  destruct (Hload [2; 2; 11; 12; 13] 2 2 [11; 12; 13] fresh_2x2 eq_refl H2 H2
              eq_refl eq_refl)
    as (r & Hr & Hlive & _ & Hs & _ & Hd & _).
  exists r. do 3 (split; [assumption|]).
  split; [apply (Hd eq_refl 2) | apply (Hd eq_refl 3)]; lia.
Defined.

(** [print_ndarray_prints] at [[1, 2], [3, 4]]. *)
Lemma print_ndarray_prints_witness :
  live m22_1_4 /\ buffer_fits m22_1_4 /\
  print_ndarray m22_1_4 []
  = Ok (Returns (printed_matrix 2 2
                   (fun i j => Some (double_of_int (i * 2 + j + 1))))).
Proof.
  pose proof live_m22_1_4 as Hlive.
  assert (Hbuf : buffer_fits m22_1_4) by reflexivity.
  split; [exact Hlive|]. split; [exact Hbuf|].
  destruct (print_ndarray_prints m22_1_4 [] Hlive Hbuf eq_refl eq_refl)
    as (d0 & d1 & Hshape & Hp).
  injection Hshape as <- <-. rewrite Hp. reflexivity.
Defined.

(** [print_ndarray] on the array created for shape [2^32, 0]: row after
    row of no element is printed, and the call does not return. *)
Lemma print_ndarray_runs_for_ever (out : list event) :
  ndarray_create [4294967296; 0] 2 "d"%char = Ok (Some rows_2p32x0) /\
  print_ndarray rows_2p32x0 out = Ok Forever.
Proof.
  assert (Hc : ndarray_create [4294967296; 0] 2 "d"%char
               = Ok (Some rows_2p32x0)) by (vm_compute; reflexivity).
  split; [exact Hc|].
  assert (Hfit : rank_fits_int 2) by (unfold rank_fits_int; lia).
  pose proof (ndarray_create_layout _ _ _ _ Hfit Hc) as Hlay.
  rewrite (print_ndarray_spec rows_2p32x0 4294967296 0 out);
    [reflexivity | tauto | reflexivity | reflexivity | reflexivity
    | lia | lia].
Qed.
